(** * Document stores over PostgreSQL/pgvector and Azure AI Search

    A shallow embedding of the two document stores of the repository

    - [integrations/pgvector/.../pgvector/document_store.py]
    - [integrations/azure_ai_search/.../azure_ai_search/document_store.py]

    Python methods become functions of a small state-and-exception monad
    over a "world" made of the store instance (its attributes) and the
    storage service it talks to.  The services themselves (PostgreSQL with
    the pgvector extension reached through psycopg, the Azure AI Search
    service reached through its SDK) are not part of the repository: they
    are modelled in the modules [Postgres] and [AzureService], from the
    documented behaviour of the statements and calls the stores issue. *)

From Stdlib Require Import String Ascii List ZArith QArith Bool Lia.
From Stdlib Require Import PrimFloat FloatOps SpecFloat DecimalString.
From stdpp Require Import base list sorting.
Import ListNotations.
Set Warnings "-register-all".
Open Scope string_scope.

(** ** Python values *)

Module Py.

(** Exception classes that the two stores raise or let through.  Messages
    are not modelled. *)
Inductive psycopg_error :=
| IntegrityError       (* unique / not-null violation *)
| DataError            (* value too long, wrong vector dimension, bad LIMIT *)
| ProgrammingError     (* missing table, index name already taken *)
| OperationalError.    (* connection lost, server unavailable *)

Inductive azure_error :=
| ResourceNotFoundError
| HttpResponseError.

Inductive exn :=
| ValueError
| TypeError
| AttributeError
| KeyError
| RecursionError
| Exception
| DuplicateDocumentError
| DocumentStoreError
| Psycopg (e : psycopg_error)
| Azure (e : azure_error).

(** The errors of [haystack.document_stores.errors]. *)
Definition is_domain_error (e : exn) : bool :=
  match e with
  | DuplicateDocumentError | DocumentStoreError => true
  | _ => false
  end.


Inductive result (A : Type) :=
| Ok (a : A)
| Raise (e : exn).
Arguments Ok {A} a.
Arguments Raise {A} e.

Definition is_raise {A} (r : result A) : bool :=
  match r with Raise _ => true | Ok _ => false end.

(** Scalars found in metadata and in filter values. *)
Inductive value :=
| VNone
| VBool (b : bool)
| VInt (z : Z)
| VFloat (f : float)
| VStr (s : string)
| VList (l : list value)
| VDict (d : list (string * value)).

(** Python truthiness. *)
Definition truthy (v : value) : bool :=
  match v with
  | VNone => false
  | VBool b => b
  | VInt z => negb (z =? 0)%Z
  | VFloat f => negb (PrimFloat.eqb f 0%float)
  | VStr s => negb (String.eqb s "")
  | VList l => match l with [] => false | _ => true end
  | VDict d => match d with [] => false | _ => true end
  end.

Definition str_of_Z (z : Z) : string := NilEmpty.string_of_int (Z.to_int z).

(** [sep.join(parts)] *)
Fixpoint join (sep : string) (parts : list string) : string :=
  match parts with
  | [] => ""
  | [p] => p
  | p :: rest => p ++ sep ++ join sep rest
  end.

(** Dictionaries keep insertion order; assigning an existing key updates
    it in place. *)
Section Dict.
Context {V : Type}.

Fixpoint dict_get (k : string) (d : list (string * V)) : option V :=
    match d with
    | [] => None
    | (k', v) :: d' => if String.eqb k k' then Some v else dict_get k d'
    end.

Fixpoint dict_set (k : string) (v : V) (d : list (string * V)) : list (string * V) :=
    match d with
    | [] => [(k, v)]
    | (k', v') :: d' =>
        if String.eqb k k' then (k, v) :: d' else (k', v') :: dict_set k v d'
    end.

Fixpoint dict_del (k : string) (d : list (string * V)) : list (string * V) :=
    match d with
    | [] => []
    | (k', v') :: d' =>
        if String.eqb k k' then d' else (k', v') :: dict_del k d'
    end.

Definition dict_mem (k : string) (d : list (string * V)) : bool :=
    match dict_get k d with Some _ => true | None => false end.

  (** [for k, v in src.items(): d[k] = v] *)
Definition dict_update (d src : list (string * V)) : list (string * V) :=
    fold_left (fun acc kv => dict_set (fst kv) (snd kv) acc) src d.
End Dict.

Definition float_eqb (a b : float) : bool := PrimFloat.eqb a b.

(** [a == b] on lists of floats. *)
Fixpoint floats_eqb (a b : list float) : bool :=
  match a, b with
  | [], [] => true
  | x :: a', y :: b' => float_eqb x y && floats_eqb a' b'
  | _, _ => false
  end.

End Py.
Export Py.

(** ** Haystack data classes *)

Module Haystack.

Inductive DuplicatePolicy := NONE | SKIP | OVERWRITE | FAIL.

Definition policy_eqb (p q : DuplicatePolicy) : bool :=
  match p, q with
  | NONE, NONE | SKIP, SKIP | OVERWRITE, OVERWRITE | FAIL, FAIL => true
  | _, _ => false
  end.

(** A document id is meant to be a [str]; the dataclass does not enforce
    it, and [IdInt] stands for the non-string ids a store can be handed. *)
Inductive doc_id :=
| IdStr (s : string)
| IdInt (z : Z).


Record ByteStream := {
  data : string;
  bs_meta : list (string * value);
  mime_type : option string
}.

(** Scores are values of the similarity operators of the backend; only
    their order is used, and they are kept as rationals. *)
Definition score_t := Q.

Record Document := {
  id : doc_id;
  content : option string;
  dataframe : option string;          (* as serialised by [to_dict] *)
  blob : option ByteStream;
  meta : list (string * value);
  score : option score_t;
  embedding : option (list float);
  sparse_embedding : option (list (Z * float))
}.

(** An element of the list handed to [write_documents]. *)
Inductive pyobj :=
| ADocument (d : Document)
| NotADocument (v : value).

Definition isinstance_Document (o : pyobj) : bool :=
  match o with ADocument _ => true | NotADocument _ => false end.


End Haystack.
Export Haystack.

(** ** psycopg: SQL composition *)

Module Sql.

(** [psycopg.sql]: a query is composed of raw SQL text, quoted identifiers
    and literals, and rendered by [as_string]. *)
Inductive Composable :=
| SQL (s : string)
| Identifier (s : string)
| SQLLiteral (v : value).

Definition Composed := list Composable.

Definition dquote : ascii := ascii_of_nat 34.
Definition squote : ascii := ascii_of_nat 39.

(** Every occurrence of the quote character is doubled. *)
Fixpoint escape (q : ascii) (s : string) : string :=
  match s with
  | EmptyString => EmptyString
  | String c s' =>
      if Ascii.eqb c q then String c (String c (escape q s'))
      else String c (escape q s')
  end.

Definition quote (q : ascii) (s : string) : string :=
  String q (escape q s ++ String q EmptyString).

(** Literals of the kinds the store uses: strings and integers. *)
Definition literal_as_string (v : value) : string :=
  match v with
  | VStr s => quote squote s
  | VInt z => str_of_Z z
  | VBool true => "true"
  | VBool false => "false"
  | _ => "NULL"
  end.

Definition part_as_string (c : Composable) : string :=
  match c with
  | SQL s => s
  | Identifier s => quote dquote s
  | SQLLiteral v => literal_as_string v
  end.

Fixpoint as_string (q : Composed) : string :=
  match q with
  | [] => ""
  | c :: q' => part_as_string c ++ as_string q'
  end.

End Sql.
Export Sql.

(** ** PostgreSQL with the pgvector extension, as the store uses it *)

Module Postgres.

(** A row of the documents table of CREATE_TABLE_STATEMENT. *)
Record pg_row := {
  row_id : string;
  row_embedding : option (list float);
  row_content : option string;
  row_dataframe : option string;
  row_blob_data : option string;
  row_blob_meta : option (list (string * value));
  row_blob_mime_type : option string;
  row_meta : list (string * value)
}.

(** The named parameters of INSERT_STATEMENT for one document. *)
Record db_document := {
  db_id : doc_id;
  db_embedding : option (list float);
  db_content : option string;
  db_dataframe : option string;
  db_blob_data : option string;
  db_blob_meta : option (list (string * value));
  db_blob_mime_type : option string;
  db_meta : list (string * value)
}.

Inductive index_method :=
| Gin (language : string)
| Hnsw (ops : string) (kwargs : list (string * Z)).

Record pg_index := {
  ix_table : string;
  ix_name : string;
  ix_method : index_method
}.

Record pg_table := {
  tbl_dim : Z;
  tbl_rows : list pg_row
}.

Inductive column :=
| col_embedding
| col_content
| col_dataframe
| col_blob_data
| col_blob_meta
| col_blob_mime_type
| col_meta.

(** What an INSERT does on a primary-key conflict. *)
Inductive conflict_clause :=
| NoConflictClause
| OnConflictDoNothing
| OnConflictDoUpdate (set : list column).

(** The three score expressions of [_embedding_retrieval]. *)
Inductive score_expr :=
| OneMinusCosineDistance      (* 1 - (embedding <=> q) *)
| NegInnerProductTimesMinus1  (* (embedding <#> q) * -1 *)
| L2Distance.                 (* embedding <-> q *)

Inductive sort_order := ASC | DESC.

(** A compiled filter: its SQL text, its parameters, and the rows on which
    the clause holds once the parameters are bound. *)
Record where_clause := {
  w_sql : Composed;
  w_params : list value;
  w_holds : pg_row -> bool
}.

(** What lies outside the repository's sources: the filter compiler of
    [filters.py], Python's [str] on floats, the three distance operators of
    pgvector and the full-text rank of PostgreSQL ([None]: the text does not
    match the query). *)
Class Env := {
  convert_filters : value -> string -> result where_clause;
  float_str : float -> string;
  cosine_distance : list float -> list float -> Q;
  neg_inner_product : list float -> list float -> Q;
  l2_distance : list float -> list float -> Q;
  ts_rank_cd : string -> string -> string -> option Q
}.

(** The statements the store issues, by meaning. *)
Inductive stmt :=
| CreateExtension
| CreateTableIfNotExists (dim : Z)
| DropTableIfExists (table : string)
| SelectIndexExists (table index : string)
| CreateIndex (index table : string) (m : index_method)
| SetHnswEfSearch (ef : Z)
| DropIndexIfExists (index : string)
| Insert (c : conflict_clause) (d : db_document)
| SelectAll (w : option where_clause)
| SelectKeyword (language query : string) (w : option where_clause) (limit : Z)
| SelectScored (e : score_expr) (q : list float) (w : option where_clause)
               (o : sort_order) (limit : Z)
| DeleteIdIn (ids : list string)
| Uninterpreted.

Inductive params :=
| NoParams
| Positional (l : list value)
| Named (d : db_document).

Record record := {
  rec_row : pg_row;
  rec_score : option (option score_t)   (* no score column | NULL | value *)
}.

Inductive result_set :=
| RsNone
| RsExists (b : bool)                (* SELECT 1 ... : a row or none *)
| RsReturning (ids : list string)    (* RETURNING id *)
| RsRecords (l : list record).

Inductive pg_event :=
| EvConnect
| EvExecute (text : string) (p : params) (s : stmt)
| EvExecuteMany (text : string) (ds : list db_document).

(** What happened to a row: used to count insertions and overwrites. *)
Inductive row_change :=
| Inserted (i : string)
| Overwritten (i : string).

Record PgBackend := {
  pg_table_ : option pg_table;        (* the documents table, if it exists *)
  pg_indexes : list pg_index;         (* the catalogue view pg_indexes *)
  pg_ef_search : option Z;            (* session setting hnsw.ef_search *)
  pg_changes : list row_change;       (* committed row changes, newest first *)
  pg_faults : list bool;              (* per round trip: does the server fail? *)
  pg_log : list pg_event              (* round trips, newest first *)
}.

Inductive pg_res (A : Type) :=
| PgOk (a : A)
| PgErr (e : psycopg_error).
Arguments PgOk {A} a.
Arguments PgErr {A} e.

Definition with_table (t : option pg_table) (b : PgBackend) : PgBackend :=
  {| pg_table_ := t; pg_indexes := pg_indexes b; pg_ef_search := pg_ef_search b;
     pg_changes := pg_changes b; pg_faults := pg_faults b; pg_log := pg_log b |}.

Definition with_indexes (l : list pg_index) (b : PgBackend) : PgBackend :=
  {| pg_table_ := pg_table_ b; pg_indexes := l; pg_ef_search := pg_ef_search b;
     pg_changes := pg_changes b; pg_faults := pg_faults b; pg_log := pg_log b |}.

Definition with_ef_search (z : option Z) (b : PgBackend) : PgBackend :=
  {| pg_table_ := pg_table_ b; pg_indexes := pg_indexes b; pg_ef_search := z;
     pg_changes := pg_changes b; pg_faults := pg_faults b; pg_log := pg_log b |}.

Definition with_changes (c : list row_change) (b : PgBackend) : PgBackend :=
  {| pg_table_ := pg_table_ b; pg_indexes := pg_indexes b; pg_ef_search := pg_ef_search b;
     pg_changes := c; pg_faults := pg_faults b; pg_log := pg_log b |}.

Definition with_faults (f : list bool) (b : PgBackend) : PgBackend :=
  {| pg_table_ := pg_table_ b; pg_indexes := pg_indexes b; pg_ef_search := pg_ef_search b;
     pg_changes := pg_changes b; pg_faults := f; pg_log := pg_log b |}.

Definition with_log (l : list pg_event) (b : PgBackend) : PgBackend :=
  {| pg_table_ := pg_table_ b; pg_indexes := pg_indexes b; pg_ef_search := pg_ef_search b;
     pg_changes := pg_changes b; pg_faults := pg_faults b; pg_log := l |}.

(** One round trip: the head of [pg_faults] says whether it fails. *)
Definition next_fault (b : PgBackend) : bool * PgBackend :=
  match pg_faults b with
  | [] => (false, b)
  | f :: fs => (f, with_faults fs b)
  end.

(** [id VARCHAR(128)]: a string of at most 128 characters is stored as it
    is; an integer parameter is converted by assignment cast to its decimal
    text. *)
Definition to_varchar128 (i : doc_id) : pg_res string :=
  match i with
  | IdStr s => if (String.length s <=? 128)%nat then PgOk s else PgErr DataError
  | IdInt z => PgOk (str_of_Z z)
  end.

(** A component of a [vector] is a single-precision float.  The driver
    sends the Python list as an array of doubles, which the assignment cast
    of the extension converts element by element: the value stored is the
    nearest single, ties going to the even one; NaN, an infinity and a
    double beyond the range of the singles are refused. *)
Definition to_float4 (x : float) : pg_res float :=
  match Prim2SF x with
  | S754_zero _ => PgOk x
  | S754_finite s m e =>
      match SpecFloat.binary_round 24 128 s m e with
      | S754_infinity _ => PgErr DataError
      | r => PgOk (SF2Prim r)
      end
  | _ => PgErr DataError
  end.

Fixpoint to_float4s (v : list float) : pg_res (list float) :=
  match v with
  | [] => PgOk []
  | x :: v' =>
      match to_float4 x, to_float4s v' with
      | PgOk y, PgOk ys => PgOk (y :: ys)
      | PgErr e, _ => PgErr e
      | _, PgErr e => PgErr e
      end
  end.

(** [embedding VECTOR(dim)]: NULL, or exactly [dim] single-precision
    components. *)
Definition to_vector (dim : Z) (e : option (list float)) : pg_res (option (list float)) :=
  match e with
  | None => PgOk None
  | Some v =>
      if (Z.of_nat (List.length v) =? dim)%Z then
        match to_float4s v with
        | PgOk v' => PgOk (Some v')
        | PgErr e => PgErr e
        end
      else PgErr DataError
  end.

Definition to_row (dim : Z) (d : db_document) : pg_res pg_row :=
  match to_varchar128 (db_id d), to_vector dim (db_embedding d) with
  | PgOk i, PgOk e =>
      PgOk {| row_id := i; row_embedding := e; row_content := db_content d;
              row_dataframe := db_dataframe d; row_blob_data := db_blob_data d;
              row_blob_meta := db_blob_meta d;
              row_blob_mime_type := db_blob_mime_type d; row_meta := db_meta d |}
  | PgErr e, _ => PgErr e
  | _, PgErr e => PgErr e
  end.

Definition has_id (i : string) (rows : list pg_row) : bool :=
  existsb (fun r => String.eqb (row_id r) i) rows.

(** [SET col = EXCLUDED.col]: one column of the stored row takes the value
    of the row that was proposed for insertion. *)
Definition set_column (c : column) (excluded old : pg_row) : pg_row :=
  let pick (k : column) {A} (f : pg_row -> A) : A :=
    match c, k with
    | col_embedding, col_embedding | col_content, col_content
    | col_dataframe, col_dataframe | col_blob_data, col_blob_data
    | col_blob_meta, col_blob_meta | col_blob_mime_type, col_blob_mime_type
    | col_meta, col_meta => f excluded
    | _, _ => f old
    end in
  {| row_id := row_id old;
     row_embedding := pick col_embedding row_embedding;
     row_content := pick col_content row_content;
     row_dataframe := pick col_dataframe row_dataframe;
     row_blob_data := pick col_blob_data row_blob_data;
     row_blob_meta := pick col_blob_meta row_blob_meta;
     row_blob_mime_type := pick col_blob_mime_type row_blob_mime_type;
     row_meta := pick col_meta row_meta |}.

Definition do_update (set : list column) (excluded old : pg_row) : pg_row :=
  fold_left (fun r c => set_column c excluded r) set old.

(** [ON CONFLICT (id) DO UPDATE SET ...]: PostgreSQL does not change a row
    where it stands.  It writes a new version of the row with the
    conflicting id, and a scan of the table then meets that version after
    the rows that were not touched. *)
Definition update_row (set : list column) (excluded : pg_row) (rows : list pg_row)
  : list pg_row :=
  let hit := fun r => String.eqb (row_id r) (row_id excluded) in
  (List.filter (fun r => negb (hit r)) rows
   ++ map (do_update set excluded) (List.filter hit rows))%list.

Definition index_exists (table index : string) (l : list pg_index) : bool :=
  existsb (fun ix => String.eqb (ix_table ix) table && String.eqb (ix_name ix) index) l.

Definition index_name_taken (index : string) (l : list pg_index) : bool :=
  existsb (fun ix => String.eqb (ix_name ix) index) l.

(** ORDER BY: NULL sorts as larger than every value (last when ascending,
    first when descending). *)
Definition pg_leb (a b : option score_t) : bool :=
  match a, b with
  | _, None => true
  | None, Some _ => false
  | Some x, Some y => Qle_bool x y
  end.

Definition pg_le (a b : option score_t) : Prop := pg_leb a b = true.
Definition pg_ge (a b : option score_t) : Prop := pg_leb b a = true.

Definition score_of (r : record) : option score_t :=
  match rec_score r with
  | Some s => s
  | None => None
  end.

Definition rec_le (a b : record) : Prop := pg_le (score_of a) (score_of b).
Definition rec_ge (a b : record) : Prop := pg_ge (score_of a) (score_of b).

#[export] Instance rec_le_dec : RelDecision rec_le.
Proof. intros a b. unfold rec_le, pg_le. apply _. Defined.

#[export] Instance rec_ge_dec : RelDecision rec_ge.
Proof. intros a b. unfold rec_ge, pg_ge. apply _. Defined.

Definition order_by (o : sort_order) (l : list record) : list record :=
  match o with
  | ASC => merge_sort rec_le l
  | DESC => merge_sort rec_ge l
  end.

Definition holds (w : option where_clause) (r : pg_row) : bool :=
  match w with
  | None => true
  | Some c => w_holds c r
  end.

Definition eval_score `{Env} (e : score_expr) (q : list float) (r : pg_row) : option score_t :=
  match row_embedding r with
  | None => None
  | Some v =>
      Some (match e with
            | OneMinusCosineDistance => 1 - cosine_distance v q
            | NegInnerProductTimesMinus1 => neg_inner_product v q * (-1 # 1)
            | L2Distance => l2_distance v q
            end)%Q
  end.

Definition limit_to (k : Z) (l : list record) : list record :=
  firstn (Z.to_nat k) l.

Definition keyword_records `{Env} (language query : string) (rows : list pg_row) : list record :=
  flat_map (fun r =>
    match row_content r with
    | None => []
    | Some c =>
        match ts_rank_cd language c query with
        | None => []
        | Some s => [{| rec_row := r; rec_score := Some (Some s) |}]
        end
    end) rows.

(** The meaning of one statement on the server state.  The server has one
    namespace for the names of indexes: it stands for a database in which a
    name without a schema resolves to the schema of the store. *)
Definition exec `{Env} (s : stmt) (b : PgBackend) : pg_res result_set * PgBackend :=
  match s with
  | CreateExtension => (PgOk RsNone, b)
  | CreateTableIfNotExists dim =>
      match pg_table_ b with
      | Some _ => (PgOk RsNone, b)
      | None => (PgOk RsNone, with_table (Some {| tbl_dim := dim; tbl_rows := [] |}) b)
      end
  | DropTableIfExists table =>
      (PgOk RsNone,
       with_indexes (List.filter (fun ix => negb (String.eqb (ix_table ix) table)) (pg_indexes b))
                    (with_table None b))
  | SelectIndexExists table index =>
      (PgOk (RsExists (index_exists table index (pg_indexes b))), b)
  | CreateIndex index table m =>
      match pg_table_ b with
      | None => (PgErr ProgrammingError, b)
      | Some _ =>
          if index_name_taken index (pg_indexes b) then (PgErr ProgrammingError, b)
          else (PgOk RsNone,
                with_indexes ({| ix_table := table; ix_name := index; ix_method := m |}
                                :: pg_indexes b) b)
      end
  | SetHnswEfSearch ef => (PgOk RsNone, with_ef_search (Some ef) b)
  | DropIndexIfExists index =>
      (PgOk RsNone,
       with_indexes (List.filter (fun ix => negb (String.eqb (ix_name ix) index)) (pg_indexes b)) b)
  | Insert c d =>
      match pg_table_ b with
      | None => (PgErr ProgrammingError, b)
      | Some t =>
          match to_row (tbl_dim t) d with
          | PgErr e => (PgErr e, b)
          | PgOk r =>
              if has_id (row_id r) (tbl_rows t) then
                match c with
                | NoConflictClause => (PgErr IntegrityError, b)
                | OnConflictDoNothing => (PgOk (RsReturning []), b)
                | OnConflictDoUpdate set =>
                    (PgOk (RsReturning [row_id r]),
                     with_changes (Overwritten (row_id r) :: pg_changes b)
                       (with_table (Some {| tbl_dim := tbl_dim t;
                                            tbl_rows := update_row set r (tbl_rows t) |}) b))
                end
              else
                (PgOk (RsReturning [row_id r]),
                 with_changes (Inserted (row_id r) :: pg_changes b)
                   (with_table (Some {| tbl_dim := tbl_dim t;
                                        tbl_rows := tbl_rows t ++ [r] |}) b))
          end
      end
  | SelectAll w =>
      match pg_table_ b with
      | None => (PgErr ProgrammingError, b)
      | Some t =>
          (PgOk (RsRecords (map (fun r => {| rec_row := r; rec_score := None |})
                                (List.filter (holds w) (tbl_rows t)))), b)
      end
  | SelectKeyword language query w limit =>
      match pg_table_ b with
      | None => (PgErr ProgrammingError, b)
      | Some t =>
          if (limit <? 0)%Z then (PgErr DataError, b)
          else (PgOk (RsRecords
                        (limit_to limit
                           (order_by DESC
                              (keyword_records language query
                                 (List.filter (holds w) (tbl_rows t)))))), b)
      end
  | SelectScored e q w o limit =>
      match pg_table_ b with
      | None => (PgErr ProgrammingError, b)
      | Some t =>
          if (limit <? 0)%Z then (PgErr DataError, b)
          else (PgOk (RsRecords
                        (limit_to limit
                           (order_by o
                              (map (fun r => {| rec_row := r;
                                                rec_score := Some (eval_score e q r) |})
                                   (List.filter (holds w) (tbl_rows t)))))), b)
      end
  | DeleteIdIn ids =>
      match pg_table_ b with
      | None => (PgErr ProgrammingError, b)
      | Some t =>
          (PgOk RsNone,
           with_table (Some {| tbl_dim := tbl_dim t;
                               tbl_rows := List.filter (fun r => negb (existsb (String.eqb (row_id r)) ids))
                                                  (tbl_rows t) |}) b)
      end
  | Uninterpreted => (PgOk RsNone, b)
  end.

(** One statement sent on an autocommit connection: it may fail for
    reasons of its own or because the round trip fails; when it succeeds
    its effect is committed. *)
Definition round_trip `{Env} (s : stmt) (b : PgBackend) : pg_res result_set * PgBackend :=
  let (fault, b1) := next_fault b in
  if fault then (PgErr OperationalError, b1) else exec s b1.

Definition execute `{Env} (text : string) (p : params) (s : stmt) (b : PgBackend)
  : pg_res result_set * PgBackend :=
  round_trip s (with_log (EvExecute text p s :: pg_log b) b).

(** [executemany]: psycopg sends the batch as one pipeline; on an
    autocommit connection the server runs a pipeline as one implicit
    transaction, so a failing statement undoes the statements before it. *)
Fixpoint pipeline `{Env} (c : conflict_clause) (ds : list db_document) (b : PgBackend)
  : pg_res (list result_set) * PgBackend :=
  match ds with
  | [] => (PgOk [], b)
  | d :: ds' =>
      match round_trip (Insert c d) b with
      | (PgErr e, b1) => (PgErr e, b1)
      | (PgOk rs, b1) =>
          match pipeline c ds' b1 with
          | (PgErr e, b2) => (PgErr e, b2)
          | (PgOk l, b2) => (PgOk (rs :: l), b2)
          end
      end
  end.

Definition executemany `{Env} (text : string) (c : conflict_clause) (ds : list db_document)
  (b : PgBackend) : pg_res (list result_set) * PgBackend :=
  let b0 := with_log (EvExecuteMany text ds :: pg_log b) b in
  match pipeline c ds b0 with
  | (PgOk l, b1) => (PgOk l, b1)
  | (PgErr e, b1) => (PgErr e, with_faults (pg_faults b1) b0)
  end.

(** [psycopg.connect]: one round trip, a fresh connection handle. *)
Definition connect (b : PgBackend) : pg_res nat * PgBackend :=
  let (fault, b1) := next_fault (with_log (EvConnect :: pg_log b) b) in
  if fault then (PgErr OperationalError, b1)
  else (PgOk (List.length (pg_log b)), b1).

End Postgres.
Export Postgres.

(** ** Worlds and the monad of store methods *)

Module Monad.

(** A method runs in a world made of the store instance, the service
    behind it and the warnings logged so far; it returns a value or raises,
    and the changes made before an exception are kept. *)
Record World (S B : Type) := {
  self : S;
  db : B;
  warnings : list string
}.
Arguments self {S B} w.
Arguments db {S B} w.
Arguments warnings {S B} w.
Arguments Build_World {S B} self db warnings.

Definition M (S B A : Type) := World S B -> result A * World S B.

Section Ops.
Context {S B : Type}.

Definition ret {A} (a : A) : M S B A := fun w => (Ok a, w).

Definition raise {A} (e : exn) : M S B A := fun w => (Raise e, w).

Definition bind {A C} (c : M S B A) (k : A -> M S B C) : M S B C :=
  fun w =>
    match c w with
    | (Ok a, w1) => k a w1
    | (Raise e, w1) => (Raise e, w1)
    end.

(** [try: c finally: f] *)
Definition try_finally {A} (c : M S B A) (f : M S B unit) : M S B A :=
  fun w =>
    match c w with
    | (r, w1) =>
        match f w1 with
        | (Ok _, w2) => (r, w2)
        | (Raise e, w2) => (Raise e, w2)
        end
    end.

Definition get_self : M S B S := fun w => (Ok (self w), w).

Definition set_self (s : S) : M S B unit :=
  fun w => (Ok tt, {| self := s; db := db w; warnings := warnings w |}).

Definition with_db (b : B) (w : World S B) : World S B :=
  {| self := self w; db := b; warnings := warnings w |}.

Definition logger_warning (msg : string) : M S B unit :=
  fun w => (Ok tt, {| self := self w; db := db w; warnings := msg :: warnings w |}).

Definition lift {A} (r : result A) : M S B A := fun w => (r, w).

(** [for x in l: body x] *)
Fixpoint for_each {A} (l : list A) (body : A -> M S B unit) : M S B unit :=
  match l with
  | [] => ret tt
  | x :: l' => bind (body x) (fun _ => for_each l' body)
  end.

(** [[f(x) for x in l]] with an effectful [f] *)
Fixpoint map_m {A C} (f : A -> M S B C) (l : list A) : M S B (list C) :=
  match l with
  | [] => ret []
  | x :: l' => bind (f x) (fun y => bind (map_m f l') (fun ys => ret (y :: ys)))
  end.

End Ops.

Declare Scope py_scope.
Delimit Scope py_scope with py.
Notation "x <- c ;; k" := (bind c (fun x => k))
  (at level 100, c at next level, right associativity) : py_scope.
Notation "c ;;; k" := (bind c (fun _ => k))
  (at level 100, right associativity) : py_scope.

End Monad.
Export Monad.

(** ** The pgvector document store *)

Module Pgvector.

Local Open Scope py_scope.

Definition nl : string := String (ascii_of_nat 10) EmptyString.

Record PgvectorDocumentStore := {
  connection_string : option string;
  schema_name : string;
  table_name : string;
  language : string;
  embedding_dimension : Z;
  vector_function : string;
  recreate_table : bool;
  search_strategy : string;
  hnsw_recreate_index_if_exists : bool;
  hnsw_index_creation_kwargs : list (string * Z);
  hnsw_index_name : string;
  hnsw_ef_search : option Z;
  keyword_index_name : string;
  _connection : option nat;
  _schema_is_initialized : bool
}.

Definition set_connection (c : option nat) (s : PgvectorDocumentStore) : PgvectorDocumentStore :=
  {| connection_string := connection_string s; schema_name := schema_name s;
     table_name := table_name s; language := language s;
     embedding_dimension := embedding_dimension s; vector_function := vector_function s;
     recreate_table := recreate_table s; search_strategy := search_strategy s;
     hnsw_recreate_index_if_exists := hnsw_recreate_index_if_exists s;
     hnsw_index_creation_kwargs := hnsw_index_creation_kwargs s;
     hnsw_index_name := hnsw_index_name s; hnsw_ef_search := hnsw_ef_search s;
     keyword_index_name := keyword_index_name s;
     _connection := c; _schema_is_initialized := _schema_is_initialized s |}.

Definition set_schema_is_initialized (f : bool) (s : PgvectorDocumentStore) : PgvectorDocumentStore :=
  {| connection_string := connection_string s; schema_name := schema_name s;
     table_name := table_name s; language := language s;
     embedding_dimension := embedding_dimension s; vector_function := vector_function s;
     recreate_table := recreate_table s; search_strategy := search_strategy s;
     hnsw_recreate_index_if_exists := hnsw_recreate_index_if_exists s;
     hnsw_index_creation_kwargs := hnsw_index_creation_kwargs s;
     hnsw_index_name := hnsw_index_name s; hnsw_ef_search := hnsw_ef_search s;
     keyword_index_name := keyword_index_name s;
     _connection := _connection s; _schema_is_initialized := f |}.

Definition Method (A : Type) := M PgvectorDocumentStore PgBackend A.

Definition VALID_VECTOR_FUNCTIONS : list string :=
  ["cosine_similarity"; "inner_product"; "l2_distance"].

Definition VECTOR_FUNCTION_TO_POSTGRESQL_OPS : list (string * string) :=
  [("cosine_similarity", "vector_cosine_ops");
   ("inner_product", "vector_ip_ops");
   ("l2_distance", "vector_l2_ops")].

Definition HNSW_INDEX_CREATION_VALID_KWARGS : list string := ["m"; "ef_construction"].

Definition str_in (x : string) (l : list string) : bool := existsb (String.eqb x) l.

(** [__init__] with its defaults left to the caller. *)
Definition __init__ (connection_string : option string) (schema_name table_name language : string)
  (embedding_dimension : Z) (vector_function : string) (recreate_table : bool)
  (search_strategy : string) (hnsw_recreate_index_if_exists : bool)
  (hnsw_index_creation_kwargs : option (list (string * Z))) (hnsw_index_name : string)
  (hnsw_ef_search : option Z) (keyword_index_name : string) : result PgvectorDocumentStore :=
  if negb (str_in vector_function VALID_VECTOR_FUNCTIONS) then Raise ValueError
  else Ok {| connection_string := connection_string; schema_name := schema_name;
             table_name := table_name; language := language;
             embedding_dimension := embedding_dimension; vector_function := vector_function;
             recreate_table := recreate_table; search_strategy := search_strategy;
             hnsw_recreate_index_if_exists := hnsw_recreate_index_if_exists;
             hnsw_index_creation_kwargs :=
               match hnsw_index_creation_kwargs with Some k => k | None => [] end;
             hnsw_index_name := hnsw_index_name; hnsw_ef_search := hnsw_ef_search;
             keyword_index_name := keyword_index_name;
             _connection := None; _schema_is_initialized := false |}.

(** *** Statements, as composed by the store *)

Definition CREATE_TABLE_STATEMENT (schema table : string) (dim : Z) : Composed :=
  [SQL (nl ++ "CREATE TABLE IF NOT EXISTS "); Identifier schema; SQL "."; Identifier table;
   SQL (" (" ++ nl ++ "id VARCHAR(128) PRIMARY KEY," ++ nl ++ "embedding VECTOR(");
   SQLLiteral (VInt dim);
   SQL (")," ++ nl ++ "content TEXT," ++ nl ++ "dataframe JSONB," ++ nl ++ "blob_data BYTEA,"
        ++ nl ++ "blob_meta JSONB," ++ nl ++ "blob_mime_type VARCHAR(255)," ++ nl
        ++ "meta JSONB)" ++ nl)].

Definition INSERT_STATEMENT (schema table : string) : Composed :=
  [SQL (nl ++ "INSERT INTO "); Identifier schema; SQL "."; Identifier table;
   SQL (nl ++ "(id, embedding, content, dataframe, blob_data, blob_meta, blob_mime_type, meta)"
        ++ nl ++ "VALUES (%(id)s, %(embedding)s, %(content)s, %(dataframe)s, %(blob_data)s, "
        ++ "%(blob_meta)s, %(blob_mime_type)s, %(meta)s)" ++ nl)].

Definition UPDATE_STATEMENT : Composed :=
  [SQL (nl ++ "ON CONFLICT (id) DO UPDATE SET" ++ nl
        ++ "embedding = EXCLUDED.embedding," ++ nl
        ++ "content = EXCLUDED.content," ++ nl
        ++ "dataframe = EXCLUDED.dataframe," ++ nl
        ++ "blob_data = EXCLUDED.blob_data," ++ nl
        ++ "blob_meta = EXCLUDED.blob_meta," ++ nl
        ++ "blob_mime_type = EXCLUDED.blob_mime_type," ++ nl
        ++ "meta = EXCLUDED.meta" ++ nl)].

(** The columns assigned by UPDATE_STATEMENT. *)
Definition UPDATE_STATEMENT_columns : list column :=
  [col_embedding; col_content; col_dataframe; col_blob_data; col_blob_meta;
   col_blob_mime_type; col_meta].

Definition KEYWORD_QUERY (schema table language : string) : Composed :=
  [SQL (nl ++ "SELECT "); Identifier table; SQL ".*, ts_rank_cd(to_tsvector(";
   SQLLiteral (VStr language); SQL (", content), query) AS score" ++ nl ++ "FROM ");
   Identifier schema; SQL "."; Identifier table; SQL ", plainto_tsquery(";
   SQLLiteral (VStr language); SQL (", %s) query" ++ nl ++ "WHERE to_tsvector(");
   SQLLiteral (VStr language); SQL (", content) @@ query" ++ nl)].

Definition SELECT_INDEX_EXISTS : Composed :=
  [SQL "SELECT 1 FROM pg_indexes WHERE tablename = %s AND indexname = %s"].

(** *** Connections and cursors *)

Definition set_db_result {A} (r : pg_res A * PgBackend) (wrap : psycopg_error -> exn)
  : Method A :=
  fun w =>
    match r with
    | (PgOk a, b) => (Ok a, with_db b w)
    | (PgErr e, b) => (Raise (wrap e), with_db b w)
    end.

(** [connection.execute] of psycopg: driver errors are raised as they are. *)
Definition connection_execute `{Env} (q : Composed) (p : params) (s : stmt) : Method result_set :=
  fun w => set_db_result (Postgres.execute (as_string q) p s (db w)) Psycopg w.

(** [Cursor.execute] of the store's cursor class: every [psycopg.Error] is
    turned into a [DocumentStoreError]. *)
Definition Cursor_execute `{Env} (q : Composed) (p : params) (s : stmt) : Method result_set :=
  fun w => set_db_result (Postgres.execute (as_string q) p s (db w))
                         (fun _ => DocumentStoreError) w.

Definition _create_connection `{Env} : Method nat :=
  conn <- (fun w => set_db_result (Postgres.connect (db w)) Psycopg w) ;;
  connection_execute [SQL "CREATE EXTENSION IF NOT EXISTS vector"] NoParams CreateExtension ;;;
  ret conn.

(** The property [connection], given what [_init_schema] does. *)
Definition connection_with `{Env} (init_schema : Method unit) : Method nat :=
  s <- get_self ;;
  (match _connection s with
   | Some _ => ret tt
   | None => c <- _create_connection ;; s <- get_self ;; set_self (set_connection (Some c) s)
   end) ;;;
  s <- get_self ;;
  (if negb (_schema_is_initialized s)
   then set_self (set_schema_is_initialized true s) ;;; init_schema
   else ret tt) ;;;
  s <- get_self ;;
  match _connection s with
  | Some c => ret c
  | None => raise AttributeError
  end.

Definition delete_table_with `{Env} (connection : Method nat) : Method unit :=
  s <- get_self ;;
  connection ;;;
  Cursor_execute [SQL "DROP TABLE IF EXISTS "; Identifier (schema_name s); SQL ".";
                  Identifier (table_name s)]
                 NoParams (DropTableIfExists (table_name s)) ;;;
  ret tt.

Definition hnsw_kwargs_str (kwargs : list (string * Z)) : string :=
  join ", " (map (fun kv => fst kv ++ " = " ++ str_of_Z (snd kv)) kwargs).

Definition _create_hnsw_index_with `{Env} (connection : Method nat) : Method unit :=
  s <- get_self ;;
  match dict_get (vector_function s) VECTOR_FUNCTION_TO_POSTGRESQL_OPS with
  | None => raise KeyError
  | Some pg_ops =>
      let actual_hnsw_index_creation_kwargs :=
        List.filter (fun kv => str_in (fst kv) HNSW_INDEX_CREATION_VALID_KWARGS)
               (hnsw_index_creation_kwargs s) in
      let sql_create_index :=
        [SQL "CREATE INDEX "; Identifier (hnsw_index_name s); SQL " ON ";
         Identifier (schema_name s); SQL "."; Identifier (table_name s);
         SQL " USING hnsw (embedding "; SQL pg_ops; SQL ") "] in
      let sql_create_index :=
        match actual_hnsw_index_creation_kwargs with
        | [] => sql_create_index
        | _ => (sql_create_index
                  ++ [SQL "WITH ("; SQL (hnsw_kwargs_str actual_hnsw_index_creation_kwargs);
                      SQL ")"])%list
        end in
      connection ;;;
      Cursor_execute sql_create_index NoParams
        (CreateIndex (hnsw_index_name s) (table_name s)
                     (Hnsw pg_ops actual_hnsw_index_creation_kwargs)) ;;;
      ret tt
  end.

Definition HNSW_EXISTS_WARNING : string :=
  "HNSW index already exists and won't be recreated. "
  ++ "If you want to recreate it, pass 'hnsw_recreate_index_if_exists=True' to the "
  ++ "Document Store constructor".

Definition _handle_hnsw_with `{Env} (connection : Method nat) : Method unit :=
  s <- get_self ;;
  (match hnsw_ef_search s with
   | Some ef =>
       if (ef =? 0)%Z then ret tt
       else
         connection ;;;
         Cursor_execute [SQL "SET hnsw.ef_search = "; SQLLiteral (VInt ef)] NoParams
                        (SetHnswEfSearch ef) ;;;
         ret tt
   | None => ret tt
   end) ;;;
  connection ;;;
  rs <- Cursor_execute SELECT_INDEX_EXISTS
          (Positional [VStr (table_name s); VStr (hnsw_index_name s)])
          (SelectIndexExists (table_name s) (hnsw_index_name s)) ;;
  let index_exists := match rs with RsExists b => b | _ => false end in
  if index_exists && negb (hnsw_recreate_index_if_exists s) then
    logger_warning HNSW_EXISTS_WARNING
  else
    connection ;;;
    Cursor_execute [SQL "DROP INDEX IF EXISTS "; Identifier (hnsw_index_name s)] NoParams
                   (DropIndexIfExists (hnsw_index_name s)) ;;;
    _create_hnsw_index_with connection.

Definition _init_schema_with `{Env} (connection : Method nat) : Method unit :=
  s <- get_self ;;
  (if recreate_table s then delete_table_with connection else ret tt) ;;;
  let create_table :=
    CREATE_TABLE_STATEMENT (schema_name s) (table_name s) (embedding_dimension s) in
  let create_index :=
    [SQL "CREATE INDEX "; Identifier (keyword_index_name s); SQL " ON ";
     Identifier (table_name s); SQL " USING GIN (to_tsvector(";
     SQLLiteral (VStr (language s)); SQL ", content))"] in
  connection ;;;
  Cursor_execute create_table NoParams (CreateTableIfNotExists (embedding_dimension s)) ;;;
  rs <- Cursor_execute SELECT_INDEX_EXISTS
          (Positional [VStr (table_name s); VStr (keyword_index_name s)])
          (SelectIndexExists (table_name s) (keyword_index_name s)) ;;
  let index_exists := match rs with RsExists b => b | _ => false end in
  (if negb index_exists
   then Cursor_execute create_index NoParams
          (CreateIndex (keyword_index_name s) (table_name s) (Gin (language s))) ;;; ret tt
   else ret tt) ;;;
  if String.eqb (search_strategy s) "hnsw" then _handle_hnsw_with connection else ret tt.

(** The property [connection] and [_init_schema] call each other: the
    property runs [_init_schema] when the flag is unset, and [_init_schema]
    opens its cursors through the property.  [depth] is the room left on
    the interpreter's call stack. *)
Fixpoint _init_schema_at `{Env} (depth : nat) : Method unit :=
  match depth with
  | O => raise RecursionError
  | S d => _init_schema_with (connection_with (_init_schema_at d))
  end.

Definition recursion_limit : nat := 1000.

Definition _init_schema `{Env} : Method unit := _init_schema_at recursion_limit.
Definition connection `{Env} : Method nat := connection_with _init_schema.
Definition delete_table `{Env} : Method unit := delete_table_with connection.
Definition _create_hnsw_index `{Env} : Method unit := _create_hnsw_index_with connection.
Definition _handle_hnsw `{Env} : Method unit := _handle_hnsw_with connection.

(** *** Conversions between documents and rows *)

Definition nonempty (o : option string) : option string :=
  match o with
  | Some s => if String.eqb s "" then None else Some s
  | None => None
  end.

Definition to_db_document (document : Document) : db_document :=
  let blob := blob document in
  {| db_id := id document;
     db_embedding := embedding document;
     db_content := content document;
     db_dataframe := nonempty (dataframe document);
     db_blob_data := match blob with Some b => Some (data b) | None => None end;
     db_blob_meta :=
       match blob with
       | Some b => match bs_meta b with [] => None | m => Some m end
       | None => None
       end;
     db_blob_mime_type :=
       match blob with Some b => nonempty (mime_type b) | None => None end;
     db_meta := meta document |}.

Definition SPARSE_WARNING : string :=
  "Document has the `sparse_embedding` field set,"
  ++ "but storing sparse embeddings in Pgvector is not currently supported."
  ++ "The `sparse_embedding` field will be ignored.".

(** An element that is not a Document has no [to_dict]. *)
Definition _from_haystack_to_pg_documents (documents : list pyobj) : Method (list db_document) :=
  map_m (fun o =>
           match o with
           | NotADocument _ => raise AttributeError
           | ADocument document =>
               (match sparse_embedding document with
                | Some (_ :: _) => logger_warning SPARSE_WARNING
                | _ => ret tt
                end) ;;;
               ret (to_db_document document)
           end) documents.

Definition from_pg_record (r : record) : Document :=
  let row := rec_row r in
  {| id := IdStr (row_id row);
     content := row_content row;
     dataframe := row_dataframe row;
     blob :=
       match nonempty (row_blob_data row) with
       | Some d =>
           Some {| data := d;
                   bs_meta := match row_blob_meta row with Some m => m | None => [] end;
                   mime_type := row_blob_mime_type row |}
       | None => None
       end;
     meta := row_meta row;
     score := score_of r;
     embedding := row_embedding row;
     sparse_embedding := None |}.

Definition _from_pg_to_haystack_documents (documents : list record) : list Document :=
  map from_pg_record documents.

Definition records_of (rs : result_set) : list record :=
  match rs with
  | RsRecords l => l
  | _ => []
  end.

(** *** Reading *)

Definition is_dict (v : value) : bool :=
  match v with VDict _ => true | _ => false end.

(** ["key" in filters] *)
Definition key_in (k : string) (v : value) : bool :=
  match v with
  | VDict d => dict_mem k d
  | _ => false
  end.

Definition filter_documents `{Env} (filters : value) : Method (list Document) :=
  (if truthy filters then
     if negb (is_dict filters) then raise TypeError
     else if negb (key_in "operator" filters) && negb (key_in "conditions" filters)
          then raise ValueError
          else ret tt
   else ret tt) ;;;
  s <- get_self ;;
  let sql_filter := [SQL "SELECT * FROM "; Identifier (schema_name s); SQL ".";
                     Identifier (table_name s)] in
  qp <- (if truthy filters then
           w <- lift (convert_filters filters "WHERE") ;;
           ret ((sql_filter ++ w_sql w)%list, w_params w, Some w)
         else ret (sql_filter, [], None)) ;;
  let '(sql_filter, params, w) := qp in
  connection ;;;
  rs <- Cursor_execute sql_filter (Positional params) (SelectAll w) ;;
  ret (_from_pg_to_haystack_documents (records_of rs)).

Definition has_quote (s : string) : bool :=
  negb (String.eqb (escape squote s) s).

Definition delete_sql (s : PgvectorDocumentStore) (document_ids : list string) : Composed :=
  let document_ids_str := join ", " (map (fun document_id => "'" ++ document_id ++ "'")
                                         document_ids) in
  [SQL "DELETE FROM "; Identifier (schema_name s); SQL "."; Identifier (table_name s);
   SQL " WHERE id IN ("; SQL document_ids_str; SQL ")"].

(** The ids are spliced into the text between quotes.  When no id holds a
    quote the text reads as the deletion of these ids; otherwise its
    reading depends on the ids and is left uninterpreted. *)
Definition delete_documents `{Env} (document_ids : list string) : Method unit :=
  match document_ids with
  | [] => ret tt
  | _ =>
      s <- get_self ;;
      connection ;;;
      Cursor_execute (delete_sql s document_ids) NoParams
        (if existsb has_quote document_ids then Uninterpreted else DeleteIdIn document_ids) ;;;
      ret tt
  end.

Definition keyword_sql `{Env} (s : PgvectorDocumentStore) (sql_where_clause : Composed)
  (top_k : Z) : Composed :=
  (KEYWORD_QUERY (schema_name s) (table_name s) (language s)
   ++ sql_where_clause
   ++ [SQL " ORDER BY score DESC LIMIT "; SQLLiteral (VInt top_k)])%list.

Definition _keyword_retrieval `{Env} (query : string) (filters : value) (top_k : Z)
  : Method (list Document) :=
  if String.eqb query "" then raise ValueError
  else
    s <- get_self ;;
    cw <- (if truthy filters then
             w <- lift (convert_filters filters "AND") ;;
             ret (w_sql w, w_params w, Some w)
           else ret ([SQL ""], [], None)) ;;
    let '(sql_where_clause, where_params, w) := cw in
    connection ;;;
    rs <- Cursor_execute (keyword_sql s sql_where_clause top_k)
            (Positional (VStr query :: where_params))
            (SelectKeyword (language s) query w top_k) ;;
    ret (_from_pg_to_haystack_documents (records_of rs)).

(** ["'[3,1,2]'"] *)
Definition query_embedding_for_postgres `{Env} (query_embedding : list float) : string :=
  "'[" ++ join "," (map float_str query_embedding) ++ "]'".

Definition score_definition `{Env} (vector_function : string) (query_embedding : list float)
  : string :=
  let q := query_embedding_for_postgres query_embedding in
  if String.eqb vector_function "cosine_similarity" then
    "1 - (embedding <=> " ++ q ++ ") AS score"
  else if String.eqb vector_function "inner_product" then
    "(embedding <#> " ++ q ++ ") * -1 AS score"
  else
    "embedding <-> " ++ q ++ " AS score".

(** The score expression that [score_definition] writes. *)
Definition score_expr_of (vector_function : string) : score_expr :=
  if String.eqb vector_function "cosine_similarity" then OneMinusCosineDistance
  else if String.eqb vector_function "inner_product" then NegInnerProductTimesMinus1
  else L2Distance.

Definition sort_order_of (vector_function : string) : sort_order :=
  if String.eqb vector_function "l2_distance" then ASC else DESC.

Definition sort_order_str (o : sort_order) : string :=
  match o with ASC => "ASC" | DESC => "DESC" end.

Definition embedding_sql `{Env} (s : PgvectorDocumentStore) (vector_function : string)
  (query_embedding : list float) (sql_where_clause : Composed) (top_k : Z) : Composed :=
  ([SQL "SELECT *, "; SQL (score_definition vector_function query_embedding); SQL " FROM ";
    Identifier (schema_name s); SQL "."; Identifier (table_name s)]
   ++ sql_where_clause
   ++ [SQL " ORDER BY score "; SQL (sort_order_str (sort_order_of vector_function));
       SQL " LIMIT "; SQLLiteral (VInt top_k)])%list.

Definition _embedding_retrieval `{Env} (query_embedding : list float) (filters : value)
  (top_k : Z) (vector_function : option string) : Method (list Document) :=
  s <- get_self ;;
  match query_embedding with
  | [] => raise ValueError
  | _ =>
      if negb (Z.of_nat (List.length query_embedding) =? embedding_dimension s)%Z
      then raise ValueError
      else
        let vector_function :=
          match nonempty vector_function with
          | Some f => f
          | None => Pgvector.vector_function s
          end in
        if negb (str_in vector_function VALID_VECTOR_FUNCTIONS) then raise ValueError
        else
          cw <- (if truthy filters then
                   w <- lift (convert_filters filters "WHERE") ;;
                   ret (w_sql w, w_params w, Some w)
                 else ret ([SQL ""], [], None)) ;;
          let '(sql_where_clause, params, w) := cw in
          connection ;;;
          rs <- Cursor_execute
                  (embedding_sql s vector_function query_embedding sql_where_clause top_k)
                  (Positional params)
                  (SelectScored (score_expr_of vector_function) query_embedding w
                                (sort_order_of vector_function) top_k) ;;
          ret (_from_pg_to_haystack_documents (records_of rs))
  end.

(** *** Writing *)

Definition insert_sql (s : PgvectorDocumentStore) (policy : DuplicatePolicy) : Composed :=
  (INSERT_STATEMENT (schema_name s) (table_name s)
   ++ match policy with
      | OVERWRITE => UPDATE_STATEMENT
      | SKIP => [SQL "ON CONFLICT DO NOTHING"]
      | _ => []
      end
   ++ [SQL " RETURNING id"])%list.

Definition conflict_clause_of (policy : DuplicatePolicy) : conflict_clause :=
  match policy with
  | OVERWRITE => OnConflictDoUpdate UPDATE_STATEMENT_columns
  | SKIP => OnConflictDoNothing
  | _ => NoConflictClause
  end.

Definition has_row (rs : result_set) : bool :=
  match rs with
  | RsReturning (_ :: _) => true
  | RsRecords (_ :: _) => true
  | RsExists b => b
  | _ => false
  end.

(** [while True: if cursor.fetchone(): n += 1; if not cursor.nextset(): break] *)
Fixpoint count_rows (results : list result_set) : nat :=
  match results with
  | [] => 0
  | rs :: rest => (if has_row rs then 1 else 0) + count_rows rest
  end.

Definition _connected_write_documents `{Env} (documents : list pyobj) (policy : DuplicatePolicy)
  : Method nat :=
  (match documents with
   | first :: _ => if negb (isinstance_Document first) then raise ValueError else ret tt
   | [] => ret tt
   end) ;;;
  let policy := if policy_eqb policy NONE then FAIL else policy in
  db_documents <- _from_haystack_to_pg_documents documents ;;
  s <- get_self ;;
  let sql_insert := insert_sql s policy in
  connection ;;;
  connection ;;;
  results <-
    (fun w =>
       match Postgres.executemany (as_string sql_insert) (conflict_clause_of policy)
                                  db_documents (db w) with
       | (PgOk l, b) => (Ok l, with_db b w)
       | (PgErr IntegrityError, b) =>
           (connection ;;; raise DuplicateDocumentError) (with_db b w)
       | (PgErr _, b) =>
           (connection ;;; raise DocumentStoreError) (with_db b w)
       end) ;;
  match results with
  | [] => raise (Psycopg ProgrammingError)   (* fetchone: no result available *)
  | _ => ret (count_rows results)
  end.

(** *** The connected-method wrapper of [__getattr__] *)

Definition _connected_method `{Env} {A} (private_method : Method A) : Method A :=
  s <- get_self ;;
  let old_connection := _connection s in
  try_finally
    (conn <- _create_connection ;;
     s <- get_self ;;
     set_self (set_connection (Some conn) s) ;;;
     s <- get_self ;;
     (if negb (_schema_is_initialized s)
      then set_self (set_schema_is_initialized true s) ;;; _init_schema
      else ret tt) ;;;
     result <- private_method ;;
     ret result)
    (s <- get_self ;; set_self (set_connection old_connection s)).

(** [store.write_documents] is not defined on the class: the attribute
    lookup goes through [__getattr__], which finds
    [_connected_write_documents] and wraps it. *)
Definition write_documents `{Env} (documents : list pyobj) (policy : DuplicatePolicy)
  : Method nat :=
  _connected_method (_connected_write_documents documents policy).

(** *** Counting *)

Definition asterisk : string := String (ascii_of_nat 42) EmptyString.

Definition count_sql (s : PgvectorDocumentStore) : Composed :=
  [SQL ("SELECT COUNT(" ++ asterisk ++ ") FROM "); Identifier (schema_name s); SQL ".";
   Identifier (table_name s)].

(** The count query answers with one row that holds the number of rows of
    the table, which is the number of rows that the query of
    [filter_documents] without filters returns over the same table. *)
Definition count_documents `{Env} : Method nat :=
  s <- get_self ;;
  connection ;;;
  rs <- Cursor_execute (count_sql s) NoParams (SelectAll None) ;;
  ret (List.length (records_of rs)).

(** *** Attribute lookup *)

(** The names bound in the body of the class, and the attributes that
    [__init__] sets on the instance. *)
Definition class_attributes : list string :=
  ["__init__"; "__getattr__"; "cursor"; "dict_cursor"; "connection"; "_create_connection";
   "_init_schema"; "to_dict"; "from_dict"; "delete_table"; "_handle_hnsw";
   "_create_hnsw_index"; "count_documents"; "filter_documents";
   "_connected_write_documents"; "_from_haystack_to_pg_documents";
   "_from_pg_to_haystack_documents"; "delete_documents"; "_keyword_retrieval";
   "_embedding_retrieval"].

Definition instance_attributes : list string :=
  ["connection_string"; "table_name"; "schema_name"; "embedding_dimension";
   "vector_function"; "recreate_table"; "search_strategy"; "hnsw_recreate_index_if_exists";
   "hnsw_index_creation_kwargs"; "hnsw_index_name"; "hnsw_ef_search"; "keyword_index_name";
   "language"; "_connection"; "_schema_is_initialized"].

Inductive attribute :=
| Bound (name : string)                      (* found by the normal lookup *)
| ConnectedMethod (private_item : string).   (* the closure that [__getattr__] returns *)

Section Getattr.

(** The names inherited from [object]. *)
Variable inherited : string -> bool.

Definition has_attribute (name : string) : bool :=
  str_in name class_attributes || str_in name instance_attributes || inherited name.

(** [getattr(self, item)]: the normal lookup and, when it finds nothing,
    [__getattr__], which first looks up ["_connected_" + item] in the same
    way and then returns the wrapper around what it found.  [depth] is the
    room left on the interpreter's call stack. *)
Fixpoint getattr (depth : nat) (item : string) : result attribute :=
  if has_attribute item then Ok (Bound item)
  else
    match depth with
    | O => Raise RecursionError
    | S d =>
        let private_item := "_connected_" ++ item in
        match getattr d private_item with
        | Ok _ => Ok (ConnectedMethod private_item)
        | Raise e => Raise e
        end
    end.

End Getattr.

End Pgvector.

(** ** The Azure AI Search service, as the store uses it *)

Module AzureService.

(** A document of a search index: field name to value. *)
Definition azure_doc := list (string * value).

Record search_index := {
  si_name : string;
  si_fields : list string;
  si_docs : list azure_doc
}.

Inductive az_event :=
| AzListIndexNames
| AzCreateIndex (name : string)
| AzGetDocument (index key : string)
| AzGetDocumentCount (index : string)
| AzSearch (index : string) (top : nat)
| AzMergeOrUpload (index : string) (docs : list azure_doc).

Record AzureBackend := {
  az_indexes : list search_index;
  az_changes : list row_change;       (* documents inserted or merged, newest first *)
  az_faults : list bool;              (* per call: does the service fail? *)
  az_log : list az_event              (* calls, newest first *)
}.

Inductive az_res (A : Type) :=
| AzOk (a : A)
| AzErr (e : azure_error).
Arguments AzOk {A} a.
Arguments AzErr {A} e.

Definition MAX_UPLOAD_BATCH_SIZE : nat := 1000.

Definition az_with_indexes (l : list search_index) (b : AzureBackend) : AzureBackend :=
  {| az_indexes := l; az_changes := az_changes b; az_faults := az_faults b; az_log := az_log b |}.

Definition az_with_changes (c : list row_change) (b : AzureBackend) : AzureBackend :=
  {| az_indexes := az_indexes b; az_changes := c; az_faults := az_faults b; az_log := az_log b |}.

Definition az_with_faults (f : list bool) (b : AzureBackend) : AzureBackend :=
  {| az_indexes := az_indexes b; az_changes := az_changes b; az_faults := f; az_log := az_log b |}.

(** Every call is logged and may fail on the service side. *)
Definition az_call (ev : az_event) (b : AzureBackend) : bool * AzureBackend :=
  match az_faults b with
  | [] => (false, {| az_indexes := az_indexes b; az_changes := az_changes b;
                     az_faults := []; az_log := ev :: az_log b |})
  | f :: fs => (f, {| az_indexes := az_indexes b; az_changes := az_changes b;
                      az_faults := fs; az_log := ev :: az_log b |})
  end.

Fixpoint find_index (name : string) (l : list search_index) : option search_index :=
  match l with
  | [] => None
  | ix :: l' => if String.eqb (si_name ix) name then Some ix else find_index name l'
  end.

Fixpoint put_index (ix : search_index) (l : list search_index) : list search_index :=
  match l with
  | [] => [ix]
  | ix' :: l' =>
      if String.eqb (si_name ix') (si_name ix) then ix :: l' else ix' :: put_index ix l'
  end.

(** The key of a stored document. *)
Definition key_of (d : azure_doc) : option string :=
  match dict_get "id" d with
  | Some (VStr s) => Some s
  | _ => None
  end.

Fixpoint find_doc (key : string) (docs : list azure_doc) : option azure_doc :=
  match docs with
  | [] => None
  | d :: docs' =>
      match key_of d with
      | Some k => if String.eqb k key then Some d else find_doc key docs'
      | None => find_doc key docs'
      end
  end.

Definition list_index_names (b : AzureBackend) : az_res (list string) * AzureBackend :=
  let (fault, b1) := az_call AzListIndexNames b in
  if fault then (AzErr HttpResponseError, b1)
  else (AzOk (map si_name (az_indexes b1)), b1).

Definition create_index (name : string) (fields : list string) (b : AzureBackend)
  : az_res unit * AzureBackend :=
  let (fault, b1) := az_call (AzCreateIndex name) b in
  if fault then (AzErr HttpResponseError, b1)
  else
    match find_index name (az_indexes b1) with
    | Some _ => (AzErr HttpResponseError, b1)
    | None =>
        (AzOk tt,
         az_with_indexes (az_indexes b1 ++ [{| si_name := name; si_fields := fields;
                                               si_docs := [] |}]) b1)
    end.

Definition get_document (index key : string) (b : AzureBackend)
  : az_res azure_doc * AzureBackend :=
  let (fault, b1) := az_call (AzGetDocument index key) b in
  if fault then (AzErr HttpResponseError, b1)
  else
    match find_index index (az_indexes b1) with
    | None => (AzErr ResourceNotFoundError, b1)
    | Some ix =>
        match find_doc key (si_docs ix) with
        | Some d => (AzOk d, b1)
        | None => (AzErr ResourceNotFoundError, b1)
        end
    end.

Definition get_document_count (index : string) (b : AzureBackend)
  : az_res nat * AzureBackend :=
  let (fault, b1) := az_call (AzGetDocumentCount index) b in
  if fault then (AzErr HttpResponseError, b1)
  else
    match find_index index (az_indexes b1) with
    | None => (AzErr ResourceNotFoundError, b1)
    | Some ix => (AzOk (List.length (si_docs ix)), b1)
    end.

(** [search(search_text="*", top=n)]: the first [n] documents. *)
Definition search_all (index : string) (top : nat) (b : AzureBackend)
  : az_res (list azure_doc) * AzureBackend :=
  let (fault, b1) := az_call (AzSearch index top) b in
  if fault then (AzErr HttpResponseError, b1)
  else
    match find_index index (az_indexes b1) with
    | None => (AzErr ResourceNotFoundError, b1)
    | Some ix => (AzOk (firstn top (si_docs ix)), b1)
    end.

(** The action mergeOrUpload on one document: when a document with the key
    exists, the fields given replace the stored ones and the stored fields
    that are not given stay; otherwise the document is added. *)
Fixpoint merge_or_upload_one (key : string) (d : azure_doc) (docs : list azure_doc)
  : list azure_doc * bool :=
  match docs with
  | [] => ([d], false)
  | old :: docs' =>
      match key_of old with
      | Some k =>
          if String.eqb k key then (dict_update old d :: docs', true)
          else let (r, merged) := merge_or_upload_one key d docs' in (old :: r, merged)
      | None => let (r, merged) := merge_or_upload_one key d docs' in (old :: r, merged)
      end
  end.

Fixpoint apply_batch (batch : list azure_doc) (docs : list azure_doc)
  (changes : list row_change) : list azure_doc * list row_change :=
  match batch with
  | [] => (docs, changes)
  | d :: batch' =>
      match key_of d with
      | None => apply_batch batch' docs changes
      | Some k =>
          let (docs1, merged) := merge_or_upload_one k d docs in
          apply_batch batch' docs1
            ((if merged then Overwritten k else Inserted k) :: changes)
      end
  end.

(** The service answers a request that it accepts with one result per
    action.  An action can fail on its own (the service is busy, the index
    is unavailable for a moment, a version conflicts): the next entries of
    [az_faults], one per action, say which do.  [take_outcomes] gives the
    flags [succeeded] of the results and the entries that are left. *)
Fixpoint take_outcomes (batch : list azure_doc) (faults : list bool)
  : list bool * list bool :=
  match batch with
  | [] => ([], faults)
  | _ :: batch' =>
      match faults with
      | [] => let (r, f) := take_outcomes batch' [] in (true :: r, f)
      | failed :: faults' =>
          let (r, f) := take_outcomes batch' faults' in (negb failed :: r, f)
      end
  end.

(** The documents of the actions that succeeded. *)
Fixpoint succeeded_docs (batch : list azure_doc) (results : list bool) : list azure_doc :=
  match batch, results with
  | d :: batch', ok :: results' =>
      if ok then d :: succeeded_docs batch' results' else succeeded_docs batch' results'
  | _, _ => []
  end.

(** A request is accepted when it holds at most 1000 actions and every
    document has a string key and only fields of the index. *)
Definition acceptable (ix : search_index) (batch : list azure_doc) : bool :=
  (List.length batch <=? MAX_UPLOAD_BATCH_SIZE)%nat
  && forallb (fun d => match key_of d with Some _ => true | None => false end
                       && forallb (fun kv => existsb (String.eqb (fst kv)) (si_fields ix)) d)
             batch.

(** [SearchClient.merge_or_upload_documents]: the call returns the results
    of the actions; the actions that failed are not applied, and the call
    does not raise for them. *)
Definition merge_or_upload_documents (index : string) (batch : list azure_doc)
  (b : AzureBackend) : az_res (list bool) * AzureBackend :=
  let (fault, b1) := az_call (AzMergeOrUpload index batch) b in
  if fault then (AzErr HttpResponseError, b1)
  else
    match find_index index (az_indexes b1) with
    | None => (AzErr ResourceNotFoundError, b1)
    | Some ix =>
        if acceptable ix batch then
          let (results, faults) := take_outcomes batch (az_faults b1) in
          let (docs, changes) :=
            apply_batch (succeeded_docs batch results) (si_docs ix) (az_changes b1) in
          (AzOk results,
           az_with_faults faults
             (az_with_changes changes
                (az_with_indexes
                   (put_index {| si_name := si_name ix; si_fields := si_fields ix;
                                 si_docs := docs |} (az_indexes b1)) b1)))
        else (AzErr HttpResponseError, b1)
    end.

End AzureService.
Export AzureService.

(** ** The Azure AI Search document store *)

Module AzureAISearch.

Local Open Scope py_scope.

(** The Python types a metadata field can be declared with. *)
Inductive pytype := T_str | T_bool | T_int | T_float | T_other.

Definition type_mapping (t : pytype) : option string :=
  match t with
  | T_str => Some "Edm.String"
  | T_bool => Some "Edm.Boolean"
  | T_int => Some "Edm.Int32"
  | T_float => Some "Edm.Double"
  | T_other => None
  end.

Record AzureAISearchDocumentStore := {
  _client : option string;                 (* the index the search client is bound to *)
  _index_client : bool;                    (* has the index client been created? *)
  _index_fields : option (list string);
  _api_key : string;
  _azure_endpoint : string;
  _index_name : string;
  _embedding_dimension : Z;
  _metadata_fields : option (list (string * pytype));
  _create_index : bool;
  _dummy_vector : option (list float)      (* [None]: the attribute is not set *)
}.

Definition Method (A : Type) := M AzureAISearchDocumentStore AzureBackend A.

Definition __init__ (api_key azure_endpoint : string) (index_name : string)
  (embedding_dimension : Z) (metadata_fields : option (list (string * pytype)))
  (create_index : bool) : result AzureAISearchDocumentStore :=
  if String.eqb azure_endpoint "" then Raise ValueError
  else if String.eqb api_key "" then Raise ValueError
  else Ok {| _client := None; _index_client := false; _index_fields := None;
             _api_key := api_key; _azure_endpoint := azure_endpoint;
             _index_name := index_name; _embedding_dimension := embedding_dimension;
             _metadata_fields := metadata_fields; _create_index := create_index;
             _dummy_vector := None |}.

Definition set_client (c : option string) (s : AzureAISearchDocumentStore) :=
  {| _client := c; _index_client := _index_client s; _index_fields := _index_fields s;
     _api_key := _api_key s; _azure_endpoint := _azure_endpoint s;
     _index_name := _index_name s; _embedding_dimension := _embedding_dimension s;
     _metadata_fields := _metadata_fields s; _create_index := _create_index s;
     _dummy_vector := _dummy_vector s |}.

Definition set_index_client (c : bool) (s : AzureAISearchDocumentStore) :=
  {| _client := _client s; _index_client := c; _index_fields := _index_fields s;
     _api_key := _api_key s; _azure_endpoint := _azure_endpoint s;
     _index_name := _index_name s; _embedding_dimension := _embedding_dimension s;
     _metadata_fields := _metadata_fields s; _create_index := _create_index s;
     _dummy_vector := _dummy_vector s |}.

Definition set_index_fields (f : option (list string)) (s : AzureAISearchDocumentStore) :=
  {| _client := _client s; _index_client := _index_client s; _index_fields := f;
     _api_key := _api_key s; _azure_endpoint := _azure_endpoint s;
     _index_name := _index_name s; _embedding_dimension := _embedding_dimension s;
     _metadata_fields := _metadata_fields s; _create_index := _create_index s;
     _dummy_vector := _dummy_vector s |}.

Definition set_dummy_vector (v : option (list float)) (s : AzureAISearchDocumentStore) :=
  {| _client := _client s; _index_client := _index_client s; _index_fields := _index_fields s;
     _api_key := _api_key s; _azure_endpoint := _azure_endpoint s;
     _index_name := _index_name s; _embedding_dimension := _embedding_dimension s;
     _metadata_fields := _metadata_fields s; _create_index := _create_index s;
     _dummy_vector := v |}.

(** A call of the SDK: its errors are raised as they are. *)
Definition sdk {A} (call : AzureBackend -> az_res A * AzureBackend) : Method A :=
  fun w =>
    match call (db w) with
    | (AzOk a, b) => (Ok a, with_db b w)
    | (AzErr e, b) => (Raise (Azure e), with_db b w)
    end.

Fixpoint _map_metadata_field_types_from (metadata_field_mapping : list (string * string))
  (metadata : list (string * pytype)) : result (list (string * string)) :=
  match metadata with
  | [] => Ok metadata_field_mapping
  | (key, value_type) :: rest =>
      match type_mapping value_type with
      | None => Raise ValueError
      | Some field_type =>
          _map_metadata_field_types_from (dict_set key field_type metadata_field_mapping) rest
      end
  end.

Definition _map_metadata_field_types (metadata : list (string * pytype))
  : result (list (string * string)) :=
  _map_metadata_field_types_from [] metadata.

Definition _create_metadata_index_fields (metadata : list (string * pytype))
  : result (list string) :=
  match _map_metadata_field_types metadata with
  | Ok m => Ok (map fst m)
  | Raise e => Raise e
  end.

Definition index_exists (index_name : string) : Method bool :=
  s <- get_self ;;
  if _index_client s && negb (String.eqb index_name "") then
    names <- sdk list_index_names ;;
    ret (existsb (String.eqb index_name) names)
  else ret false.

Definition create_index (index_name : string) : Method unit :=
  s <- get_self ;;
  let default_fields := ["id"; "content"; "embedding"] in
  let index_name := if String.eqb index_name "" then _index_name s else index_name in
  fields <- (match _metadata_fields s with
             | Some (m :: ms) =>
                 extra <- lift (_create_metadata_index_fields (m :: ms)) ;;
                 ret (default_fields ++ extra)%list
             | _ => ret default_fields
             end) ;;
  s <- get_self ;;
  set_self (set_index_fields (Some fields) s) ;;;
  sdk (AzureService.create_index index_name fields).

(** The property [client]. *)
Definition client : Method string :=
  s <- get_self ;;
  (if negb (_index_client s) then set_self (set_index_client true s) else ret tt) ;;;
  s <- get_self ;;
  exists_ <- index_exists (_index_name s) ;;
  (if negb exists_ then create_index (_index_name s) else ret tt) ;;;
  s <- get_self ;;
  set_self (set_client (Some (_index_name s)) s) ;;;
  ret (_index_name s).

Definition count_documents : Method nat :=
  c <- client ;;
  sdk (get_document_count c).

Definition value_of_floats (v : list float) : value := VList (map VFloat v).

Definition value_of_id (i : doc_id) : value :=
  match i with
  | IdStr s => VStr s
  | IdInt z => VInt z
  end.

Definition value_of_opt_str (o : option string) : value :=
  match o with Some s => VStr s | None => VNone end.

(** [asdict(document)] without the keys that [_default_index_mapping]
    removes first: ["dataframe"], ["blob"], ["sparse_embedding"] and
    ["score"]. *)
Definition asdict_kept (d : Document) : list (string * value) :=
  [("id", value_of_id (id d));
   ("content", value_of_opt_str (content d));
   ("meta", VDict (meta d));
   ("embedding", match embedding d with Some v => value_of_floats v | None => VNone end)].

Definition _default_index_mapping (document : list (string * value)) : Method azure_doc :=
  let index_document := document in
  let metadata := dict_get "meta" index_document in
  let index_document := dict_del "meta" index_document in
  match metadata with
  | Some (VDict m) =>
      let index_document := dict_update index_document m in
      match dict_get "embedding" index_document with
      | None => raise KeyError
      | Some VNone =>
          s <- get_self ;;
          let dummy := repeat (-10.0)%float (Z.to_nat (_embedding_dimension s)) in
          set_self (set_dummy_vector (Some dummy) s) ;;;
          ret (dict_set "embedding" (value_of_floats dummy) index_document)
      | Some _ => ret index_document
      end
  | _ => raise AttributeError      (* [metadata.items()] on a value that is no dict *)
  end.

Definition _convert_input_document (documents : Document) : Method azure_doc :=
  let document_dict := asdict_kept documents in
  match dict_get "id" document_dict with
  | Some (VStr _) => _default_index_mapping document_dict
  | _ => raise Exception
  end.

(** The key sent for [get_document(doc.id)]: the SDK writes the argument
    into the request path as text. *)
Definition key_text (i : doc_id) : string :=
  match i with
  | IdStr s => s
  | IdInt z => str_of_Z z
  end.

(** One turn of the loop of [write_documents]. *)
Definition write_one (policy : DuplicatePolicy) (documents_to_write : list azure_doc)
  (doc : pyobj) : Method (list azure_doc) :=
  c <- client ;;
  match doc with
  | NotADocument _ => raise AttributeError
  | ADocument d =>
      fun w =>
        match AzureService.get_document c (key_text (id d)) (db w) with
        | (AzOk _, b) =>
            match policy with
            | SKIP => ret documents_to_write (with_db b w)
            | FAIL => raise DuplicateDocumentError (with_db b w)
            | OVERWRITE =>
                (x <- _convert_input_document d ;; ret (documents_to_write ++ [x])%list)
                  (with_db b w)
            | NONE => ret documents_to_write (with_db b w)
            end
        | (AzErr ResourceNotFoundError, b) =>
            (x <- _convert_input_document d ;; ret (documents_to_write ++ [x])%list)
              (with_db b w)
        | (AzErr e, b) => raise (Azure e) (with_db b w)
        end
  end.

Fixpoint write_loop (policy : DuplicatePolicy) (documents : list pyobj)
  (documents_to_write : list azure_doc) : Method (list azure_doc) :=
  match documents with
  | [] => ret documents_to_write
  | doc :: rest =>
      acc <- write_one policy documents_to_write doc ;;
      write_loop policy rest acc
  end.

Definition write_documents (documents : list pyobj) (policy : DuplicatePolicy) : Method nat :=
  (match documents with
   | first :: _ => if negb (isinstance_Document first) then raise ValueError else ret tt
   | [] => ret tt
   end) ;;;
  documents_to_write <- write_loop policy documents [] ;;
  (match documents_to_write with
   | [] => ret tt
   | _ =>
       (* the results that the call returns are not read *)
       c <- client ;; sdk (merge_or_upload_documents c documents_to_write) ;;; ret tt
   end) ;;;
  ret (List.length documents_to_write).

Definition floats_of_value (v : value) : option (list float) :=
  match v with
  | VList l =>
      fold_right (fun x acc =>
                    match x, acc with
                    | VFloat f, Some r => Some (f :: r)
                    | _, _ => None
                    end) (Some []) l
  | _ => None
  end.

(** [azure_doc["embedding"] != self._dummy_vector] *)
Definition differs_from (v : value) (dummy : list float) : bool :=
  match floats_of_value v with
  | Some l => negb (floats_eqb l dummy)
  | None => true
  end.

Definition convert_one (azure_doc : azure_doc) : Method Document :=
  embedding <-
    (match dict_get "embedding" azure_doc with
     | None => ret None
     | Some e =>
         s <- get_self ;;
         match _dummy_vector s with
         | None => raise AttributeError
         | Some dummy => if differs_from e dummy then ret (floats_of_value e) else ret None
         end
     end) ;;
  match dict_get "id" azure_doc, dict_get "content" azure_doc with
  | Some i, Some c =>
      ret {| id := match i with VStr s => IdStr s | VInt z => IdInt z | _ => IdStr "" end;
             content := match c with VStr s => Some s | _ => None end;
             dataframe := None; blob := None; meta := []; score := None;
             embedding := embedding; sparse_embedding := None |}
  | _, _ => raise KeyError
  end.

Definition _convert_search_result_to_documents (azure_docs : list azure_doc)
  : Method (list Document) :=
  map_m convert_one azure_docs.

(** The filters are not used. *)
Definition filter_documents (filters : value) : Method (list Document) :=
  c <- client ;;
  top <- count_documents ;;
  azure_docs <- sdk (search_all c top) ;;
  _convert_search_result_to_documents azure_docs.

(** *** Reading and deleting by id *)

Definition NOT_FOUND_WARNING (doc_id : string) : string :=
  "Document with ID " ++ doc_id ++ " not found.".

(** One turn of the loop of [get_documents]: the property [client] and the
    call of the SDK are both inside the [try]. *)
Definition get_one (documents : list azure_doc) (doc_id : string) : Method (list azure_doc) :=
  fun w =>
    match (c <- client ;; sdk (AzureService.get_document c doc_id)) w with
    | (Ok document, w1) => (Ok (documents ++ [document])%list, w1)
    | (Raise (Azure ResourceNotFoundError), w1) =>
        (logger_warning (NOT_FOUND_WARNING doc_id) ;;; ret documents) w1
    | (Raise e, w1) => (Raise e, w1)
    end.

Fixpoint get_loop (document_ids : list string) (documents : list azure_doc)
  : Method (list azure_doc) :=
  match document_ids with
  | [] => ret documents
  | doc_id :: rest => acc <- get_one documents doc_id ;; get_loop rest acc
  end.

Definition get_documents (document_ids : list string) : Method (list azure_doc) :=
  get_loop document_ids [].

Section Delete.

(** [SearchClient.delete_documents]: the request that deletes the documents
    it is given; what the service does with it is left open. *)
Variable sdk_delete_documents :
  string -> list azure_doc -> AzureBackend -> az_res unit * AzureBackend.

(** The guard [self.count_documents == 0] compares the bound method with
    0: it is false whatever the index holds, and the method goes on. *)
Definition delete_documents (document_ids : list string) : Method unit :=
  documents <- get_documents document_ids ;;
  match documents with
  | [] => ret tt
  | _ => c <- client ;; sdk (sdk_delete_documents c documents)
  end.

End Delete.

End AzureAISearch.

(** ** Concrete environments and worlds for running the stores *)

Module Examples.

(** The exact rational value of a finite float. *)
Definition float_to_Q (f : float) : Q :=
  match Prim2SF f with
  | S754_finite s m e =>
      let v := (if (0 <=? e)%Z then inject_Z (Zpos m * 2 ^ e)
                else (Zpos m # (Z.to_pos (2 ^ (- e)))))%Z in
      if s then Qopp v else v
  | _ => 0
  end.

Fixpoint dot (v q : list float) : Q :=
  match v, q with
  | x :: v', y :: q' => Qred (float_to_Q x * float_to_Q y + dot v' q')
  | _, _ => 0
  end.

Fixpoint sq_dist (v q : list float) : Q :=
  match v, q with
  | x :: v', y :: q' =>
      let d := (float_to_Q x - float_to_Q y)%Q in Qred (d * d + sq_dist v' q')
  | _, _ => 0
  end.

Definition show_float (f : float) : string :=
  let q := Qred (float_to_Q f) in
  match Qden q with
  | 1%positive => str_of_Z (Qnum q) ++ ".0"
  | d => str_of_Z (Qnum q) ++ "/" ++ str_of_Z (Zpos d)
  end.

Definition content_is (s : string) (r : pg_row) : bool :=
  match row_content r with
  | Some c => String.eqb c s
  | None => false
  end.

(** A stand-in for the absent filter compiler: it knows the comparison of
    [content] with a string and rejects everything else. *)
Definition compile_filter (filters : value) (operator : string) : result where_clause :=
  match filters with
  | VDict d =>
      match dict_get "field" d, dict_get "operator" d, dict_get "value" d with
      | Some (VStr "content"), Some (VStr "=="), Some (VStr s) =>
          Ok {| w_sql := [SQL (" " ++ operator ++ " content = %s")];
                w_params := [VStr s];
                w_holds := content_is s |}
      | _, _, _ => Raise ValueError
      end
  | _ => Raise ValueError
  end.

(** Rational stand-ins for the operators of the extension: squared
    Euclidean distance for [<->], the negated dot product for [<#>], and
    one minus the dot product for [<=>] (the cosine distance of unit
    vectors); the text rank is 1 when the content is the query. *)
#[export] Instance example_env : Env := {|
  convert_filters := compile_filter;
  float_str := show_float;
  cosine_distance := fun v q => (1 - dot v q)%Q;
  neg_inner_product := fun v q => Qopp (dot v q);
  l2_distance := sq_dist;
  ts_rank_cd := fun _ c q => if String.eqb c q then Some 1%Q else None
|}.

Definition doc (i : doc_id) (c : option string) (m : list (string * value))
  (e : option (list float)) : Document :=
  {| id := i; content := c; dataframe := None; blob := None; meta := m; score := None;
     embedding := e; sparse_embedding := None |}.

Definition row (i : string) (c : option string) (m : list (string * value))
  (e : option (list float)) : pg_row :=
  {| row_id := i; row_embedding := e; row_content := c; row_dataframe := None;
     row_blob_data := None; row_blob_meta := None; row_blob_mime_type := None;
     row_meta := m |}.

Definition pg_store (strategy : string) (f : string) : Pgvector.PgvectorDocumentStore :=
  {| Pgvector.connection_string := Some "postgresql://localhost/db";
     Pgvector.schema_name := "public"; Pgvector.table_name := "haystack_documents";
     Pgvector.language := "english"; Pgvector.embedding_dimension := 2;
     Pgvector.vector_function := f; Pgvector.recreate_table := false;
     Pgvector.search_strategy := strategy;
     Pgvector.hnsw_recreate_index_if_exists := false;
     Pgvector.hnsw_index_creation_kwargs := [("m", 16%Z)];
     Pgvector.hnsw_index_name := "haystack_hnsw_index";
     Pgvector.hnsw_ef_search := None;
     Pgvector.keyword_index_name := "haystack_keyword_index";
     Pgvector._connection := None; Pgvector._schema_is_initialized := false |}.

(** The same store, created with [recreate_table=True]. *)
Definition recreating (s : Pgvector.PgvectorDocumentStore) : Pgvector.PgvectorDocumentStore :=
  {| Pgvector.connection_string := Pgvector.connection_string s;
     Pgvector.schema_name := Pgvector.schema_name s;
     Pgvector.table_name := Pgvector.table_name s;
     Pgvector.language := Pgvector.language s;
     Pgvector.embedding_dimension := Pgvector.embedding_dimension s;
     Pgvector.vector_function := Pgvector.vector_function s;
     Pgvector.recreate_table := true;
     Pgvector.search_strategy := Pgvector.search_strategy s;
     Pgvector.hnsw_recreate_index_if_exists := Pgvector.hnsw_recreate_index_if_exists s;
     Pgvector.hnsw_index_creation_kwargs := Pgvector.hnsw_index_creation_kwargs s;
     Pgvector.hnsw_index_name := Pgvector.hnsw_index_name s;
     Pgvector.hnsw_ef_search := Pgvector.hnsw_ef_search s;
     Pgvector.keyword_index_name := Pgvector.keyword_index_name s;
     Pgvector._connection := Pgvector._connection s;
     Pgvector._schema_is_initialized := Pgvector._schema_is_initialized s |}.

Definition pg_backend (rows : list pg_row) (indexes : list pg_index) (faults : list bool)
  : PgBackend :=
  {| pg_table_ := Some {| tbl_dim := 2; tbl_rows := rows |}; pg_indexes := indexes;
     pg_ef_search := None; pg_changes := []; pg_faults := faults; pg_log := [] |}.

Definition pg_world (s : Pgvector.PgvectorDocumentStore) (b : PgBackend)
  : World Pgvector.PgvectorDocumentStore PgBackend :=
  {| self := s; db := b; warnings := [] |}.

Definition az_store (fields : option (list (string * AzureAISearch.pytype)))
  (dummy : option (list float)) : AzureAISearch.AzureAISearchDocumentStore :=
  {| AzureAISearch._client := None; AzureAISearch._index_client := false;
     AzureAISearch._index_fields := None; AzureAISearch._api_key := "key";
     AzureAISearch._azure_endpoint := "https://example.search.windows.net";
     AzureAISearch._index_name := "default"; AzureAISearch._embedding_dimension := 2;
     AzureAISearch._metadata_fields := fields; AzureAISearch._create_index := true;
     AzureAISearch._dummy_vector := dummy |}.

Definition az_backend (fields : list string) (docs : list azure_doc) (faults : list bool)
  : AzureBackend :=
  {| az_indexes := [{| si_name := "default"; si_fields := fields; si_docs := docs |}];
     az_changes := []; az_faults := faults; az_log := [] |}.

Definition az_world (s : AzureAISearch.AzureAISearchDocumentStore) (b : AzureBackend)
  : World AzureAISearch.AzureAISearchDocumentStore AzureBackend :=
  {| self := s; db := b; warnings := [] |}.

End Examples.

(** ** Vocabulary of the statements proved below *)

Module Vocabulary.

Abbreviation PgWorld := (World Pgvector.PgvectorDocumentStore PgBackend).
Abbreviation AzWorld := (World AzureAISearch.AzureAISearchDocumentStore AzureBackend).

(** A world in which the store holds a connection and the schema flag is
    set: the property [connection] then returns at once. *)
Definition stable (w : PgWorld) : Prop :=
  (exists c, Pgvector._connection (self w) = Some c)
  /\ Pgvector._schema_is_initialized (self w) = true.

(** Methods that, run in a stable world, leave the instance alone and move
    the server along a relation [Rdb]. *)
Definition keeps (Rdb : PgBackend -> PgBackend -> Prop) {A} (m : Pgvector.Method A) : Prop :=
  forall w, stable w -> self (snd (m w)) = self w /\ Rdb (db w) (db (snd (m w))).

Definition is_insert (s : stmt) : bool :=
  match s with Insert _ _ => true | _ => false end.

Definition same_changes (b b' : PgBackend) : Prop := pg_changes b' = pg_changes b.

Definition any_db (b b' : PgBackend) : Prop := True.

(** The documents held by the search service, over all its indexes. *)
Definition all_docs (b : AzureBackend) : list azure_doc :=
  flat_map si_docs (az_indexes b).

(** The service after calls that write no document: the same documents,
    the same record of changes, and every index that existed is as it was. *)
Definition az_frame (b b' : AzureBackend) : Prop :=
  az_changes b' = az_changes b
  /\ all_docs b' = all_docs b
  /\ forall name ix, find_index name (az_indexes b) = Some ix ->
                     find_index name (az_indexes b') = Some ix.

Definition az_keeps_at {A} (w : AzWorld) (m : AzureAISearch.Method A) : Prop :=
  az_frame (db w) (db (snd (m w)))
  /\ AzureAISearch._index_name (self (snd (m w))) = AzureAISearch._index_name (self w).

Definition az_keeps {A} (m : AzureAISearch.Method A) : Prop :=
  forall w, az_keeps_at w m.

Definition has_key (d : azure_doc) : bool :=
  match key_of d with Some _ => true | None => false end.

(** The number of actions that the service reports as succeeded. *)
Definition succeeded (results : list bool) : nat :=
  List.length (List.filter (fun ok : bool => ok) results).

(** The number of actions that the service reports as failed. *)
Definition failed (results : list bool) : nat :=
  List.length (List.filter negb results).

(** A document whose row the table accepts: an id of at most 128
    characters and an embedding, if any, of the dimension of the table. *)
Definition fits (dim : Z) (d : db_document) : Prop := exists r, to_row dim d = PgOk r.

(** The pgvector store treats an unspecified policy as FAIL. *)
Definition fail_policy (policy : DuplicatePolicy) : Prop := policy = FAIL \/ policy = NONE.

(** The index named by the store exists, with these fields and documents. *)
Definition index_holds (ix : search_index) (w : AzWorld) : Prop :=
  find_index (AzureAISearch._index_name (self w)) (az_indexes (db w)) = Some ix.

Definition raises {A} (m : AzureAISearch.Method A) (w : AzWorld) : Prop :=
  exists e w', m w = (Raise e, w').

(** The metric in force for a vector search: the one given with the call,
    or else the one of the store. *)
Definition effective_vector_function (s : Pgvector.PgvectorDocumentStore)
  (vector_function : option string) : string :=
  match Pgvector.nonempty vector_function with
  | Some f => f
  | None => Pgvector.vector_function s
  end.

(** The number of builds of an HNSW index among the round trips. *)
Definition is_hnsw_build (ev : pg_event) : bool :=
  match ev with
  | EvExecute _ _ (CreateIndex _ _ (Hnsw _ _)) => true
  | _ => false
  end.

Definition builds (log : list pg_event) : nat := List.length (List.filter is_hnsw_build log).

(** A world of the store [s] in which the server answers every round
    trip. *)
Definition calm (s : Pgvector.PgvectorDocumentStore) (w : PgWorld) : Prop :=
  self w = s /\ pg_faults (db w) = [].

Definition is_inserted (c : row_change) : bool :=
  match c with Inserted _ => true | Overwritten _ => false end.

Definition is_overwritten (c : row_change) : bool :=
  match c with Overwritten _ => true | Inserted _ => false end.

(** The numbers of documents inserted and overwritten among the changes. *)
Definition inserted (l : list row_change) : nat := List.length (List.filter is_inserted l).
Definition overwritten (l : list row_change) : nat :=
  List.length (List.filter is_overwritten l).

(** The server after round trips that write nothing: the same table, the
    same indexes and the same record of changes. *)
Definition same_store (b b' : PgBackend) : Prop :=
  pg_table_ b' = pg_table_ b /\ pg_indexes b' = pg_indexes b
  /\ pg_changes b' = pg_changes b.

Definition same_table (b b' : PgBackend) : Prop := pg_table_ b' = pg_table_ b.

(** Statements that only read. *)
Definition is_query (s : stmt) : bool :=
  match s with
  | CreateExtension | SelectIndexExists _ _ | SelectAll _ | SelectKeyword _ _ _ _
  | SelectScored _ _ _ _ _ => true
  | _ => false
  end.

(** Statements on indexes and session settings, and queries. *)
Definition keeps_rows (s : stmt) : bool :=
  match s with
  | CreateTableIfNotExists _ | DropTableIfExists _ | Insert _ _ | DeleteIdIn _ => false
  | _ => true
  end.

(** The record that a query without a score column returns for a row. *)
Definition plain_record (r : pg_row) : record := {| rec_row := r; rec_score := None |}.

(** The row that the table keeps for a document. *)
Definition row_of (dim : Z) (d : Document) : pg_res pg_row :=
  to_row dim (Pgvector.to_db_document d).

(** The table as a call through the connected-method wrapper finds it.
    On an instance whose schema flag is set, that is the table of the
    server.  On first use the wrapper initialises the schema before it runs
    the method: with [recreate_table] the table is dropped, and a missing
    table is created, empty. *)
Definition table_found (w : PgWorld) : option pg_table :=
  if Pgvector._schema_is_initialized (self w) then pg_table_ (db w)
  else Some (match (if Pgvector.recreate_table (self w) then None else pg_table_ (db w))
             with
             | Some t => t
             | None => {| tbl_dim := Pgvector.embedding_dimension (self w);
                          tbl_rows := [] |}
             end).

(** The world after the [finally] of the wrapper: the connection that the
    instance held before the call is put back. *)
Definition put_back (old : option nat) (w : PgWorld) : PgWorld :=
  {| self := Pgvector.set_connection old (self w); db := db w; warnings := warnings w |}.

(** The batch statement of a write, sent to the server in the state [b]. *)
Definition batch_statement `{Env} (s : Pgvector.PgvectorDocumentStore)
  (policy : DuplicatePolicy) (docs : list Document) (b : PgBackend)
  : pg_res (list result_set) * PgBackend :=
  let policy := if policy_eqb policy NONE then FAIL else policy in
  Postgres.executemany (as_string (Pgvector.insert_sql s policy))
    (Pgvector.conflict_clause_of policy) (map Pgvector.to_db_document docs) b.

(** What a write does once it has turned the batch into its statement:
    the rows that came back are counted; an integrity violation becomes
    [DuplicateDocumentError], any other error of the statement
    [DocumentStoreError]; without a result set, reading the cursor fails. *)
Definition batch_outcome (r : pg_res (list result_set) * PgBackend)
  (s : Pgvector.PgvectorDocumentStore) (ws : list string) : result nat * PgWorld :=
  match r with
  | (PgOk l, b) =>
      (match l with
       | [] => Raise (Psycopg ProgrammingError)
       | _ => Ok (Pgvector.count_rows l)
       end, {| self := s; db := b; warnings := ws |})
  | (PgErr IntegrityError, b) =>
      (Raise DuplicateDocumentError, {| self := s; db := b; warnings := ws |})
  | (PgErr _, b) =>
      (Raise DocumentStoreError, {| self := s; db := b; warnings := ws |})
  end.

(** The record that the similarity query computes for a row. *)
Definition scored_record `{Env} (e : score_expr) (q : list float) (r : pg_row) : record :=
  {| rec_row := r; rec_score := Some (eval_score e q r) |}.

(** A row that the filter of a search lets through: no filter is given,
    or the filter compiles to a condition that the row satisfies. *)
Definition passes `{Env} (filters : value) (r : pg_row) : Prop :=
  truthy filters = false
  \/ exists c, convert_filters filters "WHERE" = Ok c /\ w_holds c r = true.

(** Statements that leave a table that exists in its place, with its rows. *)
Definition keeps_table (s : stmt) : bool :=
  match s with
  | DropTableIfExists _ | Insert _ _ | DeleteIdIn _ => false
  | _ => true
  end.

(** A table that exists is still there, with the same rows. *)
Definition table_stays (b b' : PgBackend) : Prop :=
  forall t, pg_table_ b = Some t -> pg_table_ b' = Some t.

(** A server that answered every round trip goes on doing so. *)
Definition stays_calm (b b' : PgBackend) : Prop := pg_faults b = [] -> pg_faults b' = [].

(** The documents of an index that are stored under one of the ids, in the
    order of the ids. *)
Definition found (docs : list azure_doc) (ids : list string) : list azure_doc :=
  flat_map (fun i => match find_doc i docs with Some d => [d] | None => [] end) ids.

Definition missing (docs : list azure_doc) (ids : list string) : list string :=
  List.filter (fun i => match find_doc i docs with Some _ => false | None => true end) ids.

End Vocabulary.
Export Vocabulary.

(** * Properties *)

(** ** Running the monad *)

Section MonadFacts.
Context {S B : Type}.

Lemma bind_inv {A C} (c : M S B A) (k : A -> M S B C) w r w' :
  bind c k w = (r, w') ->
  (exists a w1, c w = (Ok a, w1) /\ k a w1 = (r, w'))
  \/ (exists e, c w = (Raise e, w') /\ r = Raise e).
Proof.
  unfold bind. destruct (c w) as [[a|e] w1]; intros H.
  - left. eauto.
  - right. inversion H; subst. eauto.
Qed.

Lemma bind_ok {A C} (c : M S B A) (k : A -> M S B C) w a w1 :
  c w = (Ok a, w1) -> bind c k w = k a w1.
Proof. intros H. unfold bind. rewrite H. reflexivity. Qed.

Lemma bind_raise {A C} (c : M S B A) (k : A -> M S B C) w e w1 :
  c w = (Raise e, w1) -> bind c k w = (Raise e, w1).
Proof. intros H. unfold bind. rewrite H. reflexivity. Qed.

Lemma try_finally_inv {A} (c : M S B A) (f : M S B unit) w r w' :
  try_finally c f w = (r, w') ->
  exists r1 w1 r2, c w = (r1, w1) /\ f w1 = (r2, w')
    /\ (match r2 with Ok _ => r = r1 | Raise e => r = Raise e end).
Proof.
  unfold try_finally. destruct (c w) as [r1 w1]. destruct (f w1) as [[u|e] w2] eqn:Hf;
    intros H; inversion H; subst; do 3 eexists; repeat split; eauto; reflexivity.
Qed.

(** A property of the world that every step of a method keeps. *)
Definition always {A} (P : World S B -> World S B -> Prop) (m : M S B A) : Prop :=
  forall w, P w (snd (m w)).

End MonadFacts.

(** ** Facts about strings *)

Lemma append_inj_l (p a b : string) : (p ++ a = p ++ b)%string -> a = b.
Proof.
  induction p as [|c p IH]; simpl; intros H; [exact H|].
  inversion H. auto.
Qed.

Lemma as_string_app (p q : Composed) :
  as_string (p ++ q)%list = (as_string p ++ as_string q)%string.
Proof.
  induction p as [|c p IH]; simpl; [reflexivity|].
  rewrite IH. clear IH. generalize (part_as_string c) as s. intros s.
  induction s as [|x s IHs]; simpl; [reflexivity|]. rewrite IHs. reflexivity.
Qed.

(** ** The pgvector store: connections and schema initialisation *)

Section PgvectorFacts.
Context `{Env}.
Import Pgvector.
Local Open Scope py_scope.

Lemma connection_with_stable (init : Method unit) (w : PgWorld) :
  stable w -> exists c, connection_with init w = (Ok c, w).
Proof.
  intros [[c Hc] Hf]. exists c. destruct w as [s b ws]. simpl in *.
  unfold connection_with, bind, get_self, ret. simpl. rewrite Hc. simpl.
  rewrite Hf. simpl. rewrite Hc. reflexivity.
Qed.

Lemma stable_self (w w' : PgWorld) : self w' = self w -> stable w -> stable w'.
Proof. unfold stable. intros ->. auto. Qed.

Section Keeps.
Variable Rdb : PgBackend -> PgBackend -> Prop.
Hypothesis Rdb_refl : forall b, Rdb b b.
Hypothesis Rdb_trans : forall a b c, Rdb a b -> Rdb b c -> Rdb a c.

Lemma keeps_ret {A} (a : A) : keeps Rdb (ret a).
Proof. intros w _. simpl. auto. Qed.

Lemma keeps_raise {A} (e : exn) : keeps Rdb (@raise _ _ A e).
Proof. intros w _. simpl. auto. Qed.

Lemma keeps_lift {A} (r : result A) : keeps Rdb (lift r).
Proof. intros w _. simpl. auto. Qed.

Lemma keeps_get_self : keeps Rdb get_self.
Proof. intros w _. simpl. auto. Qed.

Lemma keeps_warning (msg : string) : keeps Rdb (logger_warning msg).
Proof. intros w _. simpl. auto. Qed.

Lemma keeps_bind {A C} (c : Method A) (k : A -> Method C) :
  keeps Rdb c -> (forall a, keeps Rdb (k a)) -> keeps Rdb (bind c k).
Proof.
  intros Hc Hk w Hw. unfold bind. specialize (Hc w Hw).
  destruct (c w) as [[a|e] w1]; simpl in *; [|exact Hc].
  destruct Hc as [Hs Hd].
  destruct (Hk a w1 (stable_self _ _ Hs Hw)) as [Hs' Hd'].
  split; [congruence | eauto].
Qed.

Lemma keeps_connection_with (init : Method unit) : keeps Rdb (connection_with init).
Proof.
  intros w Hw. destruct (connection_with_stable init w Hw) as [c ->]. simpl. auto.
Qed.

Lemma keeps_map_m {A C} (f : A -> Method C) (l : list A) :
  (forall a, keeps Rdb (f a)) -> keeps Rdb (map_m f l).
Proof.
  intros Hf. induction l as [|x l IH]; simpl.
  - apply keeps_ret.
  - apply keeps_bind; [apply Hf|]. intros y.
    apply keeps_bind; [exact IH|]. intros ys. apply keeps_ret.
Qed.

Lemma keeps_Cursor_execute (q : Composed) (p : params) (s : stmt) :
  (forall text b, Rdb b (snd (Postgres.execute text p s b))) ->
  keeps Rdb (Cursor_execute q p s).
Proof.
  intros Hs w _. unfold Cursor_execute, set_db_result.
  specialize (Hs (as_string q) (db w)).
  destruct (Postgres.execute (as_string q) p s (db w)) as [[rs|e] b]; simpl in *; auto.
Qed.

End Keeps.

(** Statements other than INSERT do not change rows. *)
Lemma next_fault_changes (b : PgBackend) : pg_changes (snd (next_fault b)) = pg_changes b.
Proof. unfold next_fault. destruct (pg_faults b); reflexivity. Qed.

Lemma next_fault_table (b : PgBackend) : pg_table_ (snd (next_fault b)) = pg_table_ b.
Proof. unfold next_fault. destruct (pg_faults b); reflexivity. Qed.

Lemma next_fault_indexes (b : PgBackend) : pg_indexes (snd (next_fault b)) = pg_indexes b.
Proof. unfold next_fault. destruct (pg_faults b); reflexivity. Qed.

Lemma exec_changes (s : stmt) (b : PgBackend) :
  is_insert s = false -> pg_changes (snd (exec s b)) = pg_changes b.
Proof.
  destruct s; simpl; try discriminate; intros _;
    repeat match goal with
           | |- context [match ?x with _ => _ end] => destruct x; simpl
           end; reflexivity.
Qed.

Lemma execute_changes (text : string) (p : params) (s : stmt) (b : PgBackend) :
  is_insert s = false -> same_changes b (snd (Postgres.execute text p s b)).
Proof.
  intros Hs. unfold same_changes, Postgres.execute, round_trip.
  destruct (next_fault _) as [f b1] eqn:Hf.
  assert (Hb1 : pg_changes b1 = pg_changes b).
  { change b1 with (snd (f, b1)). rewrite <- Hf. rewrite next_fault_changes. reflexivity. }
  destruct f; simpl; [exact Hb1|]. rewrite exec_changes by exact Hs. exact Hb1.
Qed.

Lemma same_changes_refl (b : PgBackend) : same_changes b b.
Proof. reflexivity. Qed.

Lemma same_changes_trans (a b c : PgBackend) :
  same_changes a b -> same_changes b c -> same_changes a c.
Proof. unfold same_changes. congruence. Qed.

Lemma keeps_weaken {A} (R R' : PgBackend -> PgBackend -> Prop) (m : Method A) :
  (forall a b, R a b -> R' a b) -> keeps R m -> keeps R' m.
Proof. intros HR Hm w Hw. destruct (Hm w Hw). auto. Qed.

Ltac keeps_side :=
  try exact same_changes_refl; try exact same_changes_trans.

Ltac keeps_step :=
  first
    [ apply keeps_ret
    | apply keeps_raise
    | apply keeps_lift
    | apply keeps_get_self
    | apply keeps_warning
    | apply keeps_connection_with
    | apply keeps_Cursor_execute; intros; apply execute_changes; reflexivity
    | apply keeps_bind; [ | | intros ?] ]; keeps_side.

Ltac keeps_auto :=
  repeat first
    [ keeps_step
    | match goal with
      | |- keeps _ (let _ := _ in _) => cbv zeta
      | |- keeps _ (if ?c then _ else _) => destruct c
      | |- keeps _ (match ?x with _ => _ end) => destruct x
      end ].

Lemma keeps_delete_table (init : Method unit) :
  keeps same_changes (delete_table_with (connection_with init)).
Proof. unfold delete_table_with. keeps_auto. Qed.

Lemma keeps_create_hnsw_index (init : Method unit) :
  keeps same_changes (_create_hnsw_index_with (connection_with init)).
Proof. unfold _create_hnsw_index_with. keeps_auto. Qed.

Lemma keeps_handle_hnsw (init : Method unit) :
  keeps same_changes (_handle_hnsw_with (connection_with init)).
Proof.
  unfold _handle_hnsw_with. keeps_auto; apply keeps_create_hnsw_index.
Qed.

Lemma keeps_init_schema_with (init : Method unit) :
  keeps same_changes (_init_schema_with (connection_with init)).
Proof.
  unfold _init_schema_with. keeps_auto;
    first [apply keeps_delete_table | apply keeps_handle_hnsw].
Qed.

Lemma keeps_init_schema_at (depth : nat) : keeps same_changes (_init_schema_at depth).
Proof.
  destruct depth as [|d]; simpl;
    [apply keeps_raise; exact same_changes_refl | apply keeps_init_schema_with].
Qed.

Lemma keeps_init_schema : keeps same_changes _init_schema.
Proof. apply keeps_init_schema_at. Qed.

Lemma keeps_from_haystack (documents : list pyobj) :
  keeps same_changes (_from_haystack_to_pg_documents documents).
Proof.
  unfold _from_haystack_to_pg_documents. apply keeps_map_m.
  - exact same_changes_refl.
  - exact same_changes_trans.
  - intros o. keeps_auto.
Qed.

(** *** The batch INSERT *)

Lemma round_trip_insert (c : conflict_clause) (d : db_document) (b : PgBackend) rs b1 :
  round_trip (Insert c d) b = (PgOk rs, b1) ->
  exists new, pg_changes b1 = (new ++ pg_changes b)%list
              /\ List.length new = (if has_row rs then 1 else 0)%nat.
Proof.
  unfold round_trip. destruct (next_fault b) as [f b0] eqn:Hf.
  assert (Hc : pg_changes b0 = pg_changes b).
  { change b0 with (snd (f, b0)). rewrite <- Hf. apply next_fault_changes. }
  destruct f; [discriminate|]. simpl.
  destruct (pg_table_ b0) as [t|]; [|discriminate].
  destruct (to_row (tbl_dim t) d) as [r|e]; [|discriminate].
  destruct (has_id (row_id r) (tbl_rows t)).
  - destruct c; intros Hx; inversion Hx; subst; simpl.
    + exists []. simpl. auto.
    + exists [Overwritten (row_id r)]. simpl. rewrite Hc. auto.
  - intros Hx; inversion Hx; subst; simpl.
    exists [Inserted (row_id r)]. simpl. rewrite Hc. auto.
Qed.

Lemma pipeline_changes (c : conflict_clause) (ds : list db_document) :
  forall b l b1,
    pipeline c ds b = (PgOk l, b1) ->
    exists new, pg_changes b1 = (new ++ pg_changes b)%list
                /\ List.length new = count_rows l
                /\ List.length l = List.length ds.
Proof.
  induction ds as [|d ds IH]; simpl; intros b l b1 Hp.
  - inversion Hp; subst. exists []. auto.
  - destruct (round_trip (Insert c d) b) as [[rs|e] b0] eqn:Hr; [|discriminate].
    destruct (pipeline c ds b0) as [[l0|e] b2] eqn:Hp0; [|discriminate].
    inversion Hp; subst.
    destruct (round_trip_insert _ _ _ _ _ Hr) as (n1 & Hn1 & Hl1).
    destruct (IH _ _ _ Hp0) as (n2 & Hn2 & Hl2 & Hl3).
    exists (n2 ++ n1)%list. simpl. rewrite Hn2, Hn1, <- app_assoc.
    split; [reflexivity|]. rewrite length_app, Hl1, Hl2, Hl3. split; lia.
Qed.

Lemma executemany_ok (text : string) (c : conflict_clause) (ds : list db_document)
  (b : PgBackend) l b1 :
  Postgres.executemany text c ds b = (PgOk l, b1) ->
  exists new, pg_changes b1 = (new ++ pg_changes b)%list
              /\ List.length new = count_rows l
              /\ List.length l = List.length ds.
Proof.
  unfold Postgres.executemany.
  destruct (pipeline c ds _) as [[l0|e] b2] eqn:Hp; intros Hx; inversion Hx; subst.
  apply pipeline_changes in Hp. exact Hp.
Qed.

Lemma round_trip_insert_indexes (c : conflict_clause) (d : db_document) (b : PgBackend) :
  pg_indexes (snd (round_trip (Insert c d) b)) = pg_indexes b.
Proof.
  unfold round_trip. destruct (next_fault b) as [f b0] eqn:Hf.
  assert (Hc : pg_indexes b0 = pg_indexes b).
  { change b0 with (snd (f, b0)). rewrite <- Hf. apply next_fault_indexes. }
  destruct f; [exact Hc|]. simpl.
  destruct (pg_table_ b0) as [t|]; [|exact Hc].
  destruct (to_row (tbl_dim t) d) as [r|e]; [|exact Hc].
  destruct (has_id (row_id r) (tbl_rows t)); [destruct c|]; simpl; exact Hc.
Qed.

Lemma pipeline_indexes (c : conflict_clause) (ds : list db_document) :
  forall b, pg_indexes (snd (pipeline c ds b)) = pg_indexes b.
Proof.
  induction ds as [|d ds IH]; simpl; intros b; [reflexivity|].
  pose proof (round_trip_insert_indexes c d b) as Hr.
  destruct (round_trip (Insert c d) b) as [[rs|e] b0]; simpl in *; [|exact Hr].
  specialize (IH b0).
  destruct (pipeline c ds b0) as [[l|e] b1]; simpl in *; congruence.
Qed.

Lemma executemany_indexes (text : string) (c : conflict_clause) (ds : list db_document)
  (b : PgBackend) :
  pg_indexes (snd (Postgres.executemany text c ds b)) = pg_indexes b.
Proof.
  unfold Postgres.executemany.
  pose proof (pipeline_indexes c ds (with_log (EvExecuteMany text ds :: pg_log b) b)) as Hp.
  destruct (pipeline c ds _) as [[l|e] b1]; simpl in *; [exact Hp | reflexivity].
Qed.

(** A failing batch leaves the rows and the indexes as they were. *)
Lemma executemany_err (text : string) (c : conflict_clause) (ds : list db_document)
  (b : PgBackend) e b1 :
  Postgres.executemany text c ds b = (PgErr e, b1) ->
  pg_table_ b1 = pg_table_ b /\ pg_changes b1 = pg_changes b
  /\ pg_indexes b1 = pg_indexes b.
Proof.
  unfold Postgres.executemany.
  destruct (pipeline c ds _) as [[l0|e0] b2] eqn:Hp; intros Hx; inversion Hx; subst.
  simpl. auto.
Qed.

(** *** The write method under the wrapper *)

Lemma from_haystack_run (documents : list pyobj) (w : PgWorld) :
  exists r ws, _from_haystack_to_pg_documents documents w
               = (r, {| self := self w; db := db w; warnings := ws |}).
Proof.
  unfold _from_haystack_to_pg_documents. revert w.
  induction documents as [|o l IH]; intros w; simpl.
  - exists (Ok []), (warnings w). destruct w; reflexivity.
  - unfold bind at 1. destruct o as [d|v].
    + assert (Hd : exists ws, ((match sparse_embedding d with
                               | Some (_ :: _) => logger_warning SPARSE_WARNING
                               | _ => ret tt
                               end) ;;; ret (to_db_document d))%py w
                    = (Ok (to_db_document d),
                       {| self := self w; db := db w; warnings := ws |})).
      { destruct w; destruct (sparse_embedding d) as [[|? ?]|]; simpl; unfold bind; simpl;
          eexists; reflexivity. }
      destruct Hd as [ws ->].
      destruct (IH {| self := self w; db := db w; warnings := ws |}) as (r & ws' & Hr).
      simpl in Hr.
      destruct r as [l'|e];
        [rewrite (bind_ok _ _ _ _ _ Hr) | rewrite (bind_raise _ _ _ _ _ Hr)];
        simpl; eauto.
    + simpl. exists (Raise AttributeError), (warnings w). destruct w; reflexivity.
Qed.

Lemma connection_stable (w : PgWorld) :
  stable w -> exists c, connection w = (Ok c, w).
Proof. apply connection_with_stable. Qed.

Lemma connected_write_post (documents : list pyobj) (policy : DuplicatePolicy)
  (w : PgWorld) r w' :
  stable w ->
  _connected_write_documents documents policy w = (r, w') ->
  self w' = self w
  /\ pg_indexes (db w') = pg_indexes (db w)
  /\ match r with
     | Ok n => exists new, pg_changes (db w') = (new ++ pg_changes (db w))%list
                           /\ List.length new = n
     | Raise e => pg_changes (db w') = pg_changes (db w)
                  /\ pg_table_ (db w') = pg_table_ (db w)
     end.
Proof.
  intros Hw Hrun. unfold _connected_write_documents in Hrun.
  apply bind_inv in Hrun as [(u & w1 & H1 & Hrun) | (e & H1 & ->)].
  2: { destruct documents as [|[d|v] ?]; simpl in H1; inversion H1; subst; auto. }
  assert (w1 = w) by (destruct documents as [|[d|v] ?]; simpl in H1; inversion H1; auto).
  subst w1. clear H1.
  destruct (from_haystack_run documents w) as (r2 & ws & H2).
  apply bind_inv in Hrun as [(dbs & w2 & H2' & Hrun) | (e & H2' & ->)];
    rewrite H2 in H2'; inversion H2'; subst; clear H2'; simpl; auto.
  set (w2 := {| self := self w; db := db w; warnings := ws |}) in *.
  assert (Hw2 : stable w2) by (apply (stable_self w); [reflexivity | exact Hw]).
  apply bind_inv in Hrun as [(s & w3 & H3 & Hrun) | (e & H3 & ->)];
    [|discriminate H3].
  inversion H3; subst s w3; clear H3.
  destruct (connection_stable w2 Hw2) as [c Hc].
  apply bind_inv in Hrun as [(c1 & w3 & H3 & Hrun) | (e & H3 & ->)];
    rewrite Hc in H3; inversion H3; subst c1 w3; clear H3.
  apply bind_inv in Hrun as [(c1 & w3 & H3 & Hrun) | (e & H3 & ->)];
    rewrite Hc in H3; inversion H3; subst c1 w3; clear H3.
  pose proof (executemany_indexes
                (as_string (insert_sql (self w2)
                              (if policy_eqb policy NONE then FAIL else policy)))
                (conflict_clause_of (if policy_eqb policy NONE then FAIL else policy))
                dbs (db w2)) as Hi.
  apply bind_inv in Hrun as [(l & w3 & H3 & Hrun) | (e & H3 & ->)].
  - destruct (Postgres.executemany _ _ dbs (db w2)) as [[l0|e0] b] eqn:He.
    + inversion H3; subst l0 w3; clear H3. simpl in Hi.
      apply executemany_ok in He as He'. destruct He' as (new & Hn & Hl & Hlen).
      destruct l as [|rs l]; inversion Hrun; subst; simpl.
      * split; [reflexivity|]. split; [exact Hi|].
        destruct dbs; [|discriminate Hlen].
        unfold Postgres.executemany in He. simpl in He. inversion He; subst. simpl. auto.
      * split; [reflexivity|]. split; [exact Hi|]. exists new. auto.
    + exfalso.
      assert (Hst : stable (with_db b w2)) by (apply (stable_self w2); [reflexivity|exact Hw2]).
      destruct (connection_stable _ Hst) as [c2 Hc2].
      destruct e0; unfold bind in H3; rewrite Hc2 in H3; discriminate H3.
  - destruct (Postgres.executemany _ _ dbs (db w2)) as [[l0|e0] b] eqn:He;
      [discriminate H3|].
    apply executemany_err in He as (Ht & Hch & Hix).
    assert (Hst : stable (with_db b w2)) by (apply (stable_self w2); [reflexivity|exact Hw2]).
    destruct (connection_stable _ Hst) as [c2 Hc2].
    destruct e0; unfold bind in H3; rewrite Hc2 in H3; inversion H3; subst; simpl; auto.
Qed.

Lemma execute_frame (text : string) (p : params) (s : stmt) (b : PgBackend) :
  s = CreateExtension \/ (exists t i, s = SelectIndexExists t i) ->
  pg_table_ (snd (Postgres.execute text p s b)) = pg_table_ b
  /\ pg_indexes (snd (Postgres.execute text p s b)) = pg_indexes b
  /\ pg_changes (snd (Postgres.execute text p s b)) = pg_changes b.
Proof.
  intros Hs. unfold Postgres.execute, round_trip.
  destruct (next_fault _) as [f b0] eqn:Hf.
  assert (Hb : pg_table_ b0 = pg_table_ b /\ pg_indexes b0 = pg_indexes b
               /\ pg_changes b0 = pg_changes b).
  { change b0 with (snd (f, b0)). rewrite <- Hf.
    rewrite next_fault_table, next_fault_indexes, next_fault_changes. auto. }
  destruct f; [exact Hb|].
  destruct Hs as [-> | (t & i & ->)]; simpl; exact Hb.
Qed.

Lemma create_connection_run (w : PgWorld) :
  exists r b, _create_connection w = (r, with_db b w)
              /\ pg_table_ b = pg_table_ (db w)
              /\ pg_indexes b = pg_indexes (db w)
              /\ pg_changes b = pg_changes (db w).
Proof.
  unfold _create_connection, bind, set_db_result, connection_execute, set_db_result.
  unfold Postgres.connect.
  destruct (next_fault _) as [f b0] eqn:Hf.
  assert (Hb : pg_table_ b0 = pg_table_ (db w) /\ pg_indexes b0 = pg_indexes (db w)
               /\ pg_changes b0 = pg_changes (db w)).
  { change b0 with (snd (f, b0)). rewrite <- Hf.
    rewrite next_fault_table, next_fault_indexes, next_fault_changes. auto. }
  destruct f.
  - eexists _, b0. split; [reflexivity | exact Hb].
  - cbn [db with_db].
    pose proof (execute_frame (as_string [SQL "CREATE EXTENSION IF NOT EXISTS vector"])
                  NoParams CreateExtension b0 (or_introl eq_refl)) as He.
    destruct (Postgres.execute _ NoParams CreateExtension b0) as [[rs|e] b1];
      simpl in He; eexists _, b1; (split; [destruct w; reflexivity|]);
      destruct Hb as (? & ? & ?), He as (? & ? & ?); repeat split; congruence.
Qed.

Lemma restore_connection (s : PgvectorDocumentStore) (c : option nat) :
  set_connection (_connection s) (set_connection c s) = s.
Proof. destruct s; reflexivity. Qed.

Lemma restore_connection_flag (s : PgvectorDocumentStore) (c : option nat) :
  set_connection (_connection s) (set_schema_is_initialized true (set_connection c s))
  = set_schema_is_initialized true s.
Proof. destruct s; reflexivity. Qed.

Lemma restore_connection_id (s : PgvectorDocumentStore) :
  set_connection (_connection s) s = s.
Proof. destruct s; reflexivity. Qed.

Lemma flag_already_set (s : PgvectorDocumentStore) :
  _schema_is_initialized s = true -> set_schema_is_initialized true s = s.
Proof. destruct s; simpl; intros ->; reflexivity. Qed.

(** What one call of [write_documents] does to the instance and to the
    rows, whatever its outcome. *)
Lemma write_documents_post (documents : list pyobj) (policy : DuplicatePolicy)
  (w : PgWorld) r w' :
  write_documents documents policy w = (r, w') ->
  (self w' = self w \/ self w' = set_schema_is_initialized true (self w))
  /\ match r with
     | Ok n => exists new, pg_changes (db w') = (new ++ pg_changes (db w))%list
                           /\ List.length new = n
     | Raise e =>
         pg_changes (db w') = pg_changes (db w)
         /\ (_schema_is_initialized (self w) = true ->
             pg_table_ (db w') = pg_table_ (db w)
             /\ pg_indexes (db w') = pg_indexes (db w))
     end.
Proof.
  intros Hrun. unfold write_documents, _connected_method in Hrun.
  apply bind_inv in Hrun as [(s & w0 & H0 & Hrun) | (e & H0 & ->)]; [|discriminate H0].
  inversion H0; subst s w0; clear H0.
  apply try_finally_inv in Hrun as (r1 & w1 & r2 & Hbody & Hfin & Hr).
  unfold bind, get_self, set_self in Hfin. simpl in Hfin.
  inversion Hfin; subst r2 w'; clear Hfin. subst r. simpl.
  destruct (create_connection_run w) as (rc & b & Hc & Ht & Hi & Hch).
  apply bind_inv in Hbody as [(conn & wa & Ha & Hbody) | (e & Ha & ->)];
    rewrite Hc in Ha; inversion Ha; subst; clear Ha; simpl.
  2: { rewrite restore_connection_id. auto. }
  apply bind_inv in Hbody as [(s & wb & Hb & Hbody) | (e & Hb & ->)]; [|discriminate Hb].
  inversion Hb; subst s wb; clear Hb.
  apply bind_inv in Hbody as [(u & wb & Hb & Hbody) | (e & Hb & ->)]; [|discriminate Hb].
  inversion Hb; subst u wb; clear Hb.
  apply bind_inv in Hbody as [(s & wb & Hb & Hbody) | (e & Hb & ->)]; [|discriminate Hb].
  inversion Hb; subst s wb; clear Hb. simpl in Hbody.
  set (s1 := set_connection (Some conn) (self w)) in *.
  assert (Hflag : _schema_is_initialized s1 = _schema_is_initialized (self w))
    by (destruct (self w); reflexivity).
  destruct (_schema_is_initialized (self w)) eqn:Hf; simpl in Hbody.
  - (* the schema is initialised already *)
    set (w2 := {| self := s1; db := b; warnings := warnings w |}) in *.
    assert (Hst : stable w2).
    { split; [exists conn; destruct (self w); reflexivity | exact Hflag]. }
    unfold bind at 1 in Hbody. simpl in Hbody.
    apply bind_inv in Hbody as [(n & w3 & Hp & Hbody) | (e & Hp & ->)].
    + inversion Hbody; subst r1 w1; clear Hbody.
      apply connected_write_post in Hp as (Hs & _ & new & Hn & Hl); [|exact Hst].
      rewrite Hs. simpl. unfold s1. rewrite restore_connection. split; [auto|].
      exists new. rewrite Hn. simpl. rewrite Hch. auto.
    + apply connected_write_post in Hp as (Hs & Hix & Hn & Htb); [|exact Hst].
      rewrite Hs. simpl. unfold s1. rewrite restore_connection. split; [auto|].
      simpl in *. split; [congruence|]. intros _. split; congruence.
  - (* first use: the flag is set and the schema initialised *)
    set (w2 := {| self := set_schema_is_initialized true s1; db := b;
                  warnings := warnings w |}) in *.
    assert (Hst : stable w2).
    { split; [exists conn; destruct (self w); reflexivity | destruct (self w); reflexivity]. }
    assert (Hrest : forall s', s' = self w2 ->
              set_connection (_connection (self w)) s'
              = set_schema_is_initialized true (self w)).
    { intros s' ->. simpl. unfold s1. apply restore_connection_flag. }
    apply bind_inv in Hbody as [(u & w3 & Hp & Hbody) | (e & Hp & ->)].
    + apply bind_inv in Hp as [(u' & w4 & Hp' & Hp) | (e & Hp' & Hx)];
        [|discriminate Hp'].
      inversion Hp'; subst u' w4; clear Hp'. fold w2 in Hp.
      destruct (keeps_init_schema w2 Hst) as [Hs3 Hc3]. rewrite Hp in Hs3, Hc3.
      simpl in Hs3, Hc3.
      assert (Hst3 : stable w3) by (apply (stable_self w2); assumption).
      apply bind_inv in Hbody as [(n & w4 & Hq & Hbody) | (e & Hq & ->)].
      * inversion Hbody; subst r1 w1; clear Hbody.
        apply connected_write_post in Hq as (Hs & _ & new & Hn & Hl); [|exact Hst3].
        rewrite (Hrest _ (eq_trans Hs Hs3)). split; [auto|].
        exists new. rewrite Hn. unfold same_changes in Hc3. rewrite Hc3. simpl.
        rewrite Hch. auto.
      * apply connected_write_post in Hq as (Hs & _ & Hn & _); [|exact Hst3].
        rewrite (Hrest _ (eq_trans Hs Hs3)). split; [auto|].
        split; [|discriminate]. unfold same_changes in Hc3. simpl in *. congruence.
    + apply bind_inv in Hp as [(u' & w4 & Hp' & Hp) | (e' & Hp' & Hx)];
        [|discriminate Hp'].
      inversion Hp'; subst u' w4; clear Hp'. fold w2 in Hp.
      destruct (keeps_init_schema w2 Hst) as [Hs3 Hc3]. rewrite Hp in Hs3, Hc3.
      simpl in Hs3, Hc3.
      rewrite (Hrest _ Hs3). split; [auto|].
      split; [|discriminate]. unfold same_changes in Hc3. simpl in *. congruence.
Qed.

(** *** Duplicates under the policy FAIL *)

Lemma has_id_app (i : string) (rows more : list pg_row) :
  has_id i rows = true -> has_id i (rows ++ more) = true.
Proof. unfold has_id. rewrite existsb_app. intros ->. reflexivity. Qed.

Lemma to_row_id (dim : Z) (d : db_document) (r : pg_row) :
  to_row dim d = PgOk r -> to_varchar128 (db_id d) = PgOk (row_id r).
Proof.
  unfold to_row. destruct (to_varchar128 (db_id d)) as [i|e]; [|discriminate].
  destruct (to_vector dim (db_embedding d)) as [v|e]; [|discriminate].
  intros Hx; inversion Hx; reflexivity.
Qed.

Lemma next_fault_none (b : PgBackend) : pg_faults b = [] -> next_fault b = (false, b).
Proof. unfold next_fault. intros ->. reflexivity. Qed.

(** A batch of plain INSERTs holding an id that is already stored fails;
    when the round trips succeed and every row fits the table, it fails
    with the integrity violation. *)
Lemma pipeline_duplicate (ds : list db_document) :
  forall b t d i,
    pg_table_ b = Some t ->
    In d ds -> to_varchar128 (db_id d) = PgOk i -> has_id i (tbl_rows t) = true ->
    exists e b', pipeline NoConflictClause ds b = (PgErr e, b')
                 /\ (pg_faults b = [] -> Forall (fits (tbl_dim t)) ds -> e = IntegrityError).
Proof.
  induction ds as [|d0 ds IH]; intros b t d i Ht Hin Hid Hhas; [destruct Hin|].
  simpl. unfold round_trip.
  destruct (next_fault b) as [f b0] eqn:Hf.
  assert (Ht0 : pg_table_ b0 = Some t).
  { change b0 with (snd (f, b0)). rewrite <- Hf, next_fault_table. exact Ht. }
  destruct f.
  { eexists _, _. split; [reflexivity|]. intros Hno.
    rewrite (next_fault_none b Hno) in Hf. discriminate Hf. }
  simpl. rewrite Ht0.
  destruct (to_row (tbl_dim t) d0) as [r|e] eqn:Hr.
  2: { eexists _, _. split; [reflexivity|]. intros _ Hall.
       inversion Hall as [|? ? [r' Hr'] ?]; subst. congruence. }
  destruct (has_id (row_id r) (tbl_rows t)) eqn:Hh.
  { eexists _, _. split; [reflexivity|]. auto. }
  destruct Hin as [-> | Hin].
  { apply to_row_id in Hr. rewrite Hid in Hr. inversion Hr; subst. congruence. }
  match goal with
  | |- context [pipeline _ ds ?b1] =>
      destruct (IH b1 {| tbl_dim := tbl_dim t; tbl_rows := tbl_rows t ++ [r] |} d i)
        as (e & b' & Hp & He); auto
  end.
  { simpl. apply has_id_app. exact Hhas. }
  rewrite Hp. eexists _, _. split; [reflexivity|].
  intros Hno Hall. apply He.
  - rewrite (next_fault_none b Hno) in Hf. inversion Hf; subst. simpl. exact Hno.
  - inversion Hall; subst. assumption.
Qed.

Lemma from_haystack_documents (documents : list pyobj) (w : PgWorld) dbs w' :
  _from_haystack_to_pg_documents documents w = (Ok dbs, w') ->
  exists docs, documents = map ADocument docs /\ dbs = map to_db_document docs.
Proof.
  unfold _from_haystack_to_pg_documents. revert w dbs w'.
  induction documents as [|o l IH]; intros w dbs w' Hrun; simpl in Hrun.
  - inversion Hrun; subst. exists []. auto.
  - apply bind_inv in Hrun as [(x & w1 & H1 & Hrun) | (e & H1 & Hx)]; [|discriminate Hx].
    apply bind_inv in Hrun as [(xs & w2 & H2 & Hrun) | (e & H2 & Hx)]; [|discriminate Hx].
    inversion Hrun; subst. apply IH in H2 as (docs & -> & ->).
    destruct o as [d|v]; [|discriminate H1].
    apply bind_inv in H1 as [(u & w3 & _ & H1) | (e & _ & Hx)]; [|discriminate Hx].
    inversion H1; subst. exists (d :: docs). auto.
Qed.

Lemma create_connection_no_fault (w : PgWorld) :
  pg_faults (db w) = [] ->
  exists c b, _create_connection w = (Ok c, with_db b w)
              /\ pg_faults b = []
              /\ pg_table_ b = pg_table_ (db w)
              /\ pg_changes b = pg_changes (db w).
Proof.
  intros Hno. unfold _create_connection, bind, set_db_result, connection_execute,
    set_db_result, Postgres.connect, Postgres.execute, round_trip, next_fault.
  simpl. rewrite Hno. simpl. rewrite Hno. simpl.
  eexists _, _. split; [destruct w; reflexivity|]. simpl. auto.
Qed.

(** With the schema flag set, a call through the wrapper opens a
    connection, runs the method in a stable world and puts the former
    connection back. *)
Lemma write_documents_initialized (documents : list pyobj) (policy : DuplicatePolicy)
  (w : PgWorld) :
  _schema_is_initialized (self w) = true ->
  (exists e b, _create_connection w = (Raise e, with_db b w)
               /\ write_documents documents policy w = (Raise e, with_db b w))
  \/ (exists c b r w3,
        _create_connection w = (Ok c, with_db b w)
        /\ stable {| self := set_connection (Some c) (self w); db := b;
                     warnings := warnings w |}
        /\ _connected_write_documents documents policy
             {| self := set_connection (Some c) (self w); db := b;
                warnings := warnings w |} = (r, w3)
        /\ write_documents documents policy w
           = (r, {| self := self w; db := db w3; warnings := warnings w3 |})).
Proof.
  intros Hf. destruct (create_connection_run w) as (rc & b & Hc & _).
  destruct rc as [c|e].
  - right.
    set (w2 := {| self := set_connection (Some c) (self w); db := b;
                  warnings := warnings w |}).
    assert (Hst : stable w2).
    { split; [exists c; destruct (self w); reflexivity|].
      simpl. destruct (self w); simpl in *; exact Hf. }
    destruct (_connected_write_documents documents policy w2) as [r w3] eqn:Hp.
    exists c, b, r, w3. split; [exact Hc|]. split; [exact Hst|]. split; [exact Hp|].
    unfold write_documents, _connected_method, try_finally, bind, get_self, set_self.
    rewrite Hc. cbn [self db warnings with_db].
    assert (Hflag : _schema_is_initialized (set_connection (Some c) (self w)) = true)
      by (destruct (self w); simpl in *; exact Hf).
    rewrite Hflag. cbn [negb ret]. fold w2. rewrite Hp.
    apply connected_write_post in Hp as (Hs & _); [|exact Hst].
    destruct r; cbn [ret self db warnings]; rewrite Hs; cbn [self w2];
      rewrite restore_connection; reflexivity.
  - left. exists e, b. split; [exact Hc|].
    unfold write_documents, _connected_method, try_finally, bind, get_self, set_self.
    rewrite Hc. cbn [self db warnings with_db]. rewrite restore_connection_id.
    reflexivity.
Qed.

Lemma from_haystack_all_documents (l : list pyobj) (w : PgWorld) e w' :
  _from_haystack_to_pg_documents l w = (Raise e, w') ->
  exists v, In (NotADocument v) l.
Proof.
  unfold _from_haystack_to_pg_documents. revert w e w'.
  induction l as [|o l IH]; intros w e w' Hrun; [discriminate Hrun|].
  simpl in Hrun. destruct o as [d|v]; [|exists v; left; reflexivity].
  apply bind_inv in Hrun as [(x & w1 & H1 & Hrun) | (e' & H1 & Hx)].
  - apply bind_inv in Hrun as [(xs & w2 & H3 & Hrun) | (e' & H3 & Hx)];
      [discriminate Hrun|].
    apply IH in H3 as [v Hv]. exists v. right. exact Hv.
  - apply bind_inv in H1 as [(u & w3 & H4 & H1) | (e'' & H4 & Hx')];
      [discriminate H1|].
    destruct (sparse_embedding d) as [[|? ?]|]; discriminate H4.
Qed.

Lemma connected_write_fail_duplicate (documents : list pyobj) (policy : DuplicatePolicy)
  (w : PgWorld) t d i :
  stable w -> fail_policy policy ->
  pg_table_ (db w) = Some t ->
  In (ADocument d) documents ->
  to_varchar128 (id d) = PgOk i -> has_id i (tbl_rows t) = true ->
  exists e w', _connected_write_documents documents policy w = (Raise e, w')
    /\ (pg_faults (db w) = [] ->
        (forall o, In o documents ->
                   exists d', o = ADocument d' /\ fits (tbl_dim t) (to_db_document d')) ->
        e = DuplicateDocumentError).
Proof.
  intros Hw Hpol Ht Hin Hid Hhas.
  assert (Hcc : conflict_clause_of (if policy_eqb policy NONE then FAIL else policy)
                = NoConflictClause) by (destruct Hpol as [-> | ->]; reflexivity).
  unfold _connected_write_documents. rewrite Hcc.
  destruct documents as [|first rest]; [destruct Hin|].
  destruct first as [d0|v0].
  2: { eexists _, _. split; [reflexivity|]. intros _ Hall.
       destruct (Hall (NotADocument v0) (or_introl eq_refl)) as (d' & Hd' & _).
       discriminate Hd'. }
  unfold bind at 1. cbn [isinstance_Document negb ret].
  destruct (from_haystack_run (ADocument d0 :: rest) w) as (r2 & ws & H2).
  unfold bind at 1. rewrite H2.
  destruct r2 as [dbs|e].
  2: { eexists _, _. split; [reflexivity|]. intros _ Hall. exfalso.
       apply from_haystack_all_documents in H2 as [v Hv].
       destruct (Hall _ Hv) as (d' & Hd' & _). discriminate Hd'. }
  apply from_haystack_documents in H2 as H2'. destruct H2' as (docs & Hdocs & ->).
  set (w2 := {| self := self w; db := db w; warnings := ws |}) in *.
  assert (Hw2 : stable w2) by (apply (stable_self w); [reflexivity | exact Hw]).
  unfold bind at 1. unfold get_self at 1. cbn beta iota.
  destruct (connection_stable w2 Hw2) as [c Hc].
  unfold bind at 1. rewrite Hc. unfold bind at 1. rewrite Hc.
  assert (Hd : In (to_db_document d) (map to_db_document docs)).
  { apply in_map. rewrite Hdocs in Hin. apply in_map_iff in Hin as (x & Hx & Hin).
    inversion Hx; subst. exact Hin. }
  unfold bind at 1. cbn beta. unfold Postgres.executemany. cbv zeta.
  match goal with
  | |- context [pipeline NoConflictClause _ ?b0] =>
      destruct (pipeline_duplicate (map to_db_document docs) b0 t (to_db_document d) i)
        as (e & b' & Hp & He); auto
  end.
  rewrite Hp. cbn iota.
  assert (Hst : forall b1, stable (with_db b1 w2))
    by (intros b1; apply (stable_self w2); [reflexivity | exact Hw2]).
  assert (Hfits : (forall o, In o (ADocument d0 :: rest) ->
                     exists d', o = ADocument d' /\ fits (tbl_dim t) (to_db_document d')) ->
                  Forall (fits (tbl_dim t)) (map to_db_document docs)).
  { intros Hall. apply List.Forall_forall. intros x Hx.
    apply in_map_iff in Hx as (d' & <- & Hd').
    destruct (Hall (ADocument d')) as (d'' & Heq & Hfit).
    - rewrite Hdocs. apply in_map. exact Hd'.
    - inversion Heq; subst. exact Hfit. }
  match goal with
  | |- context [with_db ?b1 w2] => destruct (connection_stable _ (Hst b1)) as [c2 Hc2]
  end.
  destruct e; unfold bind; rewrite Hc2; eexists _, _; (split; [reflexivity|]);
    intros Hno Hall; try reflexivity;
    specialize (He Hno (Hfits Hall)); discriminate He.
Qed.

Lemma connected_write_domain_error (documents : list pyobj) (policy : DuplicatePolicy)
  (w : PgWorld) e w' :
  stable w -> documents <> [] ->
  (forall o, In o documents -> isinstance_Document o = true) ->
  _connected_write_documents documents policy w = (Raise e, w') ->
  is_domain_error e = true.
Proof.
  intros Hw Hne Hall Hrun. unfold _connected_write_documents in Hrun.
  destruct documents as [|first rest]; [congruence|].
  assert (Hfirst : isinstance_Document first = true) by (apply Hall; left; reflexivity).
  rewrite Hfirst in Hrun. cbn [negb] in Hrun.
  unfold bind at 1 in Hrun. cbn [ret] in Hrun.
  destruct (from_haystack_run (first :: rest) w) as (r2 & ws & H2).
  unfold bind at 1 in Hrun. rewrite H2 in Hrun.
  destruct r2 as [dbs|e2].
  2: { apply from_haystack_all_documents in H2 as [v Hv].
       apply Hall in Hv. discriminate Hv. }
  apply from_haystack_documents in H2 as (docs & Hdocs & ->).
  set (w2 := {| self := self w; db := db w; warnings := ws |}) in *.
  assert (Hw2 : stable w2) by (apply (stable_self w); [reflexivity | exact Hw]).
  unfold bind at 1 in Hrun. unfold get_self at 1 in Hrun. cbn beta iota in Hrun.
  destruct (connection_stable w2 Hw2) as [c Hc].
  unfold bind at 1 in Hrun. rewrite Hc in Hrun.
  unfold bind at 1 in Hrun. rewrite Hc in Hrun.
  unfold bind at 1 in Hrun. cbn beta in Hrun.
  assert (Hst : forall b1, stable (with_db b1 w2))
    by (intros b1; apply (stable_self w2); [reflexivity | exact Hw2]).
  destruct (Postgres.executemany _ _ (map to_db_document docs) (db w2))
    as [[l|e0] b] eqn:He.
  - apply executemany_ok in He as (_ & _ & _ & Hlen).
    destruct l as [|rs l]; [|discriminate Hrun].
    destruct docs; [discriminate Hdocs | discriminate Hlen].
  - destruct (connection_stable _ (Hst b)) as [c2 Hc2].
    destruct e0; unfold bind in Hrun; rewrite Hc2 in Hrun; inversion Hrun; reflexivity.
Qed.

(** Under FAIL, a batch holding an id that is already stored is refused as
    a whole. *)
Lemma pg_fail_duplicate (documents : list pyobj) (policy : DuplicatePolicy)
  (w : PgWorld) t d i :
  fail_policy policy ->
  _schema_is_initialized (self w) = true ->
  pg_table_ (db w) = Some t ->
  In (ADocument d) documents ->
  to_varchar128 (id d) = PgOk i -> has_id i (tbl_rows t) = true ->
  exists e w',
    write_documents documents policy w = (Raise e, w')
    /\ pg_table_ (db w') = pg_table_ (db w)
    /\ pg_changes (db w') = pg_changes (db w)
    /\ (pg_faults (db w) = [] ->
        (forall o, In o documents ->
                   exists d', o = ADocument d' /\ fits (tbl_dim t) (to_db_document d')) ->
        e = DuplicateDocumentError).
Proof.
  intros Hpol Hf Ht Hin Hid Hhas.
  assert (Hpost : forall e w', write_documents documents policy w = (Raise e, w') ->
                    pg_table_ (db w') = pg_table_ (db w)
                    /\ pg_changes (db w') = pg_changes (db w)).
  { intros e w' Hrun. apply write_documents_post in Hrun as [_ [Hch Htb]].
    destruct (Htb Hf). auto. }
  destruct (create_connection_run w) as (rc & b0 & Hc0 & Ht0 & _ & _).
  destruct (write_documents_initialized documents policy w Hf)
    as [(e & b & Hc & Hrun) | (c & b & r & w3 & Hc & Hst & Hp & Hrun)].
  - exists e, (with_db b w). split; [exact Hrun|].
    destruct (Hpost _ _ Hrun) as [H1 H2]. split; [exact H1|]. split; [exact H2|].
    intros Hno _. destruct (create_connection_no_fault w Hno) as (c' & b' & Hc' & _).
    congruence.
  - assert (Hb : b0 = b).
    { rewrite Hc0 in Hc.
      assert (Hx : db (with_db b0 w) = db (with_db b w)) by congruence. exact Hx. }
    subst b0.
    destruct (connected_write_fail_duplicate documents policy _ t d i Hst Hpol)
      as (e & w' & Hp' & He); auto.
    { simpl. congruence. }
    rewrite Hp in Hp'. inversion Hp'; subst r w3.
    eexists _, _. split; [exact Hrun|].
    destruct (Hpost _ _ Hrun) as [H1 H2]. split; [exact H1|]. split; [exact H2|].
    intros Hno Hall. apply He; [|exact Hall]. simpl.
    destruct (create_connection_no_fault w Hno) as (c' & b' & Hc' & Hnb & _).
    rewrite Hc in Hc'.
    assert (Hx : db (with_db b w) = db (with_db b' w)) by congruence.
    simpl in Hx. congruence.
Qed.

(** Once the connection is open, whatever makes the batch fail reaches
    the caller as an error of the document-store hierarchy, and nothing of
    the batch stays. *)
Lemma pg_batch_error_is_domain_error (documents : list pyobj) (policy : DuplicatePolicy)
  (w : PgWorld) e w' c w1 :
  _schema_is_initialized (self w) = true ->
  documents <> [] ->
  (forall o, In o documents -> isinstance_Document o = true) ->
  _create_connection w = (Ok c, w1) ->
  write_documents documents policy w = (Raise e, w') ->
  is_domain_error e = true
  /\ pg_table_ (db w') = pg_table_ (db w)
  /\ pg_changes (db w') = pg_changes (db w).
Proof.
  intros Hf Hne Hall Hc Hrun.
  apply write_documents_post in Hrun as Hpost. destruct Hpost as [_ [Hch Htb]].
  destruct (Htb Hf) as [Ht _]. split; [|auto].
  destruct (write_documents_initialized documents policy w Hf)
    as [(e' & b & Hc' & _) | (c' & b & r & w3 & _ & Hst & Hp & Hrun')].
  - congruence.
  - rewrite Hrun in Hrun'. inversion Hrun'; subst r.
    eapply connected_write_domain_error; eauto.
Qed.

(** *** Elements that are not documents *)

Lemma connected_write_not_a_document (documents : list pyobj) (policy : DuplicatePolicy)
  (w : PgWorld) v :
  In (NotADocument v) documents ->
  exists e w', _connected_write_documents documents policy w = (Raise e, w').
Proof.
  intros Hin. unfold _connected_write_documents.
  destruct documents as [|first rest]; [destruct Hin|].
  destruct first as [d0|v0]; [|eexists _, _; reflexivity].
  unfold bind at 1. cbn [isinstance_Document negb ret].
  destruct (from_haystack_run (ADocument d0 :: rest) w) as (r2 & ws & H2).
  unfold bind at 1. rewrite H2.
  destruct r2 as [dbs|e]; [|eauto].
  apply from_haystack_documents in H2 as (docs & Hdocs & _).
  rewrite Hdocs in Hin. apply in_map_iff in Hin as (x & Hx & _). discriminate Hx.
Qed.

(** A method that raises in every stable world raises through the
    wrapper. *)
Lemma connected_method_raises {A} (private_method : Method A) :
  (forall w, stable w -> exists e w', private_method w = (Raise e, w')) ->
  forall w, exists e w', _connected_method private_method w = (Raise e, w').
Proof.
  intros Hpm w. destruct (_connected_method private_method w) as [r w'] eqn:Hrun.
  enough (Hr : exists e, r = Raise e) by (destruct Hr as [e ->]; eauto).
  unfold _connected_method in Hrun.
  apply bind_inv in Hrun as [(s & w0 & H0 & Hrun) | (e & H0 & ->)]; [|eauto].
  inversion H0; subst s w0; clear H0.
  apply try_finally_inv in Hrun as (r1 & w1 & r2 & Hbody & Hfin & Hr).
  unfold bind, get_self, set_self in Hfin. simpl in Hfin.
  inversion Hfin; subst r2 w'; clear Hfin. subst r.
  apply bind_inv in Hbody as [(conn & wa & Ha & Hbody) | (e & Ha & ->)]; [|eauto].
  destruct (create_connection_run w) as (rc & b & Hc & _).
  rewrite Hc in Ha. inversion Ha; subst rc wa; clear Ha.
  apply bind_inv in Hbody as [(s & wb & Hb & Hbody) | (e & Hb & ->)]; [|eauto].
  inversion Hb; subst s wb; clear Hb.
  apply bind_inv in Hbody as [(u & wb & Hb & Hbody) | (e & Hb & ->)]; [|eauto].
  inversion Hb; subst u wb; clear Hb.
  apply bind_inv in Hbody as [(s & wb & Hb & Hbody) | (e & Hb & ->)]; [|eauto].
  inversion Hb; subst s wb; clear Hb. simpl in Hbody.
  set (s1 := set_connection (Some conn) (self w)) in *.
  assert (Hconn : exists c, _connection s1 = Some c)
    by (exists conn; unfold s1; destruct (self w); reflexivity).
  apply bind_inv in Hbody as [(u & w2 & Hinit & Hbody) | (e & Hinit & ->)]; [|eauto].
  assert (Hst : stable w2).
  { destruct (_schema_is_initialized (self w)) eqn:Hf; simpl in Hinit.
    - inversion Hinit; subst. split; [exact Hconn|].
      simpl. unfold s1. destruct (self w); simpl in *; exact Hf.
    - apply bind_inv in Hinit as [(u' & w3 & H3 & Hinit) | (e & H3 & Hx)];
        [|discriminate Hx].
      inversion H3; subst u' w3; clear H3.
      match type of Hinit with
      | _init_schema ?w0 = _ =>
          assert (Hst0 : stable w0)
            by (split; [exists conn; unfold s1; destruct (self w); reflexivity
                       | unfold s1; destruct (self w); reflexivity]);
          destruct (keeps_init_schema w0 Hst0) as [Hs _];
          rewrite Hinit in Hs; simpl in Hs;
          exact (stable_self w0 w2 Hs Hst0)
      end. }
  destruct (Hpm w2 Hst) as (e & w' & Hp).
  apply bind_inv in Hbody as [(a & w3 & Hq & Hbody) | (e' & Hq & ->)]; [|eauto].
  congruence.
Qed.

Lemma pg_write_not_a_document (documents : list pyobj) (policy : DuplicatePolicy)
  (w : PgWorld) v :
  In (NotADocument v) documents ->
  exists e w', write_documents documents policy w = (Raise e, w')
    /\ pg_changes (db w') = pg_changes (db w)
    /\ (_schema_is_initialized (self w) = true ->
        pg_table_ (db w') = pg_table_ (db w)
        /\ pg_indexes (db w') = pg_indexes (db w)).
Proof.
  intros Hin.
  destruct (connected_method_raises (_connected_write_documents documents policy)
              (fun w0 _ => connected_write_not_a_document documents policy w0 v Hin) w)
    as (e & w' & Hrun).
  exists e, w'. split; [exact Hrun|].
  apply write_documents_post in Hrun as [_ Hpost]. exact Hpost.
Qed.

End PgvectorFacts.

(** ** The Azure AI Search store *)

Section AzureFacts.
Import AzureAISearch.
Local Open Scope py_scope.

Lemma az_frame_refl (b : AzureBackend) : az_frame b b.
Proof. repeat split; auto. Qed.

Lemma az_frame_trans (a b c : AzureBackend) :
  az_frame a b -> az_frame b c -> az_frame a c.
Proof.
  intros (H1 & H2 & H3) (H4 & H5 & H6). repeat split; try congruence. eauto.
Qed.

Lemma az_call_frame (ev : az_event) (b : AzureBackend) :
  az_indexes (snd (az_call ev b)) = az_indexes b
  /\ az_changes (snd (az_call ev b)) = az_changes b.
Proof. unfold az_call. destruct (az_faults b); simpl; auto. Qed.

Lemma az_frame_of_eq (b b' : AzureBackend) :
  az_indexes b' = az_indexes b -> az_changes b' = az_changes b -> az_frame b b'.
Proof.
  intros Hi Hc. unfold az_frame, all_docs. rewrite Hi, Hc. auto.
Qed.

Lemma find_index_app_new (name : string) (l : list search_index) (ix new : search_index) :
  find_index name l = Some ix -> find_index name (l ++ [new]) = Some ix.
Proof.
  induction l as [|x l IH]; simpl; [discriminate|].
  destruct (String.eqb (si_name x) name); auto.
Qed.

Lemma list_index_names_frame (b : AzureBackend) :
  az_frame b (snd (list_index_names b)).
Proof.
  unfold list_index_names. destruct (az_call _ b) as [f b1] eqn:Hc.
  pose proof (az_call_frame AzListIndexNames b) as [Hi Hch]. rewrite Hc in Hi, Hch.
  simpl in *. destruct f; simpl; apply az_frame_of_eq; assumption.
Qed.

Lemma create_index_frame (name : string) (fields : list string) (b : AzureBackend) :
  az_frame b (snd (AzureService.create_index name fields b)).
Proof.
  unfold AzureService.create_index. destruct (az_call _ b) as [f b1] eqn:Hc.
  pose proof (az_call_frame (AzCreateIndex name) b) as [Hi Hch]. rewrite Hc in Hi, Hch.
  simpl in *. destruct f; simpl; [apply az_frame_of_eq; assumption|].
  destruct (find_index name (az_indexes b1)) eqn:Hf; simpl;
    [apply az_frame_of_eq; assumption|].
  unfold az_frame, all_docs. simpl. rewrite Hch, Hi. split; [reflexivity|]. split.
  - rewrite flat_map_app. simpl. rewrite app_nil_r. reflexivity.
  - intros n ix Hn. apply find_index_app_new. exact Hn.
Qed.

Lemma get_document_frame (index key : string) (b : AzureBackend) :
  az_frame b (snd (get_document index key b)).
Proof.
  unfold get_document. destruct (az_call _ b) as [f b1] eqn:Hc.
  pose proof (az_call_frame (AzGetDocument index key) b) as [Hi Hch].
  rewrite Hc in Hi, Hch. simpl in *.
  destruct f; simpl; [apply az_frame_of_eq; assumption|].
  destruct (find_index index (az_indexes b1)) as [ix|]; simpl;
    [destruct (find_doc key (si_docs ix))|]; simpl; apply az_frame_of_eq; assumption.
Qed.

Lemma get_document_count_frame (index : string) (b : AzureBackend) :
  az_frame b (snd (get_document_count index b)).
Proof.
  unfold get_document_count. destruct (az_call _ b) as [f b1] eqn:Hc.
  pose proof (az_call_frame (AzGetDocumentCount index) b) as [Hi Hch].
  rewrite Hc in Hi, Hch. simpl in *.
  destruct f; simpl; [apply az_frame_of_eq; assumption|].
  destruct (find_index index (az_indexes b1)) as [ix|]; simpl;
    apply az_frame_of_eq; assumption.
Qed.

Lemma search_all_frame (index : string) (top : nat) (b : AzureBackend) :
  az_frame b (snd (search_all index top b)).
Proof.
  unfold search_all. destruct (az_call _ b) as [f b1] eqn:Hc.
  pose proof (az_call_frame (AzSearch index top) b) as [Hi Hch].
  rewrite Hc in Hi, Hch. simpl in *.
  destruct f; simpl; [apply az_frame_of_eq; assumption|].
  destruct (find_index index (az_indexes b1)) as [ix|]; simpl;
    apply az_frame_of_eq; assumption.
Qed.

Lemma az_keeps_ret {A} (a : A) : az_keeps (ret a).
Proof. intros w. split; [apply az_frame_refl | reflexivity]. Qed.

Lemma az_keeps_raise {A} (e : exn) : az_keeps (@raise _ _ A e).
Proof. intros w. split; [apply az_frame_refl | reflexivity]. Qed.

Lemma az_keeps_lift {A} (r : result A) : az_keeps (lift r).
Proof. intros w. split; [apply az_frame_refl | reflexivity]. Qed.

Lemma az_keeps_get_self : az_keeps get_self.
Proof. intros w. split; [apply az_frame_refl | reflexivity]. Qed.

Lemma az_keeps_at_set_self (w : AzWorld) (s : AzureAISearchDocumentStore) :
  _index_name s = _index_name (self w) -> az_keeps_at w (set_self s).
Proof. intros Hs. split; [apply az_frame_refl | exact Hs]. Qed.

Lemma az_keeps_at_bind {A C} (w : AzWorld) (c : Method A) (k : A -> Method C) :
  az_keeps_at w c -> (forall a, az_keeps (k a)) -> az_keeps_at w (bind c k).
Proof.
  intros Hc Hk. unfold az_keeps_at, bind in *.
  destruct (c w) as [[a|e] w1]; simpl in *; [|exact Hc].
  destruct Hc as [Hf Hn]. destruct (Hk a w1) as [Hf' Hn'].
  split; [eapply az_frame_trans; eauto | congruence].
Qed.

Lemma az_keeps_bind {A C} (c : Method A) (k : A -> Method C) :
  az_keeps c -> (forall a, az_keeps (k a)) -> az_keeps (bind c k).
Proof. intros Hc Hk w. apply az_keeps_at_bind; auto. Qed.

(** [s <- get_self ;; k s]: [k] is run on the instance of the world. *)
Lemma az_keeps_get_self_bind {C} (k : AzureAISearchDocumentStore -> Method C) :
  (forall w, az_keeps_at w (k (self w))) -> az_keeps (bind get_self k).
Proof. intros Hk w. unfold az_keeps_at, bind, get_self. simpl. apply Hk. Qed.

Lemma az_keeps_sdk {A} (call : AzureBackend -> az_res A * AzureBackend) :
  (forall b, az_frame b (snd (call b))) -> az_keeps (sdk call).
Proof.
  intros Hc w. unfold az_keeps_at, sdk. specialize (Hc (db w)).
  destruct (call (db w)) as [[a|e] b]; simpl in *; auto.
Qed.

Ltac az_keeps_step :=
  match goal with
  | |- az_keeps_at _ (set_self _) => apply az_keeps_at_set_self; reflexivity
  | |- az_keeps_at _ (bind _ _) => apply az_keeps_at_bind; [ | intros ?]
  | |- az_keeps_at _ (let _ := _ in _) => cbv zeta
  | |- az_keeps_at _ (if ?c then _ else _) => destruct c
  | |- az_keeps_at _ (match ?x with _ => _ end) => destruct x
  | |- az_keeps_at ?w ?m => revert w; change (az_keeps m)
  | |- az_keeps (ret _) => apply az_keeps_ret
  | |- az_keeps (raise _) => apply az_keeps_raise
  | |- az_keeps (lift _) => apply az_keeps_lift
  | |- az_keeps get_self => apply az_keeps_get_self
  | |- az_keeps (sdk _) =>
      apply az_keeps_sdk; intros;
      first [ apply list_index_names_frame | apply create_index_frame
            | apply get_document_frame | apply get_document_count_frame
            | apply search_all_frame ]
  | |- az_keeps (bind get_self _) => apply az_keeps_get_self_bind; intros ?
  | |- az_keeps (bind _ _) => apply az_keeps_bind; [ | intros ?]
  | |- az_keeps (let _ := _ in _) => cbv zeta
  | |- az_keeps (if ?c then _ else _) => destruct c
  | |- az_keeps (match ?x with _ => _ end) => destruct x
  end.

Ltac az_keeps_auto := repeat az_keeps_step.

Lemma az_keeps_index_exists (index_name : string) : az_keeps (index_exists index_name).
Proof. unfold index_exists. az_keeps_auto. Qed.

Lemma az_keeps_create_index (index_name : string) :
  az_keeps (AzureAISearch.create_index index_name).
Proof. unfold AzureAISearch.create_index. az_keeps_auto. Qed.

Lemma az_keeps_client : az_keeps client.
Proof.
  unfold client. az_keeps_auto;
    first [apply az_keeps_index_exists | apply az_keeps_create_index].
Qed.

Lemma az_keeps_default_index_mapping (document : list (string * value)) :
  az_keeps (_default_index_mapping document).
Proof. unfold _default_index_mapping. az_keeps_auto. Qed.

Lemma az_keeps_convert_input_document (d : Document) :
  az_keeps (_convert_input_document d).
Proof.
  unfold _convert_input_document. az_keeps_auto; apply az_keeps_default_index_mapping.
Qed.

Lemma az_keeps_with_db {A} (m : Method A) (w : AzWorld) (b : AzureBackend) :
  az_frame (db w) b -> az_keeps m -> az_keeps_at w (fun _ => m (with_db b w)).
Proof.
  intros Hb Hm. destruct (Hm (with_db b w)) as [Hf Hn]. simpl in *.
  split; [eapply az_frame_trans; eauto | exact Hn].
Qed.

Lemma az_keeps_write_one (policy : DuplicatePolicy) (acc : list azure_doc) (doc : pyobj) :
  az_keeps (write_one policy acc doc).
Proof.
  unfold write_one. apply az_keeps_bind; [apply az_keeps_client|]. intros c.
  destruct doc as [d|v]; [|apply az_keeps_raise].
  intros w. pose proof (get_document_frame c (key_text (id d)) (db w)) as Hg.
  unfold az_keeps_at.
  destruct (get_document c (key_text (id d)) (db w)) as [[x|e] b]; simpl in Hg.
  - destruct policy;
      match goal with
      | |- context [?m (with_db b w)] =>
          apply (az_keeps_with_db m w b Hg)
      end; az_keeps_auto; apply az_keeps_convert_input_document.
  - destruct e;
      match goal with
      | |- context [?m (with_db b w)] =>
          apply (az_keeps_with_db m w b Hg)
      end; az_keeps_auto; apply az_keeps_convert_input_document.
Qed.

Lemma az_keeps_write_loop (policy : DuplicatePolicy) (documents : list pyobj) :
  forall acc, az_keeps (write_loop policy documents acc).
Proof.
  induction documents as [|doc rest IH]; intros acc; simpl.
  - apply az_keeps_ret.
  - apply az_keeps_bind; [apply az_keeps_write_one | intros a; apply IH].
Qed.


Lemma acceptable_has_key (ix : search_index) (batch : list azure_doc) :
  acceptable ix batch = true -> forallb has_key batch = true.
Proof.
  unfold acceptable. intros Ha. apply andb_prop in Ha as [_ Ha].
  induction batch as [|d batch IH]; simpl in *; [reflexivity|].
  apply andb_prop in Ha as [Hd Ha]. apply andb_prop in Hd as [Hd _].
  unfold has_key. rewrite Hd. simpl. auto.
Qed.

Lemma take_outcomes_length (batch : list azure_doc) :
  forall faults, List.length (fst (take_outcomes batch faults)) = List.length batch.
Proof.
  induction batch as [|d batch IH]; intros faults; simpl; [reflexivity|].
  destruct faults as [|f faults].
  - specialize (IH []). destruct (take_outcomes batch []). simpl in *. congruence.
  - specialize (IH faults). destruct (take_outcomes batch faults). simpl in *. congruence.
Qed.

(** A service that fails no action reports every one as succeeded. *)
Lemma take_outcomes_none (batch : list azure_doc) :
  take_outcomes batch [] = (map (fun _ => true) batch, []).
Proof. induction batch as [|d batch IH]; simpl; [reflexivity|]. rewrite IH. reflexivity. Qed.

Lemma succeeded_docs_all (batch : list azure_doc) :
  succeeded_docs batch (map (fun _ => true) batch) = batch.
Proof. induction batch as [|d batch IH]; simpl; [reflexivity|]. rewrite IH. reflexivity. Qed.

Lemma succeeded_all (batch : list azure_doc) :
  succeeded (map (fun _ => true) batch) = List.length batch.
Proof.
  unfold succeeded. induction batch as [|d batch IH]; simpl; [reflexivity|].
  rewrite IH. reflexivity.
Qed.

Lemma succeeded_docs_length (batch : list azure_doc) :
  forall results,
    List.length results = List.length batch ->
    List.length (succeeded_docs batch results) = succeeded results.
Proof.
  unfold succeeded.
  induction batch as [|d batch IH]; intros [|ok results] Hl; try discriminate; simpl;
    [reflexivity|].
  simpl in Hl. destruct ok; simpl; rewrite IH by lia; reflexivity.
Qed.

Lemma succeeded_docs_has_key (batch : list azure_doc) :
  forallb has_key batch = true ->
  forall results, forallb has_key (succeeded_docs batch results) = true.
Proof.
  induction batch as [|d batch IH]; simpl; intros Hk results; [reflexivity|].
  apply andb_prop in Hk as [Hd Hk].
  destruct results as [|[|] results]; simpl; auto. rewrite Hd. simpl. auto.
Qed.



(** *** Batches that the loop of [write_documents] refuses *)

Lemma client_returns_index_name (w : AzWorld) c w' :
  client w = (Ok c, w') -> c = _index_name (self w).
Proof.
  intros Hrun. unfold client in Hrun.
  apply bind_inv in Hrun as [(s & w0 & H0 & Hrun) | (e & _ & Hx)]; [|discriminate Hx].
  inversion H0; subst s w0; clear H0.
  apply bind_inv in Hrun as [(u & w1 & H1 & Hrun) | (e & _ & Hx)]; [|discriminate Hx].
  assert (Hn1 : _index_name (self w1) = _index_name (self w)).
  { destruct (_index_client (self w)); simpl in H1; inversion H1; subst; reflexivity. }
  apply bind_inv in Hrun as [(s & w2 & H2 & Hrun) | (e & _ & Hx)]; [|discriminate Hx].
  inversion H2; subst s w2; clear H2.
  apply bind_inv in Hrun as [(ex & w2 & H2 & Hrun) | (e & _ & Hx)]; [|discriminate Hx].
  pose proof (az_keeps_index_exists (_index_name (self w1)) w1) as [_ Hn2].
  rewrite H2 in Hn2. simpl in Hn2.
  apply bind_inv in Hrun as [(u' & w3 & H3 & Hrun) | (e & _ & Hx)]; [|discriminate Hx].
  assert (Hn3 : _index_name (self w3) = _index_name (self w2)).
  { destruct ex; simpl in H3.
    - inversion H3; subst; reflexivity.
    - pose proof (az_keeps_create_index (_index_name (self w1)) w2) as [_ Hn].
      rewrite H3 in Hn. exact Hn. }
  apply bind_inv in Hrun as [(s & w4 & H4 & Hrun) | (e & _ & Hx)]; [|discriminate Hx].
  inversion H4; subst s w4; clear H4.
  apply bind_inv in Hrun as [(u'' & w4 & H4 & Hrun) | (e & _ & Hx)]; [|discriminate Hx].
  inversion Hrun; subst. congruence.
Qed.

Lemma index_holds_kept {A} (m : Method A) (ix : search_index) (w : AzWorld) :
  az_keeps m -> index_holds ix w -> index_holds ix (snd (m w)).
Proof.
  intros Hm Hix. destruct (Hm w) as [(_ & _ & Hfind) Hn].
  unfold index_holds. rewrite Hn. apply Hfind. exact Hix.
Qed.


Lemma write_one_not_a_document (policy : DuplicatePolicy) (acc : list azure_doc)
  (v : value) (w : AzWorld) :
  raises (write_one policy acc (NotADocument v)) w.
Proof.
  unfold raises, write_one, bind. destruct (client w) as [[c|e] w1]; eauto.
Qed.





(** *** The loop when the service answers every call *)

Lemma find_index_listed (name : string) (l : list search_index) (ix : search_index) :
  find_index name l = Some ix -> existsb (String.eqb name) (map si_name l) = true.
Proof.
  induction l as [|x l IH]; simpl; [discriminate|].
  rewrite (String.eqb_sym name (si_name x)).
  destruct (String.eqb (si_name x) name); simpl; auto.
Qed.

Lemma client_no_fault (ix : search_index) (w : AzWorld) :
  az_faults (db w) = [] ->
  _index_name (self w) <> "" ->
  index_holds ix w ->
  exists w1, client w = (Ok (_index_name (self w)), w1)
             /\ az_faults (db w1) = []
             /\ az_indexes (db w1) = az_indexes (db w)
             /\ az_changes (db w1) = az_changes (db w)
             /\ _index_name (self w1) = _index_name (self w).
Proof.
  intros Hno Hname Hix. unfold index_holds in Hix.
  apply find_index_listed in Hix.
  apply String.eqb_neq in Hname.
  destruct w as [s b ws]. simpl in *.
  unfold client, bind, get_self, set_self, index_exists, sdk, list_index_names, az_call,
    ret, bind, get_self. simpl.
  destruct (_index_client s) eqn:Hic; simpl;
    rewrite ?Hic, Hname; simpl; rewrite Hno; simpl; rewrite Hix; simpl;
    eexists; (split; [reflexivity|]); simpl; auto.
Qed.





End AzureFacts.

(** ** The claims *)

Lemma inserted_plus_overwritten (l : list row_change) :
  (inserted l + overwritten l)%nat = List.length l.
Proof.
  unfold inserted, overwritten.
  induction l as [|[i|i] l IH]; simpl in *; lia.
Qed.

(** C10: a call of the pgvector [write_documents], whether it returns or
    raises, leaves [_connection] as it was before the call; of all the
    attributes of the instance only [_schema_is_initialized] can differ
    afterwards, and it can only have been set. *)
Theorem write_documents_restores_connection `{Env} (documents : list pyobj)
  (policy : DuplicatePolicy) (w : PgWorld) :
  let w' := snd (Pgvector.write_documents documents policy w) in
  Pgvector._connection (self w') = Pgvector._connection (self w)
  /\ (self w' = self w
      \/ self w' = Pgvector.set_schema_is_initialized true (self w)).
Proof.
  intros w'. subst w'.
  destruct (Pgvector.write_documents documents policy w) as [r w1] eqn:Hrun.
  apply write_documents_post in Hrun as [Hs _]. simpl.
  split; [|exact Hs].
  destruct Hs as [-> | ->]; [reflexivity|]. destruct (self w); reflexivity.
Qed.




(** ** Query text *)

Lemma append_length (a b : string) :
  String.length (a ++ b) = (String.length a + String.length b)%nat.
Proof. induction a as [|c a IH]; simpl; [reflexivity | rewrite IH; reflexivity]. Qed.

Lemma append_inj_r (a b s : string) : (a ++ s = b ++ s)%string -> a = b.
Proof.
  revert b. induction a as [|c a IH]; intros b Heq.
  - destruct b as [|c' b]; [reflexivity|]. exfalso.
    apply (f_equal String.length) in Heq. simpl in Heq. rewrite append_length in Heq. lia.
  - destruct b as [|c' b].
    + exfalso. apply (f_equal String.length) in Heq. simpl in Heq.
      rewrite append_length in Heq. lia.
    + simpl in Heq. inversion Heq; subst. f_equal. apply IH. assumption.
Qed.

Lemma append_assoc (a b c : string) : ((a ++ b) ++ c = a ++ (b ++ c))%string.
Proof. induction a as [|x a IH]; simpl; [reflexivity | rewrite IH; reflexivity]. Qed.

(** C2: the text of the DELETE statement is not the same for two choices of
    the ids, and the text of the similarity query is not the same for two
    choices of the query embedding: both values are written into the statement
    instead of being passed as parameters. *)
Theorem query_text_depends_on_values `{Env} :
  (forall (s : Pgvector.PgvectorDocumentStore) (id1 id2 : string),
      id1 <> id2 ->
      as_string (Pgvector.delete_sql s [id1]) <> as_string (Pgvector.delete_sql s [id2]))
  /\ (forall (s : Pgvector.PgvectorDocumentStore) (f : string) (q1 q2 : list float)
            (where_ : Composed) (top_k : Z),
         Pgvector.query_embedding_for_postgres q1
         <> Pgvector.query_embedding_for_postgres q2 ->
         as_string (Pgvector.embedding_sql s f q1 where_ top_k)
         <> as_string (Pgvector.embedding_sql s f q2 where_ top_k)).
Proof.
  split.
  - intros s id1 id2 Hne Heq. apply Hne.
    unfold Pgvector.delete_sql in Heq. cbn [as_string part_as_string map join] in Heq.
    repeat (apply append_inj_l in Heq).
    change (("'" ++ id1 ++ "'") ++ ")" ++ "" = ("'" ++ id2 ++ "'") ++ ")" ++ "")%string
      in Heq.
    apply append_inj_r in Heq. apply (append_inj_l "'") in Heq.
    apply append_inj_r in Heq. exact Heq.
  - intros s f q1 q2 where_ top_k Hne Heq. apply Hne.
    unfold Pgvector.embedding_sql in Heq.
    rewrite !as_string_app in Heq. cbn [as_string part_as_string] in Heq.
    apply append_inj_r in Heq. apply (append_inj_l "SELECT *, ") in Heq.
    apply append_inj_r in Heq.
    unfold Pgvector.score_definition in Heq.
    destruct (String.eqb f "cosine_similarity");
      [|destruct (String.eqb f "inner_product")];
      apply append_inj_l in Heq; apply append_inj_r in Heq; exact Heq.
Qed.

Lemma query_text_depends_on_values_witness :
  as_string (Pgvector.delete_sql
               (Examples.pg_store "exact_nearest_neighbor" "cosine_similarity") ["a"])
  <> as_string (Pgvector.delete_sql
                  (Examples.pg_store "exact_nearest_neighbor" "cosine_similarity")
                  ["x'); DROP TABLE haystack_documents; --"]).
Proof.
  apply (proj1 (@query_text_depends_on_values Examples.example_env)).
  discriminate.
Defined.

(** ** Filters *)

(** A filter that is an empty mapping has neither key, yet the pgvector
    store raises nothing and queries the backend; a filter without the
    two keys makes it raise [ValueError]; the Azure store does not look at
    the filter at all. *)
Lemma filter_without_keys_is_not_refused :
  let w := Examples.pg_world
             (Examples.pg_store "exact_nearest_neighbor" "cosine_similarity")
             (Examples.pg_backend [Examples.row "a" (Some "text") [] None] [] []) in
  let wz := Examples.az_world (Examples.az_store None (Some []))
              (Examples.az_backend ["id"; "content"; "embedding"] [] []) in
  is_raise (fst (@Pgvector.filter_documents Examples.example_env (VDict []) w)) = false
  /\ pg_log (db (snd (@Pgvector.filter_documents Examples.example_env (VDict []) w))) <> []
  /\ fst (@Pgvector.filter_documents Examples.example_env
            (VDict [("field", VStr "meta.name")]) w) = Raise ValueError
  /\ is_raise (fst (AzureAISearch.filter_documents
                      (VDict [("field", VStr "meta.name")]) wz)) = false
  /\ az_log (db (snd (AzureAISearch.filter_documents
                        (VDict [("field", VStr "meta.name")]) wz))) <> [].
Proof. vm_compute. repeat split; discriminate. Qed.

(** C5 (amended): a filter that is a non-empty mapping without the key
    ["operator"] and without the key ["conditions"] makes the pgvector
    [filter_documents] raise [ValueError], and nothing has been sent to the
    backend: the world is the one before the call. *)
Theorem filter_without_keys_raises `{Env} (d : list (string * value)) (w : PgWorld) :
  d <> [] ->
  dict_mem "operator" d = false ->
  dict_mem "conditions" d = false ->
  Pgvector.filter_documents (VDict d) w = (Raise ValueError, w).
Proof.
  intros Hne Hop Hcond. unfold Pgvector.filter_documents.
  destruct d as [|kv d]; [congruence|].
  cbn [truthy Pgvector.is_dict Pgvector.key_in negb].
  rewrite Hop, Hcond. reflexivity.
Qed.

Lemma filter_without_keys_raises_witness :
  let w := Examples.pg_world
             (Examples.pg_store "exact_nearest_neighbor" "cosine_similarity")
             (Examples.pg_backend [] [] []) in
  @Pgvector.filter_documents Examples.example_env
    (VDict [("field", VStr "meta.name"); ("value", VInt 1)]) w
  = (Raise ValueError, w).
Proof.
  intros w.
  apply (@filter_without_keys_raises Examples.example_env); [discriminate | reflexivity..].
Defined.

(** ** Overwriting *)


(** C3, on the Azure store: a stored document has the metadata field
    ["k"]; it is overwritten with a document that has no metadata.  The
    call reports one document written, and the stored document still has
    the value of ["k"]: the old and the new fields are merged. *)
Theorem azure_overwrite_merges_with_stored_document :
  let old := [("id", VStr "a"); ("content", VStr "old");
              ("embedding", VList [VFloat 1%float; VFloat 2%float]); ("k", VStr "v")] in
  let w := Examples.az_world
             (Examples.az_store (Some [("k", AzureAISearch.T_str)]) None)
             (Examples.az_backend ["id"; "content"; "embedding"; "k"] [old] []) in
  let incoming := Examples.doc (IdStr "a") (Some "new") [] None in
  let w' := snd (AzureAISearch.write_documents [ADocument incoming] OVERWRITE w) in
  fst (AzureAISearch.write_documents [ADocument incoming] OVERWRITE w) = Ok 1%nat
  /\ dict_get "k" (meta incoming) = None
  /\ exists stored, all_docs (db w') = [stored]
                    /\ dict_get "content" stored = Some (VStr "new")
                    /\ dict_get "k" stored = Some (VStr "v").
Proof.
  vm_compute. split; [reflexivity|]. split; [reflexivity|].
  eexists. split; [reflexivity|]. split; reflexivity.
Qed.

(** ** Documents without an embedding *)

(** The pgvector store keeps no placeholder: a row without an embedding
    is read as a document without an embedding. *)
Lemma pgvector_reads_no_embedding (r : record) :
  row_embedding (rec_row r) = None -> embedding (Pgvector.from_pg_record r) = None.
Proof. intros Hr. exact Hr. Qed.

Lemma floats_eqb_dummy (n : nat) :
  floats_eqb (repeat (-10.0)%float n) (repeat (-10.0)%float n) = true.
Proof.
  induction n as [|n IH]; [reflexivity|].
  change (float_eqb (-10.0)%float (-10.0)%float
          && floats_eqb (repeat (-10.0)%float n) (repeat (-10.0)%float n) = true).
  rewrite IH. reflexivity.
Qed.

Lemma floats_of_value_of_floats (v : list float) :
  AzureAISearch.floats_of_value (AzureAISearch.value_of_floats v) = Some v.
Proof.
  unfold AzureAISearch.floats_of_value, AzureAISearch.value_of_floats.
  induction v as [|x v IH]; simpl; [reflexivity|]. rewrite IH. reflexivity.
Qed.

(** In the instance that wrote the placeholder, it is read back as "no
    embedding". *)
Lemma azure_reads_placeholder_as_none (azure_doc : azure_doc) (w : AzWorld) n i c :
  AzureAISearch._dummy_vector (self w) = Some (repeat (-10.0)%float n) ->
  dict_get "embedding" azure_doc
  = Some (AzureAISearch.value_of_floats (repeat (-10.0)%float n)) ->
  dict_get "id" azure_doc = Some i ->
  dict_get "content" azure_doc = Some c ->
  exists d, AzureAISearch.convert_one azure_doc w = (Ok d, w) /\ embedding d = None.
Proof.
  intros Hd He Hi Hc. unfold AzureAISearch.convert_one, bind, get_self.
  rewrite He. cbn beta iota. rewrite Hd.
  unfold AzureAISearch.differs_from. rewrite floats_of_value_of_floats.
  rewrite floats_eqb_dummy. cbn [negb ret]. rewrite Hi, Hc.
  eexists. split; reflexivity.
Qed.

(** C6, on the Azure store: the index holds a document written without an
    embedding, that is, with the placeholder vector; a store instance that
    has not itself written such a document reads the index.  The read
    raises [AttributeError] instead of returning the document without an
    embedding: [_dummy_vector] is set only by a write. *)
Theorem azure_read_of_placeholder_raises :
  let stored := [("id", VStr "a"); ("content", VStr "text");
                 ("embedding", VList [VFloat (-10.0)%float; VFloat (-10.0)%float])] in
  let w := Examples.az_world (Examples.az_store None None)
             (Examples.az_backend ["id"; "content"; "embedding"] [stored] []) in
  AzureAISearch._dummy_vector (self w) = None
  /\ fst (AzureAISearch.filter_documents VNone w) = Raise AttributeError.
Proof. vm_compute. split; reflexivity. Qed.

(** ** Ordering of the results of a vector search *)

Lemma pg_leb_total (a b : option score_t) : pg_leb a b = true \/ pg_leb b a = true.
Proof.
  destruct a as [x|], b as [y|]; simpl; auto.
  destruct (Qlt_le_dec y x) as [Hlt | Hle].
  - right. apply Qle_bool_iff. apply Qlt_le_weak. exact Hlt.
  - left. apply Qle_bool_iff. exact Hle.
Qed.

#[local] Instance rec_le_total : Total rec_le.
Proof. intros a b. apply pg_leb_total. Qed.

#[local] Instance rec_ge_total : Total rec_ge.
Proof. intros a b. unfold rec_ge, pg_ge. destruct (pg_leb_total (score_of a) (score_of b)); auto. Qed.

Lemma Sorted_firstn {A} (R : A -> A -> Prop) (n : nat) (l : list A) :
  Sorted R l -> Sorted R (firstn n l).
Proof.
  revert l. induction n as [|n IH]; intros l Hs; simpl; [constructor|].
  destruct l as [|x l]; [constructor|].
  inversion Hs as [|? ? Hs' Hhd]; subst. constructor; [apply IH; exact Hs'|].
  destruct n; simpl; [constructor|].
  destruct l as [|y l]; [constructor|]. inversion Hhd; subst. constructor. assumption.
Qed.

Lemma Sorted_map {A B} (f : A -> B) (R : A -> A -> Prop) (R' : B -> B -> Prop)
  (l : list A) :
  (forall x y, R x y -> R' (f x) (f y)) -> Sorted R l -> Sorted R' (map f l).
Proof.
  intros Hf. induction 1 as [|x l Hs IH Hhd]; simpl; constructor; [exact IH|].
  destruct Hhd; simpl; constructor. auto.
Qed.

Lemma order_by_sorted (o : sort_order) (l : list record) :
  Sorted (match o with ASC => rec_le | DESC => rec_ge end) (order_by o l).
Proof. destruct o; simpl; apply Sorted_merge_sort; apply _. Qed.

(** The records returned by the similarity query come in the order asked
    for. *)
Lemma select_scored_sorted `{Env} (text : string) (p : params) (e : score_expr)
  (q : list float) (wc : option where_clause) (o : sort_order) (k : Z)
  (b : PgBackend) rs b' :
  Postgres.execute text p (SelectScored e q wc o k) b = (PgOk rs, b') ->
  exists l, rs = RsRecords l
            /\ Sorted (match o with ASC => rec_le | DESC => rec_ge end) l.
Proof.
  unfold Postgres.execute, round_trip. destruct (next_fault _) as [f b0].
  destruct f; [discriminate|]. simpl.
  destruct (pg_table_ b0) as [t|]; [|discriminate].
  destruct (k <? 0)%Z; [discriminate|].
  intros Hx. inversion Hx; subst. eexists. split; [reflexivity|].
  apply Sorted_firstn. apply order_by_sorted.
Qed.

(** ** The HNSW index *)

Section HandleHnsw.
Context `{Env}.
Import Pgvector.
Local Open Scope py_scope.

Variable s : PgvectorDocumentStore.
Variable conn : Method nat.
Hypothesis conn_returns : forall w : PgWorld, self w = s -> exists c, conn w = (Ok c, w).

Lemma conn_step {A} (k : Method A) (w : PgWorld) :
  calm s w -> bind conn (fun _ => k) w = k w.
Proof. intros [Hs _]. destruct (conn_returns w Hs) as [c Hc]. apply (bind_ok _ _ _ _ _ Hc). Qed.

Lemma exec_step {A} (q : Composed) (p : params) (st : stmt) (k : result_set -> Method A)
  (w : PgWorld) :
  calm s w ->
  bind (Cursor_execute q p st) k w
  = match exec st (with_log (EvExecute (as_string q) p st :: pg_log (db w)) (db w)) with
    | (PgOk rs, b) => k rs (with_db b w)
    | (PgErr _, b) => (Raise DocumentStoreError, with_db b w)
    end.
Proof.
  intros [_ Hno]. unfold bind, Cursor_execute, set_db_result, Postgres.execute, round_trip,
    next_fault. cbn [pg_faults with_log]. rewrite Hno.
  destruct (exec st _) as [[rs|e] b]; reflexivity.
Qed.

Lemma get_self_step {A} (k : PgvectorDocumentStore -> Method A) (w : PgWorld) :
  bind get_self k w = k (self w) w.
Proof. reflexivity. Qed.

Lemma index_exists_cons (t i : string) (m : index_method) (l : list pg_index) :
  Postgres.index_exists t i ({| ix_table := t; ix_name := i; ix_method := m |} :: l) = true.
Proof. unfold Postgres.index_exists. simpl. rewrite !String.eqb_refl. reflexivity. Qed.

Lemma index_name_taken_dropped (i : string) (l : list pg_index) :
  index_name_taken i (List.filter (fun ix => negb (String.eqb (ix_name ix) i)) l) = false.
Proof.
  unfold index_name_taken. induction l as [|x l IH]; simpl; [reflexivity|].
  destruct (String.eqb (ix_name x) i) eqn:Hx; simpl; [exact IH|].
  rewrite Hx. simpl. exact IH.
Qed.

(** One call of [_handle_hnsw] when the flag [hnsw_recreate_index_if_exists]
    is off. *)
Lemma handle_hnsw_run (w : PgWorld) :
  calm s w ->
  hnsw_recreate_index_if_exists s = false ->
  pg_table_ (db w) <> None ->
  str_in (vector_function s) VALID_VECTOR_FUNCTIONS = true ->
  exists w1,
    _handle_hnsw_with conn w = (Ok tt, w1)
    /\ calm s w1
    /\ pg_table_ (db w1) = pg_table_ (db w)
    /\ Postgres.index_exists (table_name s) (hnsw_index_name s) (pg_indexes (db w1)) = true
    /\ (if Postgres.index_exists (table_name s) (hnsw_index_name s) (pg_indexes (db w))
        then builds (pg_log (db w1)) = builds (pg_log (db w))
             /\ pg_indexes (db w1) = pg_indexes (db w)
             /\ warnings w1 = HNSW_EXISTS_WARNING :: warnings w
        else builds (pg_log (db w1)) = Datatypes.S (builds (pg_log (db w)))
             /\ warnings w1 = warnings w).
Proof.
  intros Hcalm Hrec Htab Hvf. unfold _handle_hnsw_with.
  rewrite get_self_step. destruct Hcalm as [Hs Hno]. rewrite Hs.
  (* the session setting *)
  assert (Hef : exists w0,
             (match hnsw_ef_search s with
              | Some ef =>
                  if (ef =? 0)%Z then ret tt
                  else conn ;;;
                       Cursor_execute [SQL "SET hnsw.ef_search = "; SQLLiteral (VInt ef)]
                         NoParams (SetHnswEfSearch ef) ;;; ret tt
              | None => ret tt
              end) w = (Ok tt, w0)
             /\ calm s w0 /\ pg_table_ (db w0) = pg_table_ (db w)
             /\ pg_indexes (db w0) = pg_indexes (db w)
             /\ builds (pg_log (db w0)) = builds (pg_log (db w))
             /\ warnings w0 = warnings w).
  { destruct (hnsw_ef_search s) as [ef|].
    - destruct (ef =? 0)%Z.
      + exists w. unfold calm. auto 10.
      + rewrite conn_step by (split; assumption).
        rewrite exec_step by (split; assumption). cbn [exec].
        eexists. split; [reflexivity|]. unfold calm. cbn. auto 10.
    - exists w. unfold calm. auto 10. }
  destruct Hef as (w0 & Hef & Hcalm0 & Ht0 & Hi0 & Hb0 & Hw0).
  rewrite (bind_ok _ _ _ _ _ Hef).
  rewrite conn_step by exact Hcalm0.
  rewrite exec_step by exact Hcalm0. cbn [exec].
  set (w1 := with_db _ w0).
  assert (Hcalm1 : calm s w1) by (destruct Hcalm0; split; cbn; assumption).
  cbn [pg_indexes with_log]. rewrite Hi0.
  destruct (Postgres.index_exists (table_name s) (hnsw_index_name s) (pg_indexes (db w)))
    eqn:Hex.
  - rewrite Hrec. cbn [andb negb]. unfold logger_warning.
    eexists. split; [reflexivity|]. cbn.
    destruct Hcalm0 as [Hs0 Hno0].
    repeat split; try assumption; try congruence.
    rewrite Hi0. exact Hex.
  - cbn [andb].
    rewrite conn_step by exact Hcalm1.
    rewrite exec_step by exact Hcalm1. cbn [exec].
    set (w2 := with_db _ w1).
    assert (Hcalm2 : calm s w2) by (destruct Hcalm1; split; cbn; assumption).
    unfold _create_hnsw_index_with. rewrite get_self_step.
    destruct Hcalm2 as [Hs2 Hno2]. rewrite Hs2.
    assert (Hops : exists pg_ops,
               dict_get (vector_function s) VECTOR_FUNCTION_TO_POSTGRESQL_OPS = Some pg_ops).
    { unfold str_in, VALID_VECTOR_FUNCTIONS in Hvf. simpl in Hvf. simpl.
      destruct (String.eqb (vector_function s) "cosine_similarity"); [eauto|].
      destruct (String.eqb (vector_function s) "inner_product"); [eauto|].
      destruct (String.eqb (vector_function s) "l2_distance"); [eauto|discriminate]. }
    destruct Hops as [pg_ops ->]. cbv zeta.
    rewrite conn_step by (split; assumption).
    rewrite exec_step by (split; assumption). cbn [exec].
    assert (Htab2 : pg_table_ (db w2) = pg_table_ (db w)) by (cbn; exact Ht0).
    cbn [pg_table_ with_log]. cbn [pg_table_ with_log] in Htab2.
    destruct (pg_table_ (db w2)) as [t|] eqn:Ht2; [|congruence].
    cbn [pg_indexes with_log].
    assert (Hix2 : pg_indexes (db w2)
                   = List.filter (fun ix => negb (String.eqb (ix_name ix) (hnsw_index_name s)))
                            (pg_indexes (db w0))) by reflexivity.
    rewrite Hix2, index_name_taken_dropped.
    eexists. split; [reflexivity|].
    split; [split; [exact Hs2 | exact Hno2]|].
    split.
    { cbn [db with_db pg_table_ with_indexes with_log]. rewrite Ht2. exact Htab2. }
    split.
    { cbn [db with_db pg_indexes with_indexes with_log]. apply index_exists_cons. }
    split.
    { cbn [db with_db pg_log with_indexes with_log]. unfold builds.
      cbn [List.filter is_hnsw_build List.length]. f_equal.
      unfold w2, w1. cbn [db with_db pg_log with_indexes with_log exec snd].
      cbn [List.filter is_hnsw_build]. exact Hb0. }
    cbn [warnings with_db]. unfold w2, w1. cbn [warnings with_db]. exact Hw0.
Qed.

End HandleHnsw.

(** C8: with the flag [hnsw_recreate_index_if_exists] off, two calls of
    [_handle_hnsw] in a row build the HNSW index at most once; the second
    call builds nothing, leaves the indexes as they are and logs the
    warning; when the index exists before the first call, neither call
    builds it. *)
Theorem handle_hnsw_twice_builds_at_most_once `{Env} (w : PgWorld) :
  stable w ->
  Pgvector.hnsw_recreate_index_if_exists (self w) = false ->
  pg_faults (db w) = [] ->
  pg_table_ (db w) <> None ->
  Pgvector.str_in (Pgvector.vector_function (self w)) Pgvector.VALID_VECTOR_FUNCTIONS = true ->
  exists w1 w2,
    Pgvector._handle_hnsw w = (Ok tt, w1)
    /\ Pgvector._handle_hnsw w1 = (Ok tt, w2)
    /\ (builds (pg_log (db w2)) <= Datatypes.S (builds (pg_log (db w))))%nat
    /\ builds (pg_log (db w2)) = builds (pg_log (db w1))
    /\ pg_indexes (db w2) = pg_indexes (db w1)
    /\ warnings w2 = Pgvector.HNSW_EXISTS_WARNING :: warnings w1
    /\ (Postgres.index_exists (Pgvector.table_name (self w))
          (Pgvector.hnsw_index_name (self w)) (pg_indexes (db w)) = true ->
        builds (pg_log (db w2)) = builds (pg_log (db w))
        /\ pg_indexes (db w2) = pg_indexes (db w)).
Proof.
  intros Hst Hrec Hno Htab Hvf.
  assert (Hconn : forall w0 : PgWorld,
             self w0 = self w -> exists c, Pgvector.connection w0 = (Ok c, w0)).
  { intros w0 Hs. apply connection_stable. apply (stable_self w); assumption. }
  destruct (handle_hnsw_run (self w) Pgvector.connection Hconn w
              (conj eq_refl Hno) Hrec Htab Hvf)
    as (w1 & Hrun1 & Hcalm1 & Ht1 & Hex1 & Hcase1).
  assert (Htab1 : pg_table_ (db w1) <> None) by congruence.
  destruct (handle_hnsw_run (self w) Pgvector.connection Hconn w1 Hcalm1 Hrec Htab1 Hvf)
    as (w2 & Hrun2 & Hcalm2 & Ht2 & Hex2 & Hcase2).
  rewrite Hex1 in Hcase2. destruct Hcase2 as (Hb2 & Hi2 & Hw2).
  exists w1, w2. split; [exact Hrun1|]. split; [exact Hrun2|].
  split.
  { rewrite Hb2.
    destruct (Postgres.index_exists _ _ (pg_indexes (db w))).
    - destruct Hcase1 as (-> & _). lia.
    - destruct Hcase1 as (-> & _). lia. }
  split; [exact Hb2|]. split; [exact Hi2|]. split; [exact Hw2|].
  intros Hex. rewrite Hex in Hcase1. destruct Hcase1 as (Hb1 & Hi1 & _).
  split; congruence.
Qed.

Lemma handle_hnsw_twice_builds_at_most_once_witness :
  let s := Pgvector.set_connection (Some 0%nat)
             (Pgvector.set_schema_is_initialized true
                (Examples.pg_store "hnsw" "cosine_similarity")) in
  let w := Examples.pg_world s (Examples.pg_backend [] [] []) in
  exists w1 w2,
    @Pgvector._handle_hnsw Examples.example_env w = (Ok tt, w1)
    /\ @Pgvector._handle_hnsw Examples.example_env w1 = (Ok tt, w2)
    /\ (builds (pg_log (db w2)) <= Datatypes.S (builds (pg_log (db w))))%nat
    /\ builds (pg_log (db w2)) = builds (pg_log (db w1))
    /\ pg_indexes (db w2) = pg_indexes (db w1)
    /\ warnings w2 = Pgvector.HNSW_EXISTS_WARNING :: warnings w1
    /\ (Postgres.index_exists (Pgvector.table_name (self w))
          (Pgvector.hnsw_index_name (self w)) (pg_indexes (db w)) = true ->
        builds (pg_log (db w2)) = builds (pg_log (db w))
        /\ pg_indexes (db w2) = pg_indexes (db w)).
Proof.
  intros s w. apply (@handle_hnsw_twice_builds_at_most_once Examples.example_env w).
  - split; [exists 0%nat; reflexivity | reflexivity].
  - reflexivity.
  - reflexivity.
  - discriminate.
  - reflexivity.
Defined.

(** * Further properties of the two stores *)

(** ** Attribute lookup on the pgvector store *)

Lemma str_in_In (x : string) (l : list string) : Pgvector.str_in x l = true -> In x l.
Proof.
  unfold Pgvector.str_in. intros Hx. apply existsb_exists in Hx as (y & Hy & E).
  apply String.eqb_eq in E. subst. exact Hy.
Qed.

(** The only name of the class that starts with ["_connected_"] is
    [_connected_write_documents]. *)
Lemma connected_name_is_not_bound (item : string) :
  item <> "write_documents" ->
  Pgvector.str_in ("_connected_" ++ item) Pgvector.class_attributes = false
  /\ Pgvector.str_in ("_connected_" ++ item) Pgvector.instance_attributes = false.
Proof.
  intros Hne. split.
  - destruct (Pgvector.str_in _ Pgvector.class_attributes) eqn:Hin; [|reflexivity].
    exfalso. apply str_in_In in Hin. simpl in Hin.
    repeat (destruct Hin as [Hin | Hin]; [try discriminate Hin|]); try contradiction.
    apply Hne. inversion Hin. reflexivity.
  - destruct (Pgvector.str_in _ Pgvector.instance_attributes) eqn:Hin; [|reflexivity].
    exfalso. apply str_in_In in Hin. simpl in Hin.
    repeat (destruct Hin as [Hin | Hin]; [discriminate Hin|]). contradiction.
Qed.

(** X1: on a pgvector store, the lookup of a name that is bound neither in
    the class nor on the instance, other than [write_documents], ends in
    [RecursionError], whatever room the call stack has: [__getattr__] looks
    up ["_connected_" + item] on the same instance, which brings it back to
    [__getattr__].  The lookup of [write_documents] returns the wrapper
    around [_connected_write_documents]. *)
Theorem getattr_of_unknown_name_recurses (inherited : string -> bool) :
  (forall x, inherited ("_connected_" ++ x) = false) ->
  (forall depth item,
      Pgvector.has_attribute inherited item = false ->
      item <> "write_documents" ->
      Pgvector.getattr inherited depth item = Raise RecursionError)
  /\ (forall depth,
         Pgvector.has_attribute inherited "write_documents" = false ->
         Pgvector.getattr inherited (S depth) "write_documents"
         = Ok (Pgvector.ConnectedMethod "_connected_write_documents")).
Proof.
  intros Hinh. split.
  - induction depth as [|d IH]; intros item Hno Hne.
    + simpl. rewrite Hno. reflexivity.
    + assert (Hp : Pgvector.has_attribute inherited ("_connected_" ++ item) = false).
      { unfold Pgvector.has_attribute.
        destruct (connected_name_is_not_bound item Hne) as [-> ->]. simpl. apply Hinh. }
      assert (Hq : "_connected_" ++ item <> "write_documents") by discriminate.
      pose proof (IH _ Hp Hq) as E.
      simpl in *. rewrite Hno, E. reflexivity.
  - intros depth Hno. simpl. rewrite Hno.
    destruct depth; reflexivity.
Qed.

Lemma getattr_of_unknown_name_recurses_witness :
  let inherited := fun x => Pgvector.str_in x ["__class__"; "__dict__"; "__doc__";
                                                "__module__"; "__repr__"; "__eq__"] in
  Pgvector.getattr inherited Pgvector.recursion_limit "embedding_retrieval"
  = Raise RecursionError.
Proof.
  intros inherited.
  apply (proj1 (getattr_of_unknown_name_recurses inherited (fun x => eq_refl))).
  - reflexivity.
  - discriminate.
Defined.

(** ** Reading from the pgvector store *)

Section PgvectorReads.
Context `{Env}.
Import Pgvector.
Local Open Scope py_scope.

Lemma same_store_refl (b : PgBackend) : same_store b b.
Proof. repeat split. Qed.

Lemma same_store_trans (a b c : PgBackend) :
  same_store a b -> same_store b c -> same_store a c.
Proof. unfold same_store. intros (? & ? & ?) (? & ? & ?). repeat split; congruence. Qed.

Lemma exec_query (s : stmt) (b : PgBackend) : is_query s = true -> snd (exec s b) = b.
Proof.
  destruct s; simpl; try discriminate; intros _;
    repeat match goal with
           | |- context [match ?x with _ => _ end] => destruct x; simpl
           end; reflexivity.
Qed.

Lemma next_fault_store (b : PgBackend) : same_store b (snd (next_fault b)).
Proof. unfold next_fault. destruct (pg_faults b); repeat split. Qed.

Lemma execute_query (text : string) (p : params) (s : stmt) (b : PgBackend) :
  is_query s = true -> same_store b (snd (Postgres.execute text p s b)).
Proof.
  intros Hs. unfold Postgres.execute, round_trip.
  pose proof (next_fault_store (with_log (EvExecute text p s :: pg_log b) b)) as Hf.
  destruct (next_fault _) as [f b1]. simpl in Hf.
  destruct f; simpl; [exact Hf|]. rewrite exec_query by exact Hs. exact Hf.
Qed.

Ltac reads_side := try exact same_store_refl; try exact same_store_trans.

Ltac reads_step :=
  first
    [ apply keeps_ret
    | apply keeps_raise
    | apply keeps_lift
    | apply keeps_get_self
    | apply keeps_connection_with
    | apply keeps_Cursor_execute; intros; apply execute_query; reflexivity
    | apply keeps_bind; [ | | intros ?] ]; reads_side.

Ltac reads_auto :=
  repeat first
    [ reads_step
    | match goal with
      | |- keeps _ (let _ := _ in _) => cbv zeta
      | |- keeps _ (if ?c then _ else _) => destruct c
      | |- keeps _ (match ?x with _ => _ end) => destruct x
      end ].

Lemma keeps_filter_documents (filters : value) : keeps same_store (filter_documents filters).
Proof. unfold filter_documents, connection. reads_auto. Qed.

Lemma keeps_keyword_retrieval (query : string) (filters : value) (top_k : Z) :
  keeps same_store (_keyword_retrieval query filters top_k).
Proof. unfold _keyword_retrieval, connection. reads_auto. Qed.

Lemma keeps_embedding_retrieval (q : list float) (filters : value) (top_k : Z)
  (f : option string) :
  keeps same_store (_embedding_retrieval q filters top_k f).
Proof. unfold _embedding_retrieval, connection. reads_auto. Qed.

Lemma keeps_count_documents : keeps same_store count_documents.
Proof. unfold count_documents, connection. reads_auto. Qed.

End PgvectorReads.

(** X2: once the schema is initialised and the instance holds a
    connection, the four reading methods of the pgvector store change
    neither the rows, nor the indexes, nor the instance, whether they return
    or raise. *)
Theorem reads_leave_the_store_unchanged `{Env} (w : PgWorld) :
  stable w ->
  (forall filters,
      let w' := snd (Pgvector.filter_documents filters w) in
      self w' = self w /\ same_store (db w) (db w'))
  /\ (forall query filters top_k,
         let w' := snd (Pgvector._keyword_retrieval query filters top_k w) in
         self w' = self w /\ same_store (db w) (db w'))
  /\ (forall query_embedding filters top_k vector_function,
         let w' := snd (Pgvector._embedding_retrieval query_embedding filters top_k
                          vector_function w) in
         self w' = self w /\ same_store (db w) (db w'))
  /\ (let w' := snd (Pgvector.count_documents w) in
      self w' = self w /\ same_store (db w) (db w')).
Proof.
  intros Hw. split; [|split; [|split]].
  - intros filters. apply keeps_filter_documents. exact Hw.
  - intros query filters top_k. apply keeps_keyword_retrieval. exact Hw.
  - intros q filters top_k f. apply keeps_embedding_retrieval. exact Hw.
  - apply keeps_count_documents. exact Hw.
Qed.

Lemma reads_leave_the_store_unchanged_witness :
  let w := Examples.pg_world
             (Pgvector.set_connection (Some 0%nat)
                (Pgvector.set_schema_is_initialized true
                   (Examples.pg_store "exact_nearest_neighbor" "cosine_similarity")))
             (Examples.pg_backend [Examples.row "a" (Some "x") [] None] [] []) in
  let w' := snd (@Pgvector.count_documents Examples.example_env w) in
  fst (@Pgvector.count_documents Examples.example_env w) = Ok 1%nat
  /\ self w' = self w /\ same_store (db w) (db w').
Proof.
  intros w w'. split; [reflexivity|].
  apply (proj2 (proj2 (proj2 (@reads_leave_the_store_unchanged Examples.example_env w
                                (conj (ex_intro _ 0%nat eq_refl) eq_refl))))).
Defined.

(** ** What the retrievals return *)

Lemma firstn_length_le {A} (n : nat) (l : list A) : (List.length (firstn n l) <= n)%nat.
Proof. rewrite length_firstn. lia. Qed.

Lemma Forall_firstn_of {A} (P : A -> Prop) (n : nat) (l : list A) :
  Forall P l -> Forall P (firstn n l).
Proof.
  intros Hl. revert n. induction Hl as [|x l Hx Hl IH]; intros [|n]; simpl; constructor; auto.
Qed.

Lemma Forall_order_by (P : record -> Prop) (o : sort_order) (l : list record) :
  Forall P l -> Forall P (order_by o l).
Proof.
  intros Hl. destruct o; simpl;
    (eapply Permutation.Permutation_Forall; [|exact Hl]);
    symmetry; apply merge_sort_Permutation.
Qed.

Lemma keyword_records_scored `{Env} (language query : string) (rows : list pg_row) :
  Forall (fun r => (exists s, rec_score r = Some (Some s))
                   /\ row_content (rec_row r) <> None)
         (keyword_records language query rows).
Proof.
  unfold keyword_records. apply List.Forall_forall. intros r Hr.
  apply in_flat_map in Hr as (x & _ & Hr).
  destruct (row_content x) as [c|] eqn:Hc; [|destruct Hr].
  destruct (ts_rank_cd language c query) as [s|]; [|destruct Hr].
  destruct Hr as [<- | []]. simpl. split; [eauto | congruence].
Qed.

(** The records of the full-text query: sorted by descending rank, at most
    as many as the limit, each with a rank and a content. *)
Lemma select_keyword_records `{Env} (text : string) (p : params) (language query : string)
  (wc : option where_clause) (k : Z) (b : PgBackend) rs b' :
  Postgres.execute text p (SelectKeyword language query wc k) b = (PgOk rs, b') ->
  exists l, rs = RsRecords l
            /\ Sorted rec_ge l
            /\ (0 <= k)%Z /\ (List.length l <= Z.to_nat k)%nat
            /\ Forall (fun r => (exists s, rec_score r = Some (Some s))
                                /\ row_content (rec_row r) <> None) l.
Proof.
  unfold Postgres.execute, round_trip. destruct (next_fault _) as [f b0].
  destruct f; [discriminate|]. simpl.
  destruct (pg_table_ b0) as [t|]; [|discriminate].
  destruct (k <? 0)%Z eqn:Hk; [discriminate|].
  intros Hx. inversion Hx; subst. eexists. split; [reflexivity|].
  split; [apply Sorted_firstn; apply (order_by_sorted DESC)|].
  split; [apply Z.ltb_ge in Hk; exact Hk|].
  split; [apply firstn_length_le|].
  apply Forall_firstn_of. apply (Forall_order_by _ DESC). apply keyword_records_scored.
Qed.

(** X3: when [_keyword_retrieval] returns, the query was not empty and
    [top_k] not negative; it returns at most [top_k] documents, by
    descending score, and each of them has a score and a content. *)
Theorem keyword_retrieval_result `{Env} (query : string) (filters : value) (top_k : Z)
  (w : PgWorld) docs w' :
  Pgvector._keyword_retrieval query filters top_k w = (Ok docs, w') ->
  query <> ""
  /\ (0 <= top_k)%Z
  /\ (List.length docs <= Z.to_nat top_k)%nat
  /\ Sorted pg_ge (map score docs)
  /\ Forall (fun d => score d <> None /\ content d <> None) docs.
Proof.
  intros Hrun. unfold Pgvector._keyword_retrieval in Hrun.
  destruct (String.eqb query "") eqn:Hq; [discriminate Hrun|].
  apply String.eqb_neq in Hq. split; [exact Hq|].
  apply bind_inv in Hrun as [(s & w0 & H0 & Hrun) | (e & H0 & Hx)]; [|discriminate Hx].
  apply bind_inv in Hrun as [([[sql ps] wc] & w1 & H1 & Hrun) | (e & H1 & Hx)];
    [|discriminate Hx].
  apply bind_inv in Hrun as [(c & w2 & H2 & Hrun) | (e & H2 & Hx)]; [|discriminate Hx].
  apply bind_inv in Hrun as [(rs & w3 & H3 & Hrun) | (e & H3 & Hx)]; [|discriminate Hx].
  inversion Hrun; subst docs w'; clear Hrun.
  unfold Pgvector.Cursor_execute, Pgvector.set_db_result in H3.
  destruct (Postgres.execute _ _ _ (db w2)) as [[rs'|e] b] eqn:He; [|discriminate H3].
  inversion H3; subst rs' w3; clear H3.
  apply select_keyword_records in He as (l & -> & Hsorted & Hk & Hlen & Hall).
  unfold Pgvector._from_pg_to_haystack_documents, Pgvector.records_of.
  split; [exact Hk|]. split; [rewrite length_map; exact Hlen|].
  split.
  - rewrite map_map. apply (Sorted_map _ rec_ge); [auto | exact Hsorted].
  - apply List.Forall_forall. intros d Hd. apply in_map_iff in Hd as (r & <- & Hr).
    rewrite List.Forall_forall in Hall. destruct (Hall r Hr) as [[sc Hs] Hc].
    simpl. unfold score_of. rewrite Hs. split; [discriminate | exact Hc].
Qed.

Lemma keyword_retrieval_result_witness :
  let w := Examples.pg_world
             (Examples.pg_store "exact_nearest_neighbor" "cosine_similarity")
             (Examples.pg_backend
                [Examples.row "a" (Some "x") [] None;
                 Examples.row "b" (Some "y") [] None;
                 Examples.row "c" (Some "x") [] None] [] []) in
  let run := @Pgvector._keyword_retrieval Examples.example_env "x" VNone 1 w in
  let docs := match fst run with Ok l => l | Raise _ => [] end in
  map id docs = [IdStr "a"]
  /\ (List.length docs <= Z.to_nat 1)%nat
  /\ Forall (fun d => score d <> None /\ content d <> None) docs.
Proof.
  intros w run docs.
  assert (Hrun : run = (Ok docs, snd run)) by (vm_compute; reflexivity).
  split; [vm_compute; reflexivity|].
  pose proof (@keyword_retrieval_result Examples.example_env _ _ _ _ _ _ Hrun)
    as (_ & _ & Hlen & _ & Hall).
  split; [exact Hlen | exact Hall].
Defined.

(** The records of the similarity query: at most as many as the limit,
    each with a score exactly when its row has an embedding. *)
Lemma select_scored_records `{Env} (text : string) (p : params) (e : score_expr)
  (q : list float) (wc : option where_clause) (o : sort_order) (k : Z)
  (b : PgBackend) rs b' :
  Postgres.execute text p (SelectScored e q wc o k) b = (PgOk rs, b') ->
  exists l, rs = RsRecords l
            /\ (0 <= k)%Z /\ (List.length l <= Z.to_nat k)%nat
            /\ Forall (fun r => score_of r = None <-> row_embedding (rec_row r) = None) l.
Proof.
  unfold Postgres.execute, round_trip. destruct (next_fault _) as [f b0].
  destruct f; [discriminate|]. simpl.
  destruct (pg_table_ b0) as [t|]; [|discriminate].
  destruct (k <? 0)%Z eqn:Hk; [discriminate|].
  intros Hx. inversion Hx; subst. eexists. split; [reflexivity|].
  split; [apply Z.ltb_ge in Hk; exact Hk|].
  split; [apply firstn_length_le|].
  apply Forall_firstn_of. apply Forall_order_by.
  apply List.Forall_forall. intros r Hr. apply in_map_iff in Hr as (x & <- & _).
  unfold score_of, eval_score. simpl.
  destruct (row_embedding x); split; intros Hn; try discriminate Hn; reflexivity.
Qed.

(** X4: when [_embedding_retrieval] returns, the query embedding was not
    empty and had the dimension of the store, the metric in force was one
    of the three valid ones and [top_k] was not negative; it returns at most
    [top_k] documents, and a returned document has no score exactly when it
    has no embedding. *)
Theorem embedding_retrieval_result `{Env} (query_embedding : list float) (filters : value)
  (top_k : Z) (vector_function : option string) (w : PgWorld) docs w' :
  Pgvector._embedding_retrieval query_embedding filters top_k vector_function w
  = (Ok docs, w') ->
  query_embedding <> []
  /\ Z.of_nat (List.length query_embedding) = Pgvector.embedding_dimension (self w)
  /\ In (effective_vector_function (self w) vector_function)
        Pgvector.VALID_VECTOR_FUNCTIONS
  /\ (0 <= top_k)%Z
  /\ (List.length docs <= Z.to_nat top_k)%nat
  /\ Forall (fun d => score d = None <-> embedding d = None) docs.
Proof.
  intros Hrun. unfold Pgvector._embedding_retrieval in Hrun.
  apply bind_inv in Hrun as [(s & w0 & H0 & Hrun) | (e & H0 & Hx)]; [|discriminate Hx].
  inversion H0; subst s w0; clear H0.
  destruct query_embedding as [|q0 qs]; [discriminate Hrun|].
  split; [discriminate|].
  destruct (Z.of_nat _ =? _)%Z eqn:Hdim; [|discriminate Hrun].
  apply Z.eqb_eq in Hdim. split; [exact Hdim|]. cbn [negb] in Hrun.
  fold (effective_vector_function (self w) vector_function) in Hrun.
  destruct (Pgvector.str_in _ Pgvector.VALID_VECTOR_FUNCTIONS) eqn:Hvf;
    [|discriminate Hrun].
  split; [apply str_in_In; exact Hvf|]. cbn [negb] in Hrun.
  apply bind_inv in Hrun as [([[sql ps] wc] & w1 & H1 & Hrun) | (e & H1 & Hx)];
    [|discriminate Hx].
  apply bind_inv in Hrun as [(c & w2 & H2 & Hrun) | (e & H2 & Hx)]; [|discriminate Hx].
  apply bind_inv in Hrun as [(rs & w3 & H3 & Hrun) | (e & H3 & Hx)]; [|discriminate Hx].
  inversion Hrun; subst docs w'; clear Hrun.
  unfold Pgvector.Cursor_execute, Pgvector.set_db_result in H3.
  destruct (Postgres.execute _ _ _ (db w2)) as [[rs'|e] b] eqn:He; [|discriminate H3].
  inversion H3; subst rs' w3; clear H3.
  apply select_scored_records in He as (l & -> & Hk & Hlen & Hall).
  unfold Pgvector._from_pg_to_haystack_documents, Pgvector.records_of.
  split; [exact Hk|]. split; [rewrite length_map; exact Hlen|].
  apply List.Forall_forall. intros d Hd. apply in_map_iff in Hd as (r & <- & Hr).
  rewrite List.Forall_forall in Hall. exact (Hall r Hr).
Qed.

Lemma embedding_retrieval_result_witness :
  let w := Examples.pg_world
             (Examples.pg_store "exact_nearest_neighbor" "cosine_similarity")
             (Examples.pg_backend
                [Examples.row "a" (Some "x") [] (Some [1%float; 0%float]);
                 Examples.row "n" (Some "no embedding") [] None;
                 Examples.row "b" (Some "y") [] (Some [0%float; 1%float])] [] []) in
  let run := @Pgvector._embedding_retrieval Examples.example_env
               [1%float; 0%float] VNone 2 None w in
  let docs := match fst run with Ok l => l | Raise _ => [] end in
  map id docs = [IdStr "n"; IdStr "a"]
  /\ (List.length docs <= Z.to_nat 2)%nat
  /\ Forall (fun d => score d = None <-> embedding d = None) docs.
Proof.
  intros w run docs.
  assert (Hrun : run = (Ok docs, snd run)) by (vm_compute; reflexivity).
  split; [vm_compute; reflexivity|].
  pose proof (@embedding_retrieval_result Examples.example_env [1%float; 0%float] VNone 2
                None w docs (snd run) Hrun)
    as (_ & _ & _ & _ & Hlen & Hall).
  split; [exact Hlen | exact Hall].
Defined.

(** ** Writing to the pgvector store *)

Section PgvectorWrites.
Context `{Env}.
Import Pgvector.
Local Open Scope py_scope.

Lemma pyobjs_split (l : list pyobj) :
  (exists docs, l = map ADocument docs) \/ (exists v, In (NotADocument v) l).
Proof.
  induction l as [|o l [(docs & ->) | (v & Hv)]].
  - left. exists []. reflexivity.
  - destruct o as [d|v].
    + left. exists (d :: docs). reflexivity.
    + right. exists v. left. reflexivity.
  - right. exists v. right. exact Hv.
Qed.

Lemma map_ADocument_inj (a b : list Document) : map ADocument a = map ADocument b -> a = b.
Proof.
  revert b. induction a as [|x a IH]; intros [|y b] Heq; try discriminate; [reflexivity|].
  simpl in Heq. inversion Heq; subst. f_equal. apply IH. assumption.
Qed.

Lemma from_haystack_map (docs : list Document) (w : PgWorld) :
  exists ws, _from_haystack_to_pg_documents (map ADocument docs) w
             = (Ok (map to_db_document docs),
                {| self := self w; db := db w; warnings := ws |}).
Proof.
  destruct (from_haystack_run (map ADocument docs) w) as (r & ws & Hr).
  exists ws. rewrite Hr. destruct r as [dbs|e].
  - apply from_haystack_documents in Hr as (docs' & Hd & ->).
    apply map_ADocument_inj in Hd. subst. reflexivity.
  - exfalso. apply from_haystack_all_documents in Hr as (v & Hv).
    apply in_map_iff in Hv as (d & Hd & _). discriminate Hd.
Qed.

(** What [_connected_write_documents] does with a batch of documents, in
    terms of the batch statement. *)
Lemma connected_write_run (docs : list Document) (policy : DuplicatePolicy) (w : PgWorld) :
  stable w ->
  exists text ws,
    _connected_write_documents (map ADocument docs) policy w
    = match Postgres.executemany text
              (conflict_clause_of (if policy_eqb policy NONE then FAIL else policy))
              (map to_db_document docs) (db w) with
      | (PgOk l, b) =>
          (match l with
           | [] => Raise (Psycopg ProgrammingError)
           | _ => Ok (count_rows l)
           end, {| self := self w; db := b; warnings := ws |})
      | (PgErr IntegrityError, b) =>
          (Raise DuplicateDocumentError, {| self := self w; db := b; warnings := ws |})
      | (PgErr _, b) =>
          (Raise DocumentStoreError, {| self := self w; db := b; warnings := ws |})
      end.
Proof.
  intros Hw. destruct (from_haystack_map docs w) as (ws & Hfrom).
  exists (as_string (insert_sql (self w) (if policy_eqb policy NONE then FAIL else policy))), ws.
  unfold _connected_write_documents.
  assert (Hfirst : (match map ADocument docs with
                    | first :: _ =>
                        if negb (isinstance_Document first) then raise ValueError else ret tt
                    | [] => ret tt
                    end) w = (Ok tt, w)) by (destruct docs; reflexivity).
  rewrite (bind_ok _ _ _ _ _ Hfirst). rewrite (bind_ok _ _ _ _ _ Hfrom).
  set (w2 := {| self := self w; db := db w; warnings := ws |}).
  assert (Hw2 : stable w2) by (apply (stable_self w); [reflexivity | exact Hw]).
  unfold bind at 1. unfold get_self at 1. cbn beta iota.
  destruct (connection_stable w2 Hw2) as [c Hc].
  rewrite (bind_ok _ _ _ _ _ Hc). rewrite (bind_ok _ _ _ _ _ Hc).
  unfold bind at 1. cbn [self db w2].
  assert (Hst : forall b1, stable (with_db b1 w2))
    by (intros b1; apply (stable_self w2); [reflexivity | exact Hw2]).
  destruct (Postgres.executemany _ _ (map to_db_document docs) (db w)) as [[l|e] b].
  - destruct l; reflexivity.
  - destruct (connection_stable _ (Hst b)) as [c2 Hc2].
    destruct e; rewrite (bind_ok _ _ _ _ _ Hc2); reflexivity.
Qed.

(** The same through the wrapper, once the schema is initialised and the
    connection could be opened; [b] is the server after the connection was
    opened. *)
Lemma write_documents_run (docs : list Document) (policy : DuplicatePolicy) (w : PgWorld)
  c b :
  _schema_is_initialized (self w) = true ->
  _create_connection w = (Ok c, with_db b w) ->
  exists text ws,
    write_documents (map ADocument docs) policy w
    = match Postgres.executemany text
              (conflict_clause_of (if policy_eqb policy NONE then FAIL else policy))
              (map to_db_document docs) b with
      | (PgOk l, b1) =>
          (match l with
           | [] => Raise (Psycopg ProgrammingError)
           | _ => Ok (count_rows l)
           end, {| self := self w; db := b1; warnings := ws |})
      | (PgErr IntegrityError, b1) =>
          (Raise DuplicateDocumentError, {| self := self w; db := b1; warnings := ws |})
      | (PgErr _, b1) =>
          (Raise DocumentStoreError, {| self := self w; db := b1; warnings := ws |})
      end.
Proof.
  intros Hf Hc.
  destruct (write_documents_initialized (map ADocument docs) policy w Hf)
    as [(e & b' & Hc' & _) | (c' & b' & r & w3 & Hc' & Hst & Hp & Hrun)]; [congruence|].
  assert (Hb : b' = b).
  { rewrite Hc in Hc'.
    assert (Hx : db (with_db b w) = db (with_db b' w)) by congruence. symmetry. exact Hx. }
  assert (Hcc : c' = c) by congruence. subst b' c'.
  destruct (connected_write_run docs policy _ Hst) as (text & ws & Hq).
  exists text, ws. rewrite Hrun. rewrite Hp in Hq. cbn [self db] in Hq.
  destruct (Postgres.executemany _ _ _ b) as [[l|e] b1].
  - inversion Hq; subst. reflexivity.
  - destruct e; inversion Hq; subst; reflexivity.
Qed.

Lemma create_connection_store (w : PgWorld) r w1 :
  _create_connection w = (r, w1) ->
  self w1 = self w /\ warnings w1 = warnings w /\ same_store (db w) (db w1).
Proof.
  intros Hc. destruct (create_connection_run w) as (r' & b & Hc' & Ht & Hi & Hch).
  rewrite Hc in Hc'. inversion Hc'; subst. simpl. repeat split; assumption.
Qed.

(** A write that returns, once the schema is initialised. *)
Lemma write_documents_ok (documents : list pyobj) (policy : DuplicatePolicy) (w : PgWorld)
  n w' :
  _schema_is_initialized (self w) = true ->
  write_documents documents policy w = (Ok n, w') ->
  exists docs l text b,
    documents = map ADocument docs
    /\ same_store (db w) b
    /\ Postgres.executemany text
         (conflict_clause_of (if policy_eqb policy NONE then FAIL else policy))
         (map to_db_document docs) b = (PgOk l, db w')
    /\ n = count_rows l /\ l <> [] /\ self w' = self w.
Proof.
  intros Hf Hrun.
  destruct (pyobjs_split documents) as [(docs & ->) | (v & Hv)].
  2: { destruct (pg_write_not_a_document documents policy w v Hv) as (e & w1 & Hr & _).
       congruence. }
  destruct (create_connection_run w) as (rc & b & Hc & Ht & Hi & Hch).
  destruct rc as [c|e].
  - destruct (write_documents_run docs policy w c b Hf Hc) as (text & ws & Hq).
    rewrite Hrun in Hq.
    destruct (Postgres.executemany _ _ _ b) as [[l|e] b1] eqn:He.
    + destruct l as [|rs l]; [discriminate Hq|]. inversion Hq; subst.
      exists docs, (rs :: l), text, b. repeat split; auto; discriminate.
    + destruct e; discriminate Hq.
  - destruct (write_documents_initialized (map ADocument docs) policy w Hf)
      as [(e' & b' & _ & Hr) | (c' & b' & r & w3 & Hc' & _)]; congruence.
Qed.

End PgvectorWrites.

(** *** The batch statement and the rows of the table *)

Section BatchInsert.
Context `{Env}.
Import Pgvector.

Lemma set_column_id (c : column) (excluded old : pg_row) :
  row_id (set_column c excluded old) = row_id old.
Proof. reflexivity. Qed.

Lemma do_update_id (set : list column) (excluded old : pg_row) :
  row_id (do_update set excluded old) = row_id old.
Proof.
  unfold do_update. revert old. induction set as [|c set IH]; intros old; simpl;
    [reflexivity|]. rewrite IH. apply set_column_id.
Qed.

Lemma update_row_length (set : list column) (r : pg_row) (rows : list pg_row) :
  List.length (update_row set r rows) = List.length rows.
Proof.
  unfold update_row. rewrite length_app, length_map.
  induction rows as [|x rows IH]; simpl; [reflexivity|].
  destruct (String.eqb (row_id x) (row_id r)); simpl; lia.
Qed.

Lemma update_row_has_id (set : list column) (r : pg_row) (rows : list pg_row) (i : string) :
  has_id i (update_row set r rows) = has_id i rows.
Proof.
  unfold update_row, has_id. rewrite existsb_app.
  induction rows as [|x rows IH]; simpl; [reflexivity|].
  destruct (String.eqb (row_id x) (row_id r)); simpl.
  - rewrite do_update_id, <- IH.
    destruct (existsb _ (List.filter _ rows)), (String.eqb (row_id x) i); reflexivity.
  - rewrite <- IH. destruct (String.eqb (row_id x) i); reflexivity.
Qed.

Lemma has_id_In (i : string) (rows : list pg_row) :
  has_id i rows = true <-> In i (map row_id rows).
Proof.
  unfold has_id. rewrite existsb_exists, in_map_iff. split.
  - intros (r & Hr & E). apply String.eqb_eq in E. eauto.
  - intros (r & E & Hr). exists r. split; [exact Hr|]. apply String.eqb_eq. exact E.
Qed.

Lemma has_id_false (i : string) (rows : list pg_row) :
  has_id i rows = false <-> ~ In i (map row_id rows).
Proof.
  rewrite <- has_id_In. destruct (has_id i rows); split; intros; congruence.
Qed.

(** One INSERT of the batch that succeeds: the row is appended, or skipped,
    or takes the place of the row with its id. *)
Lemma round_trip_insert_inv (c : conflict_clause) (d : db_document) (b : PgBackend)
  rs b1 t :
  round_trip (Insert c d) b = (PgOk rs, b1) ->
  pg_table_ b = Some t ->
  pg_indexes b1 = pg_indexes b
  /\ exists r, to_row (tbl_dim t) d = PgOk r
    /\ ((has_id (row_id r) (tbl_rows t) = false
         /\ pg_table_ b1 = Some {| tbl_dim := tbl_dim t; tbl_rows := tbl_rows t ++ [r] |}
         /\ pg_changes b1 = Inserted (row_id r) :: pg_changes b
         /\ has_row rs = true)
        \/ (has_id (row_id r) (tbl_rows t) = true
            /\ c = OnConflictDoNothing
            /\ pg_table_ b1 = Some t
            /\ pg_changes b1 = pg_changes b
            /\ has_row rs = false)
        \/ (has_id (row_id r) (tbl_rows t) = true
            /\ exists set, c = OnConflictDoUpdate set
               /\ pg_table_ b1 = Some {| tbl_dim := tbl_dim t;
                                         tbl_rows := update_row set r (tbl_rows t) |}
               /\ pg_changes b1 = Overwritten (row_id r) :: pg_changes b
               /\ has_row rs = true)).
Proof.
  intros Hr Ht.
  pose proof (round_trip_insert_indexes c d b) as Hix. rewrite Hr in Hix. simpl in Hix.
  split; [exact Hix|]. clear Hix.
  unfold round_trip in Hr. destruct (next_fault b) as [f b0] eqn:Hf.
  assert (Hb : pg_table_ b0 = Some t /\ pg_changes b0 = pg_changes b).
  { change b0 with (snd (f, b0)). rewrite <- Hf, next_fault_table, next_fault_changes.
    auto. }
  destruct Hb as [Ht0 Hc0].
  destruct f; [discriminate|]. simpl in Hr. rewrite Ht0 in Hr.
  destruct (to_row (tbl_dim t) d) as [r|e]; [|discriminate].
  exists r. split; [reflexivity|].
  destruct (has_id (row_id r) (tbl_rows t)) eqn:Hh.
  - destruct c as [| |set]; inversion Hr; subst; simpl.
    + right. left. auto.
    + right. right. split; [reflexivity|]. exists set. rewrite Hc0. auto.
  - inversion Hr; subst; simpl. left. rewrite Hc0. auto.
Qed.

Lemma executemany_pipeline (text : string) (c : conflict_clause) (ds : list db_document)
  (b : PgBackend) l b1 :
  Postgres.executemany text c ds b = (PgOk l, b1) ->
  exists b0, pipeline c ds b0 = (PgOk l, b1) /\ same_store b b0.
Proof.
  unfold Postgres.executemany.
  destruct (pipeline c ds _) as [[l0|e] b2] eqn:Hp; intros Hx; inversion Hx; subst.
  eexists. split; [exact Hp|]. repeat split.
Qed.

(** The number of rows grows by the number of insertions. *)
Lemma pipeline_rows (c : conflict_clause) (ds : list db_document) :
  forall b l b1 t,
    pipeline c ds b = (PgOk l, b1) -> pg_table_ b = Some t ->
    exists t1 new,
      pg_table_ b1 = Some t1 /\ tbl_dim t1 = tbl_dim t
      /\ pg_changes b1 = (new ++ pg_changes b)%list
      /\ List.length (tbl_rows t1) = (List.length (tbl_rows t) + inserted new)%nat
      /\ List.length new = count_rows l
      /\ ((forall set, c <> OnConflictDoUpdate set) -> overwritten new = 0%nat).
Proof.
  induction ds as [|d ds IH]; simpl; intros b l b1 t Hp Ht.
  - inversion Hp; subst. exists t, []. repeat split; auto; simpl; lia.
  - destruct (round_trip (Insert c d) b) as [[rs|e] b0] eqn:Hr; [|discriminate].
    destruct (pipeline c ds b0) as [[l0|e] b2] eqn:Hp0; [|discriminate].
    inversion Hp; subst.
    destruct (round_trip_insert_inv _ _ _ _ _ _ Hr Ht) as (_ & r & _ & Hcase).
    destruct Hcase as [(Hh & Ht0 & Hc0 & Hrs) | [(Hh & Hc & Ht0 & Hc0 & Hrs)
                                               | (Hh & set & Hc & Ht0 & Hc0 & Hrs)]].
    + destruct (IH _ _ _ _ Hp0 Ht0) as (t1 & new & Ht1 & Hd & Hch & Hlen & Hcnt & Hov).
      exists t1, (new ++ [Inserted (row_id r)])%list.
      split; [exact Ht1|]. split; [exact Hd|].
      split; [rewrite Hch, Hc0, <- app_assoc; reflexivity|].
      unfold inserted, overwritten in *. rewrite !List.filter_app, !length_app. simpl.
      simpl in Hlen. rewrite ?length_app in Hlen. simpl in Hlen |- *. rewrite ?Hrs.
      repeat split; try lia. intros Hno. specialize (Hov Hno). lia.
    + destruct (IH _ _ _ _ Hp0 Ht0) as (t1 & new & Ht1 & Hd & Hch & Hlen & Hcnt & Hov).
      exists t1, new. simpl. rewrite Hrs. simpl. repeat split; auto; congruence.
    + destruct (IH _ _ _ _ Hp0 Ht0) as (t1 & new & Ht1 & Hd & Hch & Hlen & Hcnt & Hov).
      exists t1, (new ++ [Overwritten (row_id r)])%list.
      split; [exact Ht1|]. split; [exact Hd|].
      split; [rewrite Hch, Hc0, <- app_assoc; reflexivity|].
      unfold inserted, overwritten in *. rewrite !List.filter_app, !length_app. simpl.
      simpl in Hlen. rewrite update_row_length in Hlen. simpl. rewrite ?Hrs.
      repeat split; try lia. intros Hno. exfalso. apply (Hno set). exact Hc.
Qed.

(** A batch of plain INSERTs that succeeds appends one row per document,
    none of which was there, and no two of them with the same id. *)
Lemma pipeline_plain (ds : list db_document) :
  forall b l b1 t,
    pipeline NoConflictClause ds b = (PgOk l, b1) -> pg_table_ b = Some t ->
    exists rows,
      Forall2 (fun d r => to_row (tbl_dim t) d = PgOk r) ds rows
      /\ pg_table_ b1 = Some {| tbl_dim := tbl_dim t; tbl_rows := tbl_rows t ++ rows |}
      /\ count_rows l = List.length ds
      /\ (forall r, In r rows -> has_id (row_id r) (tbl_rows t) = false)
      /\ List.NoDup (map row_id rows).
Proof.
  induction ds as [|d ds IH]; simpl; intros b l b1 t Hp Ht.
  - inversion Hp; subst. exists []. rewrite app_nil_r. destruct t.
    repeat split; auto; try constructor. intros r [].
  - destruct (round_trip (Insert NoConflictClause d) b) as [[rs|e] b0] eqn:Hr; [|discriminate].
    destruct (pipeline NoConflictClause ds b0) as [[l0|e] b2] eqn:Hp0; [|discriminate].
    inversion Hp; subst.
    destruct (round_trip_insert_inv _ _ _ _ _ _ Hr Ht) as (_ & r & Hrow & Hcase).
    destruct Hcase as [(Hh & Ht0 & Hc0 & Hrs) | [(_ & Hc & _) | (_ & set & Hc & _)]];
      try discriminate Hc.
    destruct (IH _ _ _ _ Hp0 Ht0) as (rows & Hall & Ht1 & Hcnt & Hnew & Hnd).
    simpl in *. exists (r :: rows).
    split; [constructor; assumption|].
    split; [rewrite Ht1, <- app_assoc; reflexivity|].
    split; [rewrite Hrs, Hcnt; reflexivity|].
    assert (Hnot : forall x, In x rows -> has_id (row_id x) (tbl_rows t) = false
                                          /\ row_id x <> row_id r).
    { intros x Hx. specialize (Hnew x Hx). apply has_id_false in Hnew.
      rewrite map_app, in_app_iff in Hnew. simpl in Hnew. split.
      - apply has_id_false. tauto.
      - intros E. apply Hnew. right. left. congruence. }
    split.
    + intros x [<- | Hx]; [exact Hh | apply Hnot; exact Hx].
    + simpl. constructor; [|exact Hnd].
      intros Hin. apply in_map_iff in Hin as (x & E & Hx).
      destruct (Hnot x Hx) as [_ Hne]. congruence.
Qed.

End BatchInsert.

(** *** The unfiltered query *)

Section PgvectorSelect.
Context `{Env}.
Import Pgvector.
Local Open Scope py_scope.

Lemma filter_holds_none (rows : list pg_row) : List.filter (holds None) rows = rows.
Proof. induction rows as [|r rows IH]; simpl; [reflexivity | rewrite IH; reflexivity]. Qed.

Lemma cursor_select_all (q : Composed) (p : params) (wc : option where_clause)
  (w : PgWorld) rs w' :
  Cursor_execute q p (SelectAll wc) w = (Ok rs, w') ->
  exists t, pg_table_ (db w) = Some t
            /\ rs = RsRecords (map plain_record (List.filter (holds wc) (tbl_rows t)))
            /\ same_store (db w) (db w') /\ self w' = self w.
Proof.
  unfold Cursor_execute, set_db_result.
  pose proof (execute_query (as_string q) p (SelectAll wc) (db w) eq_refl) as Hst.
  destruct (Postgres.execute _ _ _ (db w)) as [[rs'|e] b] eqn:He; [|discriminate].
  intros Hx. inversion Hx; subst rs' w'. simpl in Hst |- *.
  unfold Postgres.execute, round_trip in He.
  destruct (next_fault _) as [f b0] eqn:Hf.
  assert (Ht : pg_table_ b0 = pg_table_ (db w)).
  { change b0 with (snd (f, b0)). rewrite <- Hf. rewrite next_fault_table. reflexivity. }
  destruct f; [discriminate|]. simpl in He. rewrite Ht in He.
  destruct (pg_table_ (db w)) as [t|]; [|discriminate].
  inversion He; subst. exists t. auto.
Qed.

Lemma count_documents_inv (w : PgWorld) k w1 :
  stable w ->
  count_documents w = (Ok k, w1) ->
  exists t, pg_table_ (db w) = Some t /\ k = List.length (tbl_rows t)
            /\ same_store (db w) (db w1) /\ self w1 = self w.
Proof.
  intros Hw Hrun. unfold count_documents in Hrun.
  apply bind_inv in Hrun as [(s & w0 & H0 & Hrun) | (e & H0 & Hx)]; [|discriminate Hx].
  inversion H0; subst s w0; clear H0.
  destruct (connection_stable w Hw) as [c Hc].
  apply bind_inv in Hrun as [(c' & w2 & H2 & Hrun) | (e & H2 & Hx)]; [|discriminate Hx].
  rewrite Hc in H2. inversion H2; subst c' w2; clear H2.
  apply bind_inv in Hrun as [(rs & w3 & H3 & Hrun) | (e & H3 & Hx)]; [|discriminate Hx].
  inversion Hrun; subst k w1; clear Hrun.
  apply cursor_select_all in H3 as (t & Ht & -> & Hst & Hs).
  exists t. split; [exact Ht|]. split; [|auto].
  simpl. rewrite length_map, filter_holds_none. reflexivity.
Qed.

(** What [filter_documents] returns: the rows on which the compiled filter
    holds, or all the rows when no filter is given, in the order of the
    table. *)
Lemma filter_documents_inv (filters : value) (w : PgWorld) docs w' :
  stable w ->
  filter_documents filters w = (Ok docs, w') ->
  exists t wc,
    pg_table_ (db w) = Some t
    /\ docs = map (fun r => from_pg_record (plain_record r))
                  (List.filter (holds wc) (tbl_rows t))
    /\ (if truthy filters
        then exists c, convert_filters filters "WHERE" = Ok c /\ wc = Some c
        else wc = None)
    /\ same_store (db w) (db w') /\ self w' = self w.
Proof.
  intros Hw Hrun. unfold filter_documents in Hrun.
  apply bind_inv in Hrun as [(u & w0 & H0 & Hrun) | (e & H0 & Hx)]; [|discriminate Hx].
  assert (w0 = w).
  { destruct (truthy filters); [|inversion H0; reflexivity].
    destruct (negb (is_dict filters)); [discriminate H0|].
    destruct (_ && _); [discriminate H0 | inversion H0; reflexivity]. }
  subst w0. clear H0.
  apply bind_inv in Hrun as [(s & w0 & H0 & Hrun) | (e & H0 & Hx)]; [|discriminate Hx].
  inversion H0; subst s w0; clear H0.
  apply bind_inv in Hrun as [([[sql ps] wc] & w1 & H1 & Hrun) | (e & H1 & Hx)];
    [|discriminate Hx].
  assert (Hwc : w1 = w /\ (if truthy filters
                           then exists c, convert_filters filters "WHERE" = Ok c
                                          /\ wc = Some c
                           else wc = None)).
  { destruct (truthy filters).
    - apply bind_inv in H1 as [(c & w2 & H2 & H1) | (e & H2 & Hx)]; [|discriminate Hx].
      unfold lift in H2. inversion H2; subst. inversion H1; subst. eauto.
    - inversion H1; subst. auto. }
  destruct Hwc as [-> Hwc].
  destruct (connection_stable w Hw) as [c Hc].
  apply bind_inv in Hrun as [(c' & w2 & H2 & Hrun) | (e & H2 & Hx)]; [|discriminate Hx].
  rewrite Hc in H2. inversion H2; subst c' w2; clear H2.
  apply bind_inv in Hrun as [(rs & w3 & H3 & Hrun) | (e & H3 & Hx)]; [|discriminate Hx].
  inversion Hrun; subst docs w'; clear Hrun.
  apply cursor_select_all in H3 as (t & Ht & -> & Hst & Hs).
  exists t, wc. split; [exact Ht|]. split; [|auto].
  unfold _from_pg_to_haystack_documents. simpl. rewrite map_map. reflexivity.
Qed.

End PgvectorSelect.

(** X5: with the schema initialised and a connection held,
    [filter_documents] returns one document per row of the table on which
    the compiled filter holds (per row, when no filter is given), in the
    order of the table, under the id of the row and without a score; there
    are at most as many as [count_documents] counts, and exactly as many
    when no filter is given. *)
Theorem filter_documents_returns_the_rows `{Env} (filters : value) (w w1 w2 : PgWorld)
  docs k :
  stable w ->
  Pgvector.filter_documents filters w = (Ok docs, w1) ->
  Pgvector.count_documents w1 = (Ok k, w2) ->
  exists t wc,
    pg_table_ (db w) = Some t
    /\ (if truthy filters
        then exists c, convert_filters filters "WHERE" = Ok c /\ wc = Some c
        else wc = None)
    /\ map id docs = map (fun r => IdStr (row_id r)) (List.filter (holds wc) (tbl_rows t))
    /\ map content docs = map row_content (List.filter (holds wc) (tbl_rows t))
    /\ Forall (fun d => score d = None) docs
    /\ (List.length docs <= k)%nat
    /\ (truthy filters = false -> List.length docs = k).
Proof.
  intros Hw Hf Hc.
  apply filter_documents_inv in Hf as (t & wc & Ht & -> & Hwc & Hst & Hs); [|exact Hw].
  assert (Hw1 : stable w1) by (apply (stable_self w); assumption).
  apply count_documents_inv in Hc as (t1 & Ht1 & -> & _); [|exact Hw1].
  destruct Hst as (Htab & _). rewrite Htab, Ht in Ht1. inversion Ht1; subst t1.
  exists t, wc. split; [exact Ht|]. split; [exact Hwc|].
  rewrite !map_map, !length_map. cbn [Pgvector.from_pg_record plain_record rec_row id content].
  split; [reflexivity|]. split; [reflexivity|].
  split; [apply List.Forall_forall; intros d Hd; apply in_map_iff in Hd as (r & <- & _);
          reflexivity|].
  split; [apply List.filter_length_le|].
  intros Hno. rewrite Hno in Hwc. subst wc. rewrite filter_holds_none. reflexivity.
Qed.

Lemma filter_documents_returns_the_rows_witness :
  let w := Examples.pg_world
             (Pgvector.set_connection (Some 0%nat)
                (Pgvector.set_schema_is_initialized true
                   (Examples.pg_store "exact_nearest_neighbor" "cosine_similarity")))
             (Examples.pg_backend [Examples.row "a" (Some "x") [] None;
                                   Examples.row "b" (Some "y") [] None] [] []) in
  let filters := VDict [("field", VStr "content"); ("operator", VStr "==");
                        ("value", VStr "y")] in
  let r1 := @Pgvector.filter_documents Examples.example_env filters w in
  let r2 := @Pgvector.count_documents Examples.example_env (snd r1) in
  let docs := match fst r1 with Ok l => l | Raise _ => [] end in
  map id docs = [IdStr "b"] /\ fst r2 = Ok 2%nat
  /\ Forall (fun d => score d = None) docs.
Proof.
  intros w filters r1 r2 docs.
  assert (H1 : r1 = (Ok docs, snd r1)) by (vm_compute; reflexivity).
  assert (H2 : r2 = (Ok 2%nat, snd r2)) by (vm_compute; reflexivity).
  split; [vm_compute; reflexivity|]. split; [vm_compute; reflexivity|].
  destruct (@filter_documents_returns_the_rows Examples.example_env filters w (snd r1)
              (snd r2) docs 2%nat (conj (ex_intro _ 0%nat eq_refl) eq_refl) H1 H2)
    as (t & wc & _ & _ & _ & _ & Hall & _).
  exact Hall.
Defined.

(** X6: a write that returns, between two calls of [count_documents]:
    the count grows by the number of documents inserted; the number
    returned by the write is that number plus the number of documents
    overwritten, so that under every policy but OVERWRITE the count grows by
    the number returned. *)
Theorem count_grows_by_inserted `{Env} (documents : list pyobj) (policy : DuplicatePolicy)
  (w w1 w2 w3 : PgWorld) k n k' :
  stable w ->
  Pgvector.count_documents w = (Ok k, w1) ->
  Pgvector.write_documents documents policy w1 = (Ok n, w2) ->
  Pgvector.count_documents w2 = (Ok k', w3) ->
  exists new,
    pg_changes (db w2) = (new ++ pg_changes (db w1))%list
    /\ k' = (k + inserted new)%nat
    /\ n = (inserted new + overwritten new)%nat
    /\ (policy <> OVERWRITE -> k' = (k + n)%nat).
Proof.
  intros Hw H1 H2 H3.
  apply count_documents_inv in H1 as (t & Ht & -> & (Htab1 & _ & _) & Hs1); [|exact Hw].
  assert (Hw1 : stable w1) by (apply (stable_self w); assumption).
  apply write_documents_ok in H2 as (docs & l & text & b & -> & Hb & He & -> & _ & Hs2);
    [|apply Hw1].
  assert (Hw2 : stable w2) by (apply (stable_self w1); assumption).
  apply count_documents_inv in H3 as (t2 & Ht2 & -> & _); [|exact Hw2].
  apply executemany_pipeline in He as (b0 & Hp & Hb0).
  destruct Hb as (Hbt & _ & Hbc). destruct Hb0 as (Hb0t & _ & Hb0c).
  assert (Ht0 : pg_table_ b0 = Some t) by congruence.
  destruct (pipeline_rows _ _ _ _ _ _ Hp Ht0)
    as (t1 & new & Ht1 & _ & Hch & Hlen & Hcnt & Hov).
  rewrite Ht1 in Ht2. inversion Ht2; subst t2.
  exists new. split; [congruence|]. split; [exact Hlen|].
  split; [rewrite inserted_plus_overwritten; symmetry; exact Hcnt|].
  intros Hpol. rewrite Hlen, <- Hcnt, <- (inserted_plus_overwritten new).
  rewrite Hov; [lia|]. intros set. destruct policy; try discriminate. congruence.
Qed.

Lemma count_grows_by_inserted_witness :
  let w := Examples.pg_world
             (Pgvector.set_connection (Some 0%nat)
                (Pgvector.set_schema_is_initialized true
                   (Examples.pg_store "exact_nearest_neighbor" "cosine_similarity")))
             (Examples.pg_backend [Examples.row "a" (Some "x") [] None] [] []) in
  let batch := [ADocument (Examples.doc (IdStr "a") (Some "changed") [] None);
                ADocument (Examples.doc (IdStr "b") (Some "y") [] None)] in
  let r1 := @Pgvector.count_documents Examples.example_env w in
  let r2 := @Pgvector.write_documents Examples.example_env batch OVERWRITE (snd r1) in
  let r3 := @Pgvector.count_documents Examples.example_env (snd r2) in
  fst r1 = Ok 1%nat /\ fst r2 = Ok 2%nat /\ fst r3 = Ok 2%nat
  /\ exists new,
       pg_changes (db (snd r2)) = (new ++ pg_changes (db (snd r1)))%list
       /\ 2%nat = (1 + inserted new)%nat
       /\ 2%nat = (inserted new + overwritten new)%nat
       /\ (OVERWRITE <> OVERWRITE -> 2%nat = (1 + 2)%nat).
Proof.
  intros w batch r1 r2 r3.
  assert (H1 : r1 = (Ok 1%nat, snd r1)) by (vm_compute; reflexivity).
  assert (H2 : r2 = (Ok 2%nat, snd r2)) by (vm_compute; reflexivity).
  assert (H3 : r3 = (Ok 2%nat, snd r3)) by (vm_compute; reflexivity).
  split; [vm_compute; reflexivity|]. split; [vm_compute; reflexivity|].
  split; [vm_compute; reflexivity|].
  exact (@count_grows_by_inserted Examples.example_env batch OVERWRITE w (snd r1) (snd r2)
           (snd r3) 1%nat 2%nat 2%nat (conj (ex_intro _ 0%nat eq_refl) eq_refl) H1 H2 H3).
Defined.

Section BatchSkip.
Context `{Env}.
Import Pgvector.

(** A batch of INSERTs with ON CONFLICT DO NOTHING: the rows that were
    there stay as they are, the rows appended are rows of the batch, and
    every document of the batch finds a row under its id afterwards. *)
Lemma pipeline_skip (ds : list db_document) :
  forall b l b1 t,
    pipeline OnConflictDoNothing ds b = (PgOk l, b1) -> pg_table_ b = Some t ->
    exists rows,
      pg_table_ b1 = Some {| tbl_dim := tbl_dim t; tbl_rows := tbl_rows t ++ rows |}
      /\ count_rows l = List.length rows
      /\ (forall r, In r rows ->
            has_id (row_id r) (tbl_rows t) = false
            /\ exists d, In d ds /\ to_row (tbl_dim t) d = PgOk r)
      /\ (forall d, In d ds ->
            exists r, to_row (tbl_dim t) d = PgOk r
                      /\ has_id (row_id r) (tbl_rows t ++ rows) = true)
      /\ List.NoDup (map row_id rows).
Proof.
  induction ds as [|d ds IH]; simpl; intros b l b1 t Hp Ht.
  - inversion Hp; subst. exists []. rewrite app_nil_r. destruct t.
    split; [exact Ht|]. split; [reflexivity|]. split; [intros ? []|].
    split; [intros ? []|]. simpl. constructor.
  - destruct (round_trip (Insert OnConflictDoNothing d) b) as [[rs|e] b0] eqn:Hr;
      [|discriminate].
    destruct (pipeline OnConflictDoNothing ds b0) as [[l0|e] b2] eqn:Hp0; [|discriminate].
    inversion Hp; subst.
    destruct (round_trip_insert_inv _ _ _ _ _ _ Hr Ht) as (_ & r & Hrow & Hcase).
    destruct Hcase as [(Hh & Ht0 & Hc0 & Hrs) | [(Hh & _ & Ht0 & Hc0 & Hrs)
                                               | (_ & set & Hc & _)]];
      try discriminate Hc.
    + destruct (IH _ _ _ _ Hp0 Ht0) as (rows & Ht1 & Hcnt & Hnew & Hall & Hnd).
      simpl in *. exists (r :: rows).
      split; [rewrite Ht1, <- app_assoc; reflexivity|].
      split; [rewrite Hrs, Hcnt; reflexivity|].
      assert (Hnot : forall x, In x rows -> has_id (row_id x) (tbl_rows t) = false
                                            /\ row_id x <> row_id r).
      { intros x Hx. destruct (Hnew x Hx) as [Hx' _]. apply has_id_false in Hx'.
        rewrite map_app, in_app_iff in Hx'. simpl in Hx'. split.
        - apply has_id_false. tauto.
        - intros E. apply Hx'. right. left. congruence. }
      split; [|split].
      * intros x [<- | Hx].
        -- split; [exact Hh|]. exists d. auto.
        -- split; [apply Hnot; exact Hx|].
           destruct (Hnew x Hx) as (_ & d' & Hd' & Hrow'). exists d'. auto.
      * intros d' [<- | Hd'].
        -- exists r. split; [exact Hrow|]. apply has_id_In.
           rewrite map_app, in_app_iff. right. left. reflexivity.
        -- destruct (Hall d' Hd') as (r' & Hr' & Hin). exists r'. split; [exact Hr'|].
           rewrite <- app_assoc in Hin. exact Hin.
      * constructor; [|exact Hnd].
        intros Hin. apply in_map_iff in Hin as (x & E & Hx).
        destruct (Hnot x Hx) as [_ Hne]. congruence.
    + destruct (IH _ _ _ _ Hp0 Ht0) as (rows & Ht1 & Hcnt & Hnew & Hall & Hnd).
      exists rows. split; [exact Ht1|]. simpl. rewrite Hrs. simpl.
      split; [exact Hcnt|]. split; [|split; [|exact Hnd]].
      * intros x Hx. destruct (Hnew x Hx) as (Hx' & d' & Hd' & Hrow'). split; [exact Hx'|].
        exists d'. auto.
      * intros d' [<- | Hd'].
        -- exists r. split; [exact Hrow|]. apply has_id_app. exact Hh.
        -- apply Hall. exact Hd'.
Qed.

End BatchSkip.

(** The rows that a write under FAIL appends. *)
Lemma write_fail_rows `{Env} (documents : list pyobj)
  (policy : DuplicatePolicy) (w : PgWorld) t n w' :
  fail_policy policy ->
  Pgvector._schema_is_initialized (self w) = true ->
  pg_table_ (db w) = Some t ->
  Pgvector.write_documents documents policy w = (Ok n, w') ->
  exists docs rows,
    documents = map ADocument docs
    /\ n = List.length documents
    /\ Forall2 (fun d r => row_of (tbl_dim t) d = PgOk r) docs rows
    /\ pg_table_ (db w') = Some {| tbl_dim := tbl_dim t; tbl_rows := tbl_rows t ++ rows |}
    /\ (forall r, In r rows -> has_id (row_id r) (tbl_rows t) = false)
    /\ List.NoDup (map row_id rows).
Proof.
  intros Hpol Hf Ht Hrun.
  apply write_documents_ok in Hrun as (docs & l & text & b & -> & Hb & He & -> & _ & Hs);
    [|exact Hf].
  assert (Hcc : Pgvector.conflict_clause_of
                  (if policy_eqb policy NONE then FAIL else policy) = NoConflictClause)
    by (destruct Hpol as [-> | ->]; reflexivity).
  rewrite Hcc in He. apply executemany_pipeline in He as (b0 & Hp & Hb0).
  destruct Hb as (Hbt & _). destruct Hb0 as (Hb0t & _).
  assert (Ht0 : pg_table_ b0 = Some t) by congruence.
  destruct (pipeline_plain _ _ _ _ _ Hp Ht0) as (rows & Hall & Ht1 & Hcnt & Hnew & Hnd).
  exists docs, rows. split; [reflexivity|].
  split; [rewrite Hcnt, !length_map; reflexivity|].
  split; [|auto].
  clear - Hall. revert rows Hall. induction docs as [|d docs IH]; intros rows Hall;
    inversion Hall; subst; constructor; auto.
Qed.

(** *** Reading back what was written *)

Lemma row_of_fields (dim : Z) (d : Document) (r : pg_row) :
  row_of dim d = PgOk r ->
  to_varchar128 (id d) = PgOk (row_id r)
  /\ row_content r = content d
  /\ row_meta r = meta d
  /\ (row_embedding r = None <-> embedding d = None).
Proof.
  unfold row_of, to_row. cbn [Pgvector.to_db_document db_id db_embedding].
  destruct (to_varchar128 (id d)) as [i|e]; [|discriminate].
  unfold to_vector. destruct (embedding d) as [v|].
  - destruct (Z.of_nat (List.length v) =? dim)%Z; [|discriminate].
    destruct (to_float4s v) as [v'|e]; [|discriminate].
    intros Hx. inversion Hx; subst. simpl. repeat split; congruence.
  - intros Hx. inversion Hx; subst. simpl. repeat split; congruence.
Qed.

(** X9: with the schema initialised and a connection held, documents
    written under FAIL (or with no policy given) are read back by
    [filter_documents] after the documents that were there, one per
    document of the batch and in the order of the batch: each under its id
    (as text), with its content and its metadata, without a score and
    without a sparse embedding, and with an embedding exactly when it was
    written with one. *)
Theorem written_documents_are_read_back `{Env} (documents : list pyobj)
  (policy : DuplicatePolicy) (w w0 w1 w2 : PgWorld) before n after :
  stable w ->
  fail_policy policy ->
  Pgvector.filter_documents VNone w = (Ok before, w0) ->
  Pgvector.write_documents documents policy w0 = (Ok n, w1) ->
  Pgvector.filter_documents VNone w1 = (Ok after, w2) ->
  exists new,
    after = (before ++ new)%list
    /\ Forall2 (fun o d' =>
                  exists d i, o = ADocument d
                    /\ to_varchar128 (id d) = PgOk i /\ id d' = IdStr i
                    /\ content d' = content d
                    /\ (forall k, dict_get k (meta d') = dict_get k (meta d))
                    /\ score d' = None /\ sparse_embedding d' = None
                    /\ (embedding d' = None <-> embedding d = None))
               documents new.
Proof.
  intros Hw Hpol H0 H1 H2.
  apply filter_documents_inv in H0 as (t & wc & Ht & -> & Hwc & (Htab0 & _) & Hs0);
    [|exact Hw].
  simpl in Hwc. subst wc. rewrite filter_holds_none.
  assert (Hw0 : stable w0) by (apply (stable_self w); assumption).
  assert (Ht0 : pg_table_ (db w0) = Some t) by congruence.
  assert (Hs1 : self w1 = self w0).
  { apply write_documents_ok in H1 as (? & ? & ? & ? & _ & _ & _ & _ & _ & Hs);
      [exact Hs | apply Hw0]. }
  assert (Hw1 : stable w1) by (apply (stable_self w0); assumption).
  apply write_fail_rows with (t := t) in H1
    as (docs & rows & -> & _ & Hall & Ht1 & _ & _);
    [|exact Hpol|apply Hw0|exact Ht0].
  apply filter_documents_inv in H2 as (t' & wc & Ht' & -> & Hwc & _); [|exact Hw1].
  simpl in Hwc. subst wc. rewrite filter_holds_none.
  rewrite Ht1 in Ht'. inversion Ht'; subst t'. cbn [tbl_rows].
  exists (map (fun r => Pgvector.from_pg_record (plain_record r)) rows).
  split; [apply map_app|].
  clear - Hall. induction Hall as [|d r docs rows Hd Hall IH]; simpl; constructor; auto.
  apply row_of_fields in Hd as (Hi & Hc & Hm & He).
  exists d, (row_id r). simpl. repeat split; auto; try congruence; apply He.
Qed.

Lemma written_documents_are_read_back_witness :
  let w := Examples.pg_world
             (Pgvector.set_connection (Some 0%nat)
                (Pgvector.set_schema_is_initialized true
                   (Examples.pg_store "exact_nearest_neighbor" "cosine_similarity")))
             (Examples.pg_backend [Examples.row "a" (Some "x") [] None] [] []) in
  let batch := [ADocument (Examples.doc (IdStr "b") (Some "y") [("k", VInt 1)] None);
                ADocument (Examples.doc (IdInt 7) None [] (Some [1%float; 0%float]))] in
  let r0 := @Pgvector.filter_documents Examples.example_env VNone w in
  let r1 := @Pgvector.write_documents Examples.example_env batch FAIL (snd r0) in
  let r2 := @Pgvector.filter_documents Examples.example_env VNone (snd r1) in
  let before := match fst r0 with Ok l => l | Raise _ => [] end in
  let after := match fst r2 with Ok l => l | Raise _ => [] end in
  map id before = [IdStr "a"]
  /\ map id after = [IdStr "a"; IdStr "b"; IdStr "7"]
  /\ exists new,
       after = (before ++ new)%list
       /\ Forall2 (fun o d' =>
                     exists d i, o = ADocument d
                       /\ to_varchar128 (id d) = PgOk i /\ id d' = IdStr i
                       /\ content d' = content d
                       /\ (forall k, dict_get k (meta d') = dict_get k (meta d))
                       /\ score d' = None /\ sparse_embedding d' = None
                       /\ (embedding d' = None <-> embedding d = None))
                  batch new.
Proof.
  intros w batch r0 r1 r2 before after.
  assert (H0 : r0 = (Ok before, snd r0)) by (vm_compute; reflexivity).
  assert (H1 : r1 = (Ok 2%nat, snd r1)) by (vm_compute; reflexivity).
  assert (H2 : r2 = (Ok after, snd r2)) by (vm_compute; reflexivity).
  split; [vm_compute; reflexivity|]. split; [vm_compute; reflexivity|].
  exact (@written_documents_are_read_back Examples.example_env batch FAIL w (snd r0)
           (snd r1) (snd r2) before 2%nat after
           (conj (ex_intro _ 0%nat eq_refl) eq_refl) (or_introl eq_refl) H0 H1 H2).
Defined.

(** *** Overwriting a stored row *)



(** *** The same id twice in a batch *)

Section BatchRepeats.
Context `{Env}.




End BatchRepeats.

(** ** The connection and the schema of the pgvector store *)

Section PgvectorSchema.
Context `{Env}.
Import Pgvector.
Local Open Scope py_scope.

Lemma create_connection_raises (w : PgWorld) e w1 :
  _create_connection w = (Raise e, w1) -> exists pe, e = Psycopg pe.
Proof.
  unfold _create_connection, connection_execute, set_db_result. intros Hc.
  apply bind_inv in Hc as [(c & w0 & H0 & Hc) | (e0 & H0 & Hx)].
  - apply bind_inv in Hc as [(rs & w2 & H2 & Hc) | (e0 & H2 & Hx)]; [discriminate Hc|].
    destruct (Postgres.execute _ _ _ (db w0)) as [[rs|pe] b]; inversion H2; subst.
    inversion Hx; subst. eauto.
  - destruct (Postgres.connect (db w)) as [[c|pe] b]; inversion H0; subst.
    inversion Hx; subst. eauto.
Qed.

(** The first part of the property [connection]: afterwards the instance
    holds a connection, unless the connection could not be opened. *)
Lemma connection_ensured (w : PgWorld) r w1 :
  (match _connection (self w) with
   | Some _ => ret tt
   | None => c <- _create_connection ;; s <- get_self ;; set_self (set_connection (Some c) s)
   end) w = (r, w1) ->
  match r with
  | Ok _ =>
      (exists c, _connection (self w1) = Some c)
      /\ (self w1 = self w \/ exists c, self w1 = set_connection (Some c) (self w))
      /\ same_store (db w) (db w1) /\ warnings w1 = warnings w
  | Raise e =>
      (exists pe, e = Psycopg pe) /\ self w1 = self w /\ _connection (self w) = None
      /\ same_store (db w) (db w1)
  end.
Proof.
  destruct (_connection (self w)) as [c|] eqn:Hc.
  - intros Hx. inversion Hx; subst. split; [eauto|]. split; [auto|].
    split; [apply same_store_refl | reflexivity].
  - intros Hx. apply bind_inv in Hx as [(c & w0 & H0 & Hx) | (e & H0 & ->)].
    + apply create_connection_store in H0 as (Hs & Hws & Hst).
      inversion Hx; subst. simpl. rewrite Hs.
      split; [exists c; destruct (self w); reflexivity|]. split; [eauto|]. auto.
    + apply create_connection_raises in H0 as Hpe.
      apply create_connection_store in H0 as (Hs & _ & Hst). auto.
Qed.

Lemma stable_after_flag (s : PgvectorDocumentStore) (b : PgBackend) (ws : list string) c :
  _connection s = Some c ->
  stable {| self := set_schema_is_initialized true s; db := b; warnings := ws |}.
Proof. intros Hc. split; [exists c; destruct s; exact Hc | destruct s; reflexivity]. Qed.

(** The property [connection], step by step. *)
Lemma connection_inv (w : PgWorld) r w' :
  connection w = (r, w') ->
  (exists pe, r = Raise (Psycopg pe) /\ self w' = self w
              /\ _connection (self w) = None /\ same_store (db w) (db w'))
  \/ (exists w1 c,
        _connection (self w1) = Some c
        /\ (self w1 = self w \/ exists c, self w1 = set_connection (Some c) (self w))
        /\ same_store (db w) (db w1)
        /\ ((_schema_is_initialized (self w1) = true /\ r = Ok c /\ w' = w1)
            \/ (_schema_is_initialized (self w1) = false
                /\ exists ri,
                  _init_schema {| self := set_schema_is_initialized true (self w1);
                                  db := db w1; warnings := warnings w1 |} = (ri, w')
                  /\ self w' = set_schema_is_initialized true (self w1)
                  /\ r = match ri with Ok _ => Ok c | Raise e => Raise e end))).
Proof.
  intros Hrun. unfold connection, connection_with in Hrun.
  apply bind_inv in Hrun as [(s & w0 & H0 & Hrun) | (e & H0 & _)]; [|discriminate H0].
  inversion H0; subst s w0; clear H0.
  apply bind_inv in Hrun as [(u & w1 & H1 & Hrun) | (e & H1 & ->)].
  2: { left. apply connection_ensured in H1 as ((pe & ->) & Hs & Hc & Hst). eauto 10. }
  apply connection_ensured in H1 as ((c & Hc) & Hs & Hst & _).
  right. exists w1, c. split; [exact Hc|]. split; [exact Hs|]. split; [exact Hst|].
  apply bind_inv in Hrun as [(s & w0 & H0 & Hrun) | (e & H0 & _)]; [|discriminate H0].
  inversion H0; subst s w0; clear H0.
  destruct (_schema_is_initialized (self w1)) eqn:Hf; cbn [negb] in Hrun.
  - left. unfold bind, ret, get_self in Hrun. rewrite Hc in Hrun.
    inversion Hrun; subst. auto.
  - right. split; [reflexivity|].
    set (w2 := {| self := set_schema_is_initialized true (self w1); db := db w1;
                  warnings := warnings w1 |}) in *.
    assert (Hw2 : stable w2) by (apply (stable_after_flag _ _ _ c); exact Hc).
    destruct (_init_schema w2) as [ri w3] eqn:Hi.
    pose proof (keeps_init_schema w2 Hw2) as [Hs3 _]. rewrite Hi in Hs3. simpl in Hs3.
    assert (Hc3 : _connection (self w3) = Some c).
    { rewrite Hs3. destruct (self w1); exact Hc. }
    unfold bind at 1 in Hrun. unfold bind at 1 in Hrun. unfold set_self at 1 in Hrun.
    fold w2 in Hrun. rewrite Hi in Hrun.
    destruct ri as [u'|e].
    + unfold bind, get_self in Hrun. rewrite Hc3 in Hrun. inversion Hrun; subst.
      exists (Ok u'). auto.
    + inversion Hrun; subst. exists (Raise e). auto.
Qed.

End PgvectorSchema.

(** X12: the property [connection] tries to initialise the schema once:
    whatever the call does, either the connection could not be opened (the
    driver's error is raised and the instance is as it was), or the
    instance holds a connection and has its flag set afterwards, also when
    the initialisation failed; every later call then returns the connection
    at once, without a round trip. *)
Theorem schema_initialisation_is_tried_once `{Env} (w : PgWorld) r w' :
  Pgvector.connection w = (r, w') ->
  (exists pe, r = Raise (Psycopg pe) /\ self w' = self w
              /\ Pgvector._connection (self w) = None)
  \/ (stable w' /\ exists c, Pgvector.connection w' = (Ok c, w')).
Proof.
  intros Hrun. apply connection_inv in Hrun
    as [(pe & -> & Hs & Hc & _) | (w1 & c & Hc & _ & _ & Hcase)].
  - left. eauto.
  - right. assert (Hst : stable w').
    { destruct Hcase as [(Hf & _ & ->) | (_ & ri & _ & Hs & _)].
      - split; eauto.
      - split; rewrite Hs; [exists c|]; destruct (self w1); simpl in *; auto. }
    split; [exact Hst | apply connection_stable; exact Hst].
Qed.

Lemma schema_initialisation_is_tried_once_witness :
  let w := Examples.pg_world
             (Examples.pg_store "exact_nearest_neighbor" "cosine_similarity")
             {| pg_table_ := None; pg_indexes := []; pg_ef_search := None;
                pg_changes := []; pg_faults := [false; false; true]; pg_log := [] |} in
  let r := @Pgvector.connection Examples.example_env w in
  fst r = Raise DocumentStoreError
  /\ pg_table_ (db (snd r)) = None
  /\ stable (snd r)
  /\ exists c, @Pgvector.connection Examples.example_env (snd r) = (Ok c, snd r).
Proof.
  intros w r.
  assert (Hr : r = (Raise DocumentStoreError, snd r)) by (vm_compute; reflexivity).
  split; [vm_compute; reflexivity|]. split; [vm_compute; reflexivity|].
  destruct (@schema_initialisation_is_tried_once Examples.example_env w _ _ Hr)
    as [(pe & Hx & _) | Hst]; [discriminate Hx | exact Hst].
Defined.

Section PgvectorInitSchema.
Context `{Env}.
Import Pgvector.
Local Open Scope py_scope.

Lemma same_table_refl (b : PgBackend) : same_table b b.
Proof. reflexivity. Qed.

Lemma same_table_trans (a b c : PgBackend) :
  same_table a b -> same_table b c -> same_table a c.
Proof. unfold same_table. congruence. Qed.

Lemma exec_keeps_rows (s : stmt) (b : PgBackend) :
  keeps_rows s = true -> pg_table_ (snd (exec s b)) = pg_table_ b.
Proof.
  destruct s; simpl; try discriminate; intros _;
    repeat match goal with
           | |- context [match ?x with _ => _ end] => destruct x eqn:?; simpl
           end; congruence.
Qed.

Lemma execute_keeps_rows (text : string) (p : params) (s : stmt) (b : PgBackend) :
  keeps_rows s = true -> same_table b (snd (Postgres.execute text p s b)).
Proof.
  intros Hs. unfold same_table, Postgres.execute, round_trip.
  destruct (next_fault _) as [f b1] eqn:Hf.
  assert (Hb1 : pg_table_ b1 = pg_table_ b).
  { change b1 with (snd (f, b1)). rewrite <- Hf. rewrite next_fault_table. reflexivity. }
  destruct f; simpl; [exact Hb1|]. rewrite exec_keeps_rows by exact Hs. exact Hb1.
Qed.

Ltac rows_side := try exact same_table_refl; try exact same_table_trans.

Ltac rows_step :=
  first
    [ apply keeps_ret
    | apply keeps_raise
    | apply keeps_get_self
    | apply keeps_warning
    | apply keeps_connection_with
    | apply keeps_Cursor_execute; intros; apply execute_keeps_rows; reflexivity
    | apply keeps_bind; [ | | intros ?] ]; rows_side.

Ltac rows_auto :=
  repeat first
    [ rows_step
    | match goal with
      | |- keeps _ (let _ := _ in _) => cbv zeta
      | |- keeps _ (if ?c then _ else _) => destruct c
      | |- keeps _ (match ?x with _ => _ end) => destruct x
      end ].

Lemma rows_kept_by_create_hnsw_index (init : Method unit) :
  keeps same_table (_create_hnsw_index_with (connection_with init)).
Proof. unfold _create_hnsw_index_with. rows_auto. Qed.

Lemma rows_kept_by_handle_hnsw (init : Method unit) :
  keeps same_table (_handle_hnsw_with (connection_with init)).
Proof.
  unfold _handle_hnsw_with. rows_auto; apply rows_kept_by_create_hnsw_index.
Qed.

Lemma cursor_execute_inv (q : Composed) (p : params) (s : stmt) (w : PgWorld) rs w' :
  Cursor_execute q p s w = (Ok rs, w') ->
  exists b0, exec s b0 = (PgOk rs, db w') /\ same_store (db w) b0 /\ self w' = self w.
Proof.
  unfold Cursor_execute, set_db_result.
  destruct (Postgres.execute _ _ _ (db w)) as [[rs'|e] b] eqn:He; [|discriminate].
  intros Hx. inversion Hx; subst rs' w'. simpl.
  unfold Postgres.execute, round_trip in He.
  pose proof (next_fault_store (with_log (EvExecute (as_string q) p s :: pg_log (db w))
                                         (db w))) as Hf.
  destruct (next_fault _) as [f b0]. simpl in Hf.
  destruct f; [discriminate|]. exists b0. auto.
Qed.

(** What a schema initialisation that succeeds leaves: the table, emptied
    first when [recreate_table] is set, and the keyword index. *)
Lemma init_schema_with_inv (init : Method unit) (w w' : PgWorld) :
  stable w ->
  _init_schema_with (connection_with init) w = (Ok tt, w') ->
  self w' = self w
  /\ pg_changes (db w') = pg_changes (db w)
  /\ pg_table_ (db w')
     = Some (match (if recreate_table (self w) then None else pg_table_ (db w)) with
             | Some t => t
             | None => {| tbl_dim := embedding_dimension (self w); tbl_rows := [] |}
             end)
  /\ (String.eqb (search_strategy (self w)) "hnsw" = false ->
      Postgres.index_exists (table_name (self w)) (keyword_index_name (self w))
        (pg_indexes (db w')) = true).
Proof.
  intros Hw Hrun.
  pose proof (keeps_init_schema_with init w Hw) as [Hs Hch]. rewrite Hrun in Hs, Hch.
  simpl in Hs, Hch. split; [exact Hs|]. split; [exact Hch|].
  unfold _init_schema_with in Hrun.
  apply bind_inv in Hrun as [(s & w0 & H0 & Hrun) | (e & H0 & Hx)]; [|discriminate Hx].
  inversion H0; subst s w0; clear H0.
  apply bind_inv in Hrun as [(u & w1 & H1 & Hrun) | (e & H1 & Hx)]; [|discriminate Hx].
  assert (Hw1 : self w1 = self w
                /\ pg_table_ (db w1)
                   = (if recreate_table (self w) then None else pg_table_ (db w))).
  { destruct (recreate_table (self w)); [|inversion H1; subst; auto].
    pose proof (keeps_delete_table init w Hw) as [Hs1 _]. rewrite H1 in Hs1.
    split; [exact Hs1|].
    unfold delete_table_with in H1.
    apply bind_inv in H1 as [(s & w0 & H0 & H1) | (e & H0 & Hx)]; [|discriminate Hx].
    inversion H0; subst s w0; clear H0.
    destruct (connection_with_stable init w Hw) as [c Hc].
    rewrite (bind_ok _ _ _ _ _ Hc) in H1.
    apply bind_inv in H1 as [(rs & w2 & H2 & H1) | (e & H2 & Hx)]; [|discriminate Hx].
    inversion H1; subst. apply cursor_execute_inv in H2 as (b0 & He & _ & _).
    simpl in He. inversion He. reflexivity. }
  destruct Hw1 as [Hs1 Ht1]. clear H1.
  assert (Hst1 : stable w1) by (apply (stable_self w); assumption).
  cbv zeta in Hrun.
  destruct (connection_with_stable init w1 Hst1) as [c Hc].
  rewrite (bind_ok _ _ _ _ _ Hc) in Hrun.
  apply bind_inv in Hrun as [(rs2 & w2 & H2 & Hrun) | (e & H2 & Hx)]; [|discriminate Hx].
  apply cursor_execute_inv in H2 as (b2 & He2 & (Hb2 & _) & Hs2).
  assert (Ht2 : pg_table_ (db w2)
                = Some (match pg_table_ (db w1) with
                        | Some t => t
                        | None => {| tbl_dim := embedding_dimension (self w);
                                     tbl_rows := [] |}
                        end)).
  { simpl in He2. rewrite Hb2 in He2.
    destruct (pg_table_ (db w1)) as [t|] eqn:Ht; inversion He2; subst; simpl; congruence. }
  clear He2 Hb2.
  apply bind_inv in Hrun as [(rs3 & w3 & H3 & Hrun) | (e & H3 & Hx)]; [|discriminate Hx].
  apply cursor_execute_inv in H3 as (b3 & He3 & (Hb3t & Hb3i & _) & Hs3).
  simpl in He3.
  assert (Hrs3 : rs3 = RsExists (Postgres.index_exists (table_name (self w))
                                   (keyword_index_name (self w)) (pg_indexes b3)))
    by (inversion He3; reflexivity).
  assert (Hdb3 : db w3 = b3) by (inversion He3; reflexivity).
  clear He3. subst rs3.
  apply bind_inv in Hrun as [(u4 & w4 & H4 & Hrun) | (e & H4 & Hx)]; [|discriminate Hx].
  assert (Hw4 : self w4 = self w /\ pg_table_ (db w4) = pg_table_ (db w2)
                /\ Postgres.index_exists (table_name (self w)) (keyword_index_name (self w))
                     (pg_indexes (db w4)) = true).
  { destruct (Postgres.index_exists (table_name (self w)) (keyword_index_name (self w))
                (pg_indexes b3)) eqn:Hex; cbn [negb] in H4.
    - assert (w4 = w3) by (inversion H4; reflexivity). subst w4.
      rewrite Hs3, Hs2, Hs1, Hdb3, Hb3t, Hex. auto.
    - apply bind_inv in H4 as [(rs5 & w5 & H5 & H4) | (e & H5 & Hx)]; [|discriminate Hx].
      assert (w4 = w5) by (inversion H4; reflexivity). subst w4.
      apply cursor_execute_inv in H5 as (b5 & He5 & (Hb5t & _) & Hs5).
      simpl in He5. destruct (pg_table_ b5) as [t5|] eqn:Ht5; [|discriminate He5].
      destruct (index_name_taken _ (pg_indexes b5)); [discriminate He5|].
      assert (Hdb5 : db w5 = with_indexes
                               ({| ix_table := table_name (self w);
                                   ix_name := keyword_index_name (self w);
                                   ix_method := Gin (language (self w)) |}
                                  :: pg_indexes b5) b5)
        by (inversion He5; reflexivity).
      split; [congruence|]. rewrite Hdb5. cbn [pg_table_ pg_indexes with_indexes].
      split; [rewrite Hdb3, Hb3t in Hb5t; congruence|].
      apply index_exists_cons. }
  destruct Hw4 as (Hs4 & Ht4 & Hix4). clear H4.
  assert (Hst4 : stable w4) by (apply (stable_self w); assumption).
  destruct (String.eqb (search_strategy (self w)) "hnsw") eqn:Hh.
  - pose proof (rows_kept_by_handle_hnsw init w4 Hst4) as [_ Ht5].
    rewrite Hrun in Ht5. simpl in Ht5. unfold same_table in Ht5.
    split; [|discriminate]. rewrite Ht5, Ht4, Ht2, Ht1. reflexivity.
  - inversion Hrun; subst w'. split; [|intros _; exact Hix4].
    rewrite Ht4, Ht2, Ht1. reflexivity.
Qed.

End PgvectorInitSchema.

(** X13: the first call of the property [connection] that returns has
    initialised the schema: the instance holds a connection and has its
    flag set, no document was inserted or overwritten, and the table
    exists.  With [recreate_table] set the table is empty, whatever it held;
    otherwise a table that existed is kept with its rows, and a missing one
    is created empty with the dimension of the store.  Unless the search
    strategy is ["hnsw"], the keyword index exists on the table. *)
Theorem first_connection_sets_up_the_table `{Env} (w : PgWorld) c w' :
  Pgvector._schema_is_initialized (self w) = false ->
  Pgvector.connection w = (Ok c, w') ->
  stable w'
  /\ pg_changes (db w') = pg_changes (db w)
  /\ pg_table_ (db w')
     = Some (match (if Pgvector.recreate_table (self w) then None else pg_table_ (db w))
             with
             | Some t => t
             | None => {| tbl_dim := Pgvector.embedding_dimension (self w);
                          tbl_rows := [] |}
             end)
  /\ (Pgvector.search_strategy (self w) <> "hnsw" ->
      Postgres.index_exists (Pgvector.table_name (self w))
        (Pgvector.keyword_index_name (self w)) (pg_indexes (db w')) = true).
Proof.
  intros Hf Hrun. apply connection_inv in Hrun
    as [(pe & Hx & _) | (w1 & c1 & Hc & Hs1 & (Ht1 & _ & Hch1) & Hcase)];
    [discriminate Hx|].
  assert (Hfields : Pgvector._schema_is_initialized (self w1) = false
                    /\ Pgvector.recreate_table (self w1) = Pgvector.recreate_table (self w)
                    /\ Pgvector.embedding_dimension (self w1)
                       = Pgvector.embedding_dimension (self w)
                    /\ Pgvector.search_strategy (self w1) = Pgvector.search_strategy (self w)
                    /\ Pgvector.table_name (self w1) = Pgvector.table_name (self w)
                    /\ Pgvector.keyword_index_name (self w1)
                       = Pgvector.keyword_index_name (self w)).
  { destruct Hs1 as [-> | (c2 & ->)]; [auto 10|]. destruct (self w); simpl in *. auto 10. }
  destruct Hfields as (Hf1 & Hrec & Hdim & Hstr & Htn & Hkn).
  destruct Hcase as [(Hf1' & _) | (_ & ri & Hi & Hs' & Hr)]; [congruence|].
  destruct ri as [[]|e]; [|discriminate Hr].
  set (w2 := {| self := Pgvector.set_schema_is_initialized true (self w1); db := db w1;
                warnings := warnings w1 |}) in *.
  assert (Hw2 : stable w2) by (apply (stable_after_flag _ _ _ c1); exact Hc).
  change (@Pgvector._init_schema H)
    with (Pgvector._init_schema_with
            (Pgvector.connection_with (Pgvector._init_schema_at 999))) in Hi.
  apply init_schema_with_inv in Hi as (Hs & Hch & Ht & Hix); [|exact Hw2].
  assert (Hw' : stable w') by (apply (stable_self w2); assumption).
  split; [exact Hw'|].
  assert (Hself2 : Pgvector.recreate_table (self w2) = Pgvector.recreate_table (self w)
                   /\ Pgvector.embedding_dimension (self w2)
                      = Pgvector.embedding_dimension (self w)
                   /\ Pgvector.search_strategy (self w2) = Pgvector.search_strategy (self w)
                   /\ Pgvector.table_name (self w2) = Pgvector.table_name (self w)
                   /\ Pgvector.keyword_index_name (self w2)
                      = Pgvector.keyword_index_name (self w)).
  { unfold w2. cbn [self]. destruct (self w1); simpl in *. auto 10. }
  destruct Hself2 as (Hrec2 & Hdim2 & Hstr2 & Htn2 & Hkn2).
  rewrite Hrec2, Hdim2 in Ht. rewrite Hstr2, Htn2, Hkn2 in Hix.
  cbn [db w2] in Ht, Hch. unfold same_changes in Hch.
  split; [congruence|]. split; [rewrite Ht, Ht1; reflexivity|].
  intros Hne. apply Hix. apply String.eqb_neq. exact Hne.
Qed.

Lemma first_connection_sets_up_the_table_witness :
  let s := {| Pgvector.connection_string := Some "postgresql://localhost/db";
              Pgvector.schema_name := "public"; Pgvector.table_name := "haystack_documents";
              Pgvector.language := "english"; Pgvector.embedding_dimension := 3;
              Pgvector.vector_function := "cosine_similarity";
              Pgvector.recreate_table := true;
              Pgvector.search_strategy := "exact_nearest_neighbor";
              Pgvector.hnsw_recreate_index_if_exists := false;
              Pgvector.hnsw_index_creation_kwargs := [];
              Pgvector.hnsw_index_name := "haystack_hnsw_index";
              Pgvector.hnsw_ef_search := None;
              Pgvector.keyword_index_name := "haystack_keyword_index";
              Pgvector._connection := None; Pgvector._schema_is_initialized := false |} in
  let w := Examples.pg_world s
             (Examples.pg_backend [Examples.row "a" (Some "x") [] None] [] []) in
  let r := @Pgvector.connection Examples.example_env w in
  fst r = Ok 0%nat
  /\ stable (snd r)
  /\ pg_changes (db (snd r)) = pg_changes (db w)
  /\ pg_table_ (db (snd r)) = Some {| tbl_dim := 3; tbl_rows := [] |}
  /\ (Pgvector.search_strategy (self w) <> "hnsw" ->
      Postgres.index_exists "haystack_documents" "haystack_keyword_index"
        (pg_indexes (db (snd r))) = true).
Proof.
  intros s w r.
  assert (Hr : r = (Ok 0%nat, snd r)) by (vm_compute; reflexivity).
  split; [vm_compute; reflexivity|].
  exact (@first_connection_sets_up_the_table Examples.example_env w 0%nat (snd r)
           eq_refl Hr).
Defined.

(** ** Rebuilding the HNSW index *)

Section HandleHnswRebuild.
Context `{Env}.
Import Pgvector.
Local Open Scope py_scope.

Variable s : PgvectorDocumentStore.
Variable conn : Method nat.
Hypothesis conn_returns : forall w : PgWorld, self w = s -> exists c, conn w = (Ok c, w).



End HandleHnswRebuild.

(** ** Deleting from the pgvector store *)

(** X15: [delete_documents] with no id returns at once, without opening a
    connection.  With ids, none of which holds a quote, on a store whose
    schema is initialised and a server that answers: the call returns, the
    rows left are the rows whose id is not among the ids, in their order,
    and nothing is recorded as inserted or overwritten. *)
Theorem delete_documents_removes_the_ids `{Env} :
  (forall w : PgWorld, Pgvector.delete_documents [] w = (Ok tt, w))
  /\ (forall (document_ids : list string) (w : PgWorld) t,
         stable w ->
         pg_faults (db w) = [] ->
         pg_table_ (db w) = Some t ->
         document_ids <> [] ->
         existsb Pgvector.has_quote document_ids = false ->
         exists w' rows',
           Pgvector.delete_documents document_ids w = (Ok tt, w')
           /\ pg_table_ (db w') = Some {| tbl_dim := tbl_dim t; tbl_rows := rows' |}
           /\ (forall r, In r rows' <-> In r (tbl_rows t) /\ ~ In (row_id r) document_ids)
           /\ (forall i, In i document_ids -> has_id i rows' = false)
           /\ pg_changes (db w') = pg_changes (db w)
           /\ pg_indexes (db w') = pg_indexes (db w)
           /\ self w' = self w).
Proof.
  split; [reflexivity|].
  intros document_ids w t Hst Hno Ht Hne Hq.
  assert (Hconn : forall w0 : PgWorld,
             self w0 = self w -> exists c, Pgvector.connection w0 = (Ok c, w0)).
  { intros w0 Hs. apply connection_stable. apply (stable_self w); assumption. }
  unfold Pgvector.delete_documents.
  destruct document_ids as [|i0 ids]; [congruence|].
  rewrite get_self_step.
  rewrite (conn_step (self w) Pgvector.connection Hconn) by (split; [reflexivity|exact Hno]).
  rewrite (exec_step (self w)) by (split; [reflexivity|exact Hno]).
  rewrite Hq. cbn [exec pg_table_ with_log]. rewrite Ht.
  eexists _, _. split; [reflexivity|]. cbn [db with_db pg_table_ with_table].
  split; [reflexivity|].
  assert (Hmem : forall r, existsb (String.eqb (row_id r)) (i0 :: ids) = true
                           <-> In (row_id r) (i0 :: ids)).
  { intros r. rewrite existsb_exists. split.
    - intros (x & Hx & E). apply String.eqb_eq in E. subst. exact Hx.
    - intros Hx. exists (row_id r). split; [exact Hx | apply String.eqb_refl]. }
  split; [|split].
  - intros r. rewrite filter_In, negb_true_iff. specialize (Hmem r).
    destruct (existsb (String.eqb (row_id r)) (i0 :: ids)).
    + split; [intros [_ Hx]; discriminate Hx|].
      intros [_ Hx]. exfalso. apply Hx. apply Hmem. reflexivity.
    + split; intros [Hr _]; (split; [exact Hr|]); [|reflexivity].
      intros Hx. apply Hmem in Hx. discriminate Hx.
  - intros i Hi. apply has_id_false. intros Hin.
    apply in_map_iff in Hin as (r & <- & Hr).
    apply filter_In in Hr as [_ Hr]. apply negb_true_iff in Hr.
    apply Hmem in Hi. congruence.
  - auto.
Qed.

Lemma delete_documents_removes_the_ids_witness :
  let w := Examples.pg_world
             (Pgvector.set_connection (Some 0%nat)
                (Pgvector.set_schema_is_initialized true
                   (Examples.pg_store "exact_nearest_neighbor" "cosine_similarity")))
             (Examples.pg_backend [Examples.row "a" (Some "x") [] None;
                                   Examples.row "b" (Some "y") [] None;
                                   Examples.row "c" (Some "z") [] None] [] []) in
  exists w' rows',
    @Pgvector.delete_documents Examples.example_env ["c"; "a"; "n"] w = (Ok tt, w')
    /\ pg_table_ (db w') = Some {| tbl_dim := 2; tbl_rows := rows' |}
    /\ (forall i, In i ["c"; "a"; "n"] -> has_id i rows' = false).
Proof.
  intros w.
  destruct (proj2 (@delete_documents_removes_the_ids Examples.example_env)
              ["c"; "a"; "n"] w
              {| tbl_dim := 2;
                 tbl_rows := [Examples.row "a" (Some "x") [] None;
                              Examples.row "b" (Some "y") [] None;
                              Examples.row "c" (Some "z") [] None] |})
    as (w' & rows' & Hrun & Ht & _ & Hgone & _).
  - split; [exists 0%nat; reflexivity | reflexivity].
  - reflexivity.
  - reflexivity.
  - discriminate.
  - reflexivity.
  - exists w', rows'. auto.
Defined.

(** * Further properties of the Azure AI Search store *)

(** ** Metadata fields of the index *)

Section AzureIndexFields.
Import AzureAISearch.
Local Open Scope py_scope.

Lemma dict_set_fresh {V} (k : string) (v : V) (d : list (string * V)) :
  ~ In k (map fst d) -> dict_set k v d = (d ++ [(k, v)])%list.
Proof.
  induction d as [|[k0 v0] d IH]; simpl; intros Hk; [reflexivity|].
  destruct (String.eqb k k0) eqn:E.
  - apply String.eqb_eq in E. exfalso. apply Hk. left. congruence.
  - rewrite IH; [reflexivity|]. intros Hin. apply Hk. right. exact Hin.
Qed.

Lemma map_types_unsupported (metadata : list (string * pytype)) :
  forall acc, (exists key, In (key, T_other) metadata) ->
              _map_metadata_field_types_from acc metadata = Raise ValueError.
Proof.
  induction metadata as [|[k t] metadata IH]; intros acc (key & Hin); [destruct Hin|].
  simpl. destruct Hin as [Heq | Hin].
  - inversion Heq; subst. reflexivity.
  - destruct (type_mapping t); [|reflexivity]. apply IH. eauto.
Qed.

Lemma NoDup_move {A} (x : A) (a b : list A) :
  List.NoDup (a ++ x :: b) -> List.NoDup ((a ++ [x]) ++ b).
Proof. rewrite <- app_assoc. simpl. auto. Qed.

Lemma map_types_supported (metadata : list (string * pytype)) :
  forall acc,
    (forall key t, In (key, t) metadata -> t <> T_other) ->
    List.NoDup (map fst acc ++ map fst metadata) ->
    exists fields,
      _map_metadata_field_types_from acc metadata = Ok (acc ++ fields)%list
      /\ Forall2 (fun kt kf => fst kf = fst kt /\ type_mapping (snd kt) = Some (snd kf))
                 metadata fields.
Proof.
  induction metadata as [|[k t] metadata IH]; intros acc Hsup Hnd.
  - exists []. rewrite app_nil_r. split; [reflexivity | constructor].
  - simpl. destruct (type_mapping t) as [ft|] eqn:Ht.
    2: { destruct t; try discriminate Ht. exfalso.
         apply (Hsup k T_other); [left|]; reflexivity. }
    simpl in Hnd.
    assert (Hk : ~ In k (map fst acc)).
    { intros Hin. apply NoDup_remove_2 in Hnd. apply Hnd. apply in_app_iff. auto. }
    rewrite (dict_set_fresh k ft acc Hk).
    destruct (IH (acc ++ [(k, ft)])%list) as (fields & Hm & Hall).
    + intros key t' Hin. apply (Hsup key t'). right. exact Hin.
    + rewrite map_app. simpl. apply NoDup_move. exact Hnd.
    + exists ((k, ft) :: fields). rewrite Hm, <- app_assoc. simpl.
      split; [reflexivity|]. constructor; [simpl; auto | exact Hall].
Qed.

Lemma Forall2_map_fst {A B C} (l : list (A * B)) (l' : list (A * C))
  (P : B -> C -> Prop) :
  Forall2 (fun x y => fst y = fst x /\ P (snd x) (snd y)) l l' -> map fst l' = map fst l.
Proof. induction 1 as [|x y l l' [Hx _] _ IH]; simpl; [reflexivity | congruence]. Qed.

End AzureIndexFields.

(** X16: the metadata fields of an index must be declared with one of the
    types [str], [bool], [int] and [float].  With any other type
    [_create_metadata_index_fields] raises [ValueError], and [create_index]
    raises it before it sends anything to the service or records the fields
    on the instance.  When every type is one of the four, the fields created
    are the declared keys, in their order. *)
Theorem metadata_fields_need_supported_types :
  (forall metadata key,
      In (key, AzureAISearch.T_other) metadata ->
      AzureAISearch._create_metadata_index_fields metadata = Raise ValueError)
  /\ (forall metadata,
         (forall key t, In (key, t) metadata -> t <> AzureAISearch.T_other) ->
         List.NoDup (map fst metadata) ->
         AzureAISearch._create_metadata_index_fields metadata = Ok (map fst metadata))
  /\ (forall index_name (w : AzWorld) metadata key,
         AzureAISearch._metadata_fields (self w) = Some metadata ->
         In (key, AzureAISearch.T_other) metadata ->
         AzureAISearch.create_index index_name w = (Raise ValueError, w)).
Proof.
  split; [|split].
  - intros metadata key Hin.
    unfold AzureAISearch._create_metadata_index_fields,
      AzureAISearch._map_metadata_field_types.
    rewrite map_types_unsupported; [reflexivity | eauto].
  - intros metadata Hsup Hnd.
    unfold AzureAISearch._create_metadata_index_fields,
      AzureAISearch._map_metadata_field_types.
    destruct (map_types_supported metadata [] Hsup Hnd) as (fields & -> & Hall).
    simpl. f_equal.
    apply (Forall2_map_fst metadata fields
             (fun t ft => AzureAISearch.type_mapping t = Some ft) Hall).
  - intros index_name w metadata key Hm Hin.
    unfold AzureAISearch.create_index. unfold bind at 1. unfold get_self at 1.
    cbn beta iota. rewrite Hm.
    destruct metadata as [|m ms]; [destruct Hin|].
    unfold AzureAISearch._create_metadata_index_fields,
      AzureAISearch._map_metadata_field_types.
    rewrite map_types_unsupported by eauto. reflexivity.
Qed.

Lemma metadata_fields_need_supported_types_witness :
  AzureAISearch._create_metadata_index_fields
    [("author", AzureAISearch.T_str); ("tags", AzureAISearch.T_other)] = Raise ValueError
  /\ AzureAISearch._create_metadata_index_fields
       [("author", AzureAISearch.T_str); ("year", AzureAISearch.T_int)]
     = Ok ["author"; "year"].
Proof.
  split.
  - apply (proj1 metadata_fields_need_supported_types _ "tags").
    right. left. reflexivity.
  - apply (proj1 (proj2 metadata_fields_need_supported_types)
             [("author", AzureAISearch.T_str); ("year", AzureAISearch.T_int)]).
    + intros key t [Heq | [Heq | []]]; inversion Heq; discriminate.
    + repeat constructor; simpl; intuition discriminate.
Defined.

(** ** The search client and the index *)

Section AzureClient.
Import AzureAISearch.
Local Open Scope py_scope.

Lemma find_index_none_listed (name : string) (l : list search_index) :
  find_index name l = None -> existsb (String.eqb name) (map si_name l) = false.
Proof.
  induction l as [|x l IH]; simpl; [reflexivity|].
  rewrite (String.eqb_sym name (si_name x)).
  destruct (String.eqb (si_name x) name); simpl; [discriminate | exact IH].
Qed.

Lemma find_index_app_created (name : string) (l : list search_index) (new : search_index) :
  find_index name l = None -> si_name new = name ->
  find_index name (l ++ [new]) = Some new.
Proof.
  intros Hl Hn. induction l as [|x l IH]; simpl in *.
  - rewrite Hn, String.eqb_refl. reflexivity.
  - destruct (String.eqb (si_name x) name); [discriminate | auto].
Qed.

Lemma index_exists_missing (w : AzWorld) (name : string) :
  _index_client (self w) = true ->
  az_faults (db w) = [] ->
  name <> "" ->
  find_index name (az_indexes (db w)) = None ->
  exists b, index_exists name w = (Ok false, with_db b w)
            /\ az_faults b = [] /\ az_indexes b = az_indexes (db w)
            /\ az_changes b = az_changes (db w).
Proof.
  intros Hic Hno Hname Hix.
  pose proof (find_index_none_listed _ _ Hix) as Hlist.
  apply String.eqb_neq in Hname.
  unfold index_exists, bind, get_self. cbn beta iota. rewrite Hic, Hname.
  cbn [andb negb]. unfold sdk, list_index_names, az_call, ret. rewrite Hno.
  cbn. rewrite Hlist.
  eexists. split; [reflexivity|]. simpl. auto.
Qed.

Lemma create_index_run (w : AzWorld) (fields : list string) :
  az_faults (db w) = [] ->
  _index_name (self w) <> "" ->
  find_index (_index_name (self w)) (az_indexes (db w)) = None ->
  (match _metadata_fields (self w) with
   | Some (m :: ms) =>
       exists extra, _create_metadata_index_fields (m :: ms) = Ok extra
                     /\ fields = (["id"; "content"; "embedding"] ++ extra)%list
   | _ => fields = ["id"; "content"; "embedding"]
   end) ->
  exists b,
    AzureAISearch.create_index (_index_name (self w)) w
    = (Ok tt, {| self := set_index_fields (Some fields) (self w); db := b;
                 warnings := warnings w |})
    /\ az_faults b = []
    /\ az_indexes b
       = (az_indexes (db w)
          ++ [{| si_name := _index_name (self w); si_fields := fields; si_docs := [] |}])%list
    /\ az_changes b = az_changes (db w).
Proof.
  intros Hno Hname Hix Hfields. apply String.eqb_neq in Hname.
  unfold AzureAISearch.create_index, bind, get_self. cbn beta iota. rewrite Hname.
  unfold set_self, sdk, AzureService.create_index, az_call, ret, lift.
  destruct (_metadata_fields (self w)) as [[|m ms]|].
  - subst fields. cbn. rewrite Hno. cbn. rewrite Hix.
    eexists. split; [reflexivity|]. cbn. auto.
  - destruct Hfields as (extra & -> & ->). cbn. rewrite Hno. cbn. rewrite Hix.
    eexists. split; [reflexivity|]. cbn. auto.
  - subst fields. cbn. rewrite Hno. cbn. rewrite Hix.
    eexists. split; [reflexivity|]. cbn. auto.
Qed.

(** The property [client] on a service that answers and has no index of
    the name of the store. *)
Lemma client_creates_index (w : AzWorld) (fields : list string) :
  az_faults (db w) = [] ->
  _index_name (self w) <> "" ->
  find_index (_index_name (self w)) (az_indexes (db w)) = None ->
  (match _metadata_fields (self w) with
   | Some (m :: ms) =>
       exists extra, _create_metadata_index_fields (m :: ms) = Ok extra
                     /\ fields = (["id"; "content"; "embedding"] ++ extra)%list
   | _ => fields = ["id"; "content"; "embedding"]
   end) ->
  exists w1,
    client w = (Ok (_index_name (self w)), w1)
    /\ az_faults (db w1) = []
    /\ az_indexes (db w1)
       = (az_indexes (db w)
          ++ [{| si_name := _index_name (self w); si_fields := fields; si_docs := [] |}])%list
    /\ az_changes (db w1) = az_changes (db w)
    /\ _index_name (self w1) = _index_name (self w)
    /\ _index_fields (self w1) = Some fields
    /\ _create_index (self w1) = _create_index (self w).
Proof.
  intros Hno Hname Hix Hfields.
  set (sa := if negb (_index_client (self w)) then set_index_client true (self w)
             else self w).
  set (wa := {| self := sa; db := db w; warnings := warnings w |}).
  assert (Hsa : _index_client sa = true /\ _index_name sa = _index_name (self w)
                /\ _metadata_fields sa = _metadata_fields (self w)
                /\ _create_index sa = _create_index (self w)).
  { unfold sa. destruct (_index_client (self w)) eqn:Hic; simpl; auto. }
  destruct Hsa as (Hica & Hna & Hma & Hca).
  assert (H1 : (if negb (_index_client (self w))
                then set_self (set_index_client true (self w)) else ret tt) w
               = (Ok tt, wa)).
  { unfold wa, sa. destruct (_index_client (self w)); simpl; [destruct w|]; reflexivity. }
  destruct (index_exists_missing wa (_index_name (self w)))
    as (b1 & H2 & Hno1 & Hi1 & Hc1); auto.
  destruct (create_index_run (with_db b1 wa) fields) as (b2 & H3 & Hno2 & Hi2 & Hc2).
  - exact Hno1.
  - cbn [self with_db wa]. rewrite Hna. exact Hname.
  - cbn [self db with_db wa]. rewrite Hna, Hi1. exact Hix.
  - cbn [self with_db wa]. rewrite Hma. exact Hfields.
  - cbn [self db with_db wa warnings] in H3. rewrite Hna in H3.
    unfold client. unfold bind at 1. unfold get_self at 1. cbn beta iota.
    rewrite (bind_ok _ _ _ _ _ H1).
    unfold bind at 1. unfold get_self at 1. cbn beta iota. cbn [self wa].
    rewrite Hna. rewrite (bind_ok _ _ _ _ _ H2). cbn [negb].
    rewrite (bind_ok _ _ _ _ _ H3).
    unfold bind, get_self, set_self, ret. cbn. rewrite Hna.
    eexists. split; [reflexivity|]. cbn.
    cbn in Hi2, Hc2, Hi1, Hc1.
    rewrite Hno2, Hi2, Hc2, Hi1, Hc1, Hna, Hca. auto 10.
Qed.

End AzureClient.

(** X17: whatever the value of [_create_index] (the argument
    [create_index] of the constructor), the property [client] creates the
    index of the store when the service has none of that name: with a
    service that answers, a name that is not empty and metadata fields of
    supported types, [client] returns, and afterwards the index exists,
    empty, with the fields [id], [content] and [embedding] followed by the
    metadata fields; the flag is as it was. *)
Theorem client_creates_a_missing_index (w : AzWorld) (fields : list string) :
  az_faults (db w) = [] ->
  AzureAISearch._index_name (self w) <> "" ->
  find_index (AzureAISearch._index_name (self w)) (az_indexes (db w)) = None ->
  (match AzureAISearch._metadata_fields (self w) with
   | Some (m :: ms) =>
       exists extra, AzureAISearch._create_metadata_index_fields (m :: ms) = Ok extra
                     /\ fields = (["id"; "content"; "embedding"] ++ extra)%list
   | _ => fields = ["id"; "content"; "embedding"]
   end) ->
  exists w1,
    AzureAISearch.client w = (Ok (AzureAISearch._index_name (self w)), w1)
    /\ index_holds {| si_name := AzureAISearch._index_name (self w);
                      si_fields := fields; si_docs := [] |} w1
    /\ AzureAISearch._index_fields (self w1) = Some fields
    /\ AzureAISearch._create_index (self w1) = AzureAISearch._create_index (self w)
    /\ all_docs (db w1) = all_docs (db w).
Proof.
  intros Hno Hname Hix Hfields.
  destruct (client_creates_index w fields Hno Hname Hix Hfields)
    as (w1 & Hrun & _ & Hi & _ & Hn & Hf & Hc).
  exists w1. split; [exact Hrun|]. split.
  - unfold index_holds. rewrite Hn, Hi. apply find_index_app_created; [exact Hix | reflexivity].
  - split; [exact Hf|]. split; [exact Hc|].
    unfold all_docs. rewrite Hi, flat_map_app. simpl. rewrite app_nil_r. reflexivity.
Qed.

Lemma client_creates_a_missing_index_witness :
  let s := {| AzureAISearch._client := None; AzureAISearch._index_client := false;
              AzureAISearch._index_fields := None; AzureAISearch._api_key := "key";
              AzureAISearch._azure_endpoint := "https://example.search.windows.net";
              AzureAISearch._index_name := "default";
              AzureAISearch._embedding_dimension := 2;
              AzureAISearch._metadata_fields := Some [("author", AzureAISearch.T_str)];
              AzureAISearch._create_index := false;
              AzureAISearch._dummy_vector := None |} in
  let w := Examples.az_world s
             {| az_indexes := []; az_changes := []; az_faults := []; az_log := [] |} in
  exists w1,
    AzureAISearch.client w = (Ok "default", w1)
    /\ AzureAISearch._create_index (self w) = false
    /\ index_holds {| si_name := "default";
                      si_fields := ["id"; "content"; "embedding"; "author"];
                      si_docs := [] |} w1.
Proof.
  intros s w.
  destruct (client_creates_a_missing_index w ["id"; "content"; "embedding"; "author"])
    as (w1 & Hrun & Hix & _).
  - reflexivity.
  - discriminate.
  - reflexivity.
  - exists ["author"]. split; reflexivity.
  - exists w1. split; [exact Hrun|]. split; [reflexivity | exact Hix].
Defined.

(** ** From a document to a document of the index *)

Section AzureMapping.
Import AzureAISearch.
Local Open Scope py_scope.

Lemma dict_get_set_same {V} (k : string) (v : V) (d : list (string * V)) :
  dict_get k (dict_set k v d) = Some v.
Proof.
  induction d as [|[k0 v0] d IH]; simpl.
  - rewrite String.eqb_refl. reflexivity.
  - destruct (String.eqb k k0) eqn:E; simpl.
    + rewrite String.eqb_refl. reflexivity.
    + rewrite E. exact IH.
Qed.

Lemma dict_get_set_other {V} (k k' : string) (v : V) (d : list (string * V)) :
  k <> k' -> dict_get k (dict_set k' v d) = dict_get k d.
Proof.
  intros Hne. apply String.eqb_neq in Hne.
  induction d as [|[k0 v0] d IH]; simpl.
  - rewrite Hne. reflexivity.
  - destruct (String.eqb k' k0) eqn:E; simpl.
    + apply String.eqb_eq in E. subst k0. rewrite Hne. reflexivity.
    + rewrite IH. reflexivity.
Qed.

Lemma dict_get_none_keys {V} (k : string) (d : list (string * V)) :
  ~ In k (map fst d) -> dict_get k d = None.
Proof.
  induction d as [|[k0 v0] d IH]; simpl; intros Hk; [reflexivity|].
  destruct (String.eqb k k0) eqn:E.
  - apply String.eqb_eq in E. exfalso. apply Hk. left. congruence.
  - apply IH. intros Hin. apply Hk. right. exact Hin.
Qed.

(** [d.update(src)] on dictionaries: the entries of [src] win. *)
Lemma dict_get_update {V} (k : string) (src : list (string * V)) :
  List.NoDup (map fst src) ->
  forall d, dict_get k (dict_update d src)
            = match dict_get k src with
              | Some v => Some v
              | None => dict_get k d
              end.
Proof.
  unfold dict_update.
  induction src as [|[k' v'] src IH]; simpl; intros Hnd d; [reflexivity|].
  inversion Hnd as [|? ? Hk Hnd']; subst. rewrite (IH Hnd').
  destruct (String.eqb k k') eqn:E.
  - apply String.eqb_eq in E. subst k'.
    rewrite (dict_get_none_keys k src Hk). apply dict_get_set_same.
  - apply String.eqb_neq in E. rewrite (dict_get_set_other k k' v' d E). reflexivity.
Qed.

(** The document of the index made from a document with a string id. *)
Lemma convert_input_document_fields (d : Document) (s : string) (w : AzWorld) :
  id d = IdStr s ->
  List.NoDup (map fst (meta d)) ->
  exists x w',
    _convert_input_document d w = (Ok x, w')
    /\ db w' = db w /\ warnings w' = warnings w
    /\ (forall k,
          k <> "embedding" ->
          dict_get k x
          = match dict_get k (meta d) with
            | Some v => Some v
            | None => dict_get k [("id", VStr s);
                                  ("content", value_of_opt_str (content d))]
            end)
    /\ dict_get "embedding" x
       = Some (match (match dict_get "embedding" (meta d) with
                      | Some v => v
                      | None => match embedding d with
                                | Some v => value_of_floats v
                                | None => VNone
                                end
                      end) with
               | VNone => value_of_floats
                            (repeat (-10.0)%float (Z.to_nat (_embedding_dimension (self w))))
               | v => v
               end).
Proof.
  intros Hid Hnd. unfold _convert_input_document, asdict_kept. rewrite Hid.
  cbn [dict_get value_of_id String.eqb Ascii.eqb Bool.eqb].
  unfold _default_index_mapping.
  cbn [dict_get dict_del String.eqb Ascii.eqb Bool.eqb].
  set (base := [("id", VStr s); ("content", value_of_opt_str (content d));
                ("embedding", match embedding d with
                              | Some v => value_of_floats v
                              | None => VNone
                              end)]).
  assert (Hget : forall k, dict_get k (dict_update base (meta d))
                           = match dict_get k (meta d) with
                             | Some v => Some v
                             | None => dict_get k base
                             end)
    by (intros k; apply dict_get_update; exact Hnd).
  assert (Hother : forall k, k <> "embedding" ->
                     dict_get k base
                     = dict_get k [("id", VStr s);
                                   ("content", value_of_opt_str (content d))]).
  { intros k Hk. apply String.eqb_neq in Hk. unfold base. cbn [dict_get].
    destruct (String.eqb k "id"); [reflexivity|].
    destruct (String.eqb k "content"); [reflexivity|]. rewrite Hk. reflexivity. }
  pose proof (Hget "embedding") as He.
  change (dict_get "embedding" base)
    with (Some (match embedding d with
                | Some v => value_of_floats v
                | None => VNone
                end)) in He.
  destruct (dict_get "embedding" (dict_update base (meta d))) as [v|] eqn:Hg.
  2: { destruct (dict_get "embedding" (meta d)); discriminate He. }
  assert (Hv : v = match dict_get "embedding" (meta d) with
                   | Some v => v
                   | None => match embedding d with
                             | Some v => value_of_floats v
                             | None => VNone
                             end
                   end)
    by (destruct (dict_get "embedding" (meta d)); congruence).
  rewrite <- Hv. clear He Hv.
  destruct w as [s0 b ws].
  destruct v; unfold bind, get_self, set_self, ret; cbn [self db warnings];
    eexists _, _; (split; [reflexivity|]); (split; [reflexivity|]);
    (split; [reflexivity|]);
    (split; [|first [exact Hg | apply dict_get_set_same]]);
    intros k Hk; rewrite ?(dict_get_set_other k "embedding" _ _ Hk), Hget, (Hother k Hk);
    reflexivity.
Qed.

End AzureMapping.

(** X18: when the Azure store converts a document with a string id for
    the index, every entry of the metadata becomes a field of the document
    of the index, and it replaces the field of that name made from the
    document itself: a metadata entry [id] becomes the key of the document,
    an entry [content] its content.  A field that no metadata entry names
    keeps the value of the document, and the field [embedding] is never
    null: a missing embedding is replaced by the placeholder vector. *)
Theorem metadata_entries_override_document_fields (d : Document) (s : string) (w : AzWorld) :
  id d = IdStr s ->
  List.NoDup (map fst (meta d)) ->
  exists x w',
    AzureAISearch._convert_input_document d w = (Ok x, w')
    /\ (forall k v,
          dict_get k (meta d) = Some v -> k <> "embedding" -> dict_get k x = Some v)
    /\ (dict_get "id" (meta d) = None -> key_of x = Some s)
    /\ (forall i, dict_get "id" (meta d) = Some (VStr i) -> key_of x = Some i)
    /\ (dict_get "content" (meta d) = None ->
        dict_get "content" x = Some (AzureAISearch.value_of_opt_str (content d)))
    /\ dict_get "embedding" x <> Some VNone
    /\ dict_get "embedding" x <> None.
Proof.
  intros Hid Hnd.
  destruct (convert_input_document_fields d s w Hid Hnd)
    as (x & w' & Hrun & _ & _ & Hget & Hemb).
  exists x, w'. split; [exact Hrun|].
  split; [intros k v Hk Hne; rewrite (Hget k Hne), Hk; reflexivity|].
  split; [intros Hno; unfold key_of; rewrite (Hget "id") by discriminate;
          rewrite Hno; reflexivity|].
  split; [intros i Hi; unfold key_of; rewrite (Hget "id") by discriminate;
          rewrite Hi; reflexivity|].
  split; [intros Hno; rewrite (Hget "content") by discriminate; rewrite Hno; reflexivity|].
  rewrite Hemb. split; [|discriminate].
  match goal with
  | |- Some (match ?v with _ => _ end) <> _ => destruct v
  end; discriminate.
Qed.

Lemma metadata_entries_override_document_fields_witness :
  let d := Examples.doc (IdStr "a") (Some "text") [("id", VStr "b"); ("year", VInt 2020)]
             None in
  let w := Examples.az_world (Examples.az_store None None)
             (Examples.az_backend ["id"; "content"; "embedding"; "year"] [] []) in
  exists x w',
    AzureAISearch._convert_input_document d w = (Ok x, w')
    /\ key_of x = Some "b"
    /\ dict_get "year" x = Some (VInt 2020)
    /\ dict_get "embedding" x <> Some VNone.
Proof.
  intros d w.
  destruct (metadata_entries_override_document_fields d "a" w)
    as (x & w' & Hrun & Hmeta & _ & Hid & _ & Hemb & _).
  - reflexivity.
  - repeat constructor; simpl; intuition discriminate.
  - exists x, w'. split; [exact Hrun|]. split; [apply Hid; reflexivity|].
    split; [apply Hmeta; [reflexivity | discriminate] | exact Hemb].
Defined.

(** ** Reading from the Azure store *)

Section AzureReads.
Import AzureAISearch.
Local Open Scope py_scope.

Lemma az_keeps_convert_one (x : azure_doc) : az_keeps (convert_one x).
Proof.
  unfold convert_one. apply az_keeps_bind.
  - destruct (dict_get "embedding" x); [|apply az_keeps_ret].
    apply az_keeps_get_self_bind. intros w.
    destruct (_dummy_vector (self w)); [|apply az_keeps_raise].
    destruct (differs_from v l); apply az_keeps_ret.
  - intros e. destruct (dict_get "id" x); [|apply az_keeps_raise].
    destruct (dict_get "content" x); [apply az_keeps_ret | apply az_keeps_raise].
Qed.

Lemma az_keeps_convert_search_result (l : list azure_doc) :
  az_keeps (_convert_search_result_to_documents l).
Proof.
  unfold _convert_search_result_to_documents.
  induction l as [|x l IH]; simpl; [apply az_keeps_ret|].
  apply az_keeps_bind; [apply az_keeps_convert_one|]. intros d.
  apply az_keeps_bind; [exact IH|]. intros ds. apply az_keeps_ret.
Qed.

Lemma az_keeps_count_documents : az_keeps count_documents.
Proof.
  unfold count_documents. apply az_keeps_bind; [apply az_keeps_client|]. intros c.
  apply az_keeps_sdk. intros b. apply get_document_count_frame.
Qed.

Lemma az_keeps_filter_documents (filters : value) : az_keeps (filter_documents filters).
Proof.
  unfold filter_documents. apply az_keeps_bind; [apply az_keeps_client|]. intros c.
  apply az_keeps_bind; [apply az_keeps_count_documents|]. intros top.
  apply az_keeps_bind; [|intros l; apply az_keeps_convert_search_result].
  apply az_keeps_sdk. intros b. apply search_all_frame.
Qed.

Lemma sdk_get_document_count_inv (c : string) (w : AzWorld) n w' :
  sdk (get_document_count c) w = (Ok n, w') ->
  exists ix, find_index c (az_indexes (db w)) = Some ix /\ n = List.length (si_docs ix).
Proof.
  unfold sdk, get_document_count.
  pose proof (az_call_frame (AzGetDocumentCount c) (db w)) as [Hi _].
  destruct (az_call _ (db w)) as [f b1]. simpl in Hi.
  destruct f; [discriminate|]. rewrite Hi.
  destruct (find_index c (az_indexes (db w))) as [ix|]; [|discriminate].
  intros Hx. inversion Hx; subst. eauto.
Qed.

Lemma sdk_search_all_inv (c : string) (top : nat) (w : AzWorld) l w' :
  sdk (search_all c top) w = (Ok l, w') ->
  exists ix, find_index c (az_indexes (db w)) = Some ix /\ l = firstn top (si_docs ix).
Proof.
  unfold sdk, search_all.
  pose proof (az_call_frame (AzSearch c top) (db w)) as [Hi _].
  destruct (az_call _ (db w)) as [f b1]. simpl in Hi.
  destruct f; [discriminate|]. rewrite Hi.
  destruct (find_index c (az_indexes (db w))) as [ix|]; [|discriminate].
  intros Hx. inversion Hx; subst. eauto.
Qed.

(** What [_convert_search_result_to_documents] keeps of a document of the
    index: its id, its content and, possibly, its embedding. *)
Lemma convert_search_result_inv (l : list azure_doc) :
  forall (w : AzWorld) docs w',
    _convert_search_result_to_documents l w = (Ok docs, w') ->
    Forall2 (fun x d =>
               (forall s, dict_get "id" x = Some (VStr s) -> id d = IdStr s)
               /\ (forall s, dict_get "content" x = Some (VStr s) -> content d = Some s)
               /\ meta d = [] /\ blob d = None /\ dataframe d = None
               /\ score d = None /\ sparse_embedding d = None)
            l docs.
Proof.
  unfold _convert_search_result_to_documents.
  induction l as [|x l IH]; intros w docs w' Hrun; simpl in Hrun.
  - inversion Hrun; subst. constructor.
  - apply bind_inv in Hrun as [(d & w1 & H1 & Hrun) | (e & H1 & Hx)]; [|discriminate Hx].
    apply bind_inv in Hrun as [(ds & w2 & H2 & Hrun) | (e & H2 & Hx)]; [|discriminate Hx].
    inversion Hrun; subst. constructor; [|eapply IH; exact H2].
    unfold convert_one in H1.
    apply bind_inv in H1 as [(e & w3 & _ & H1) | (e & _ & Hx)]; [|discriminate Hx].
    destruct (dict_get "id" x) as [i|]; [|discriminate H1].
    destruct (dict_get "content" x) as [c|]; [|discriminate H1].
    inversion H1; subst. simpl.
    split; [intros s Hs; inversion Hs; reflexivity|].
    split; [intros s Hs; inversion Hs; reflexivity|]. auto.
Qed.

End AzureReads.

(** X19: whatever the filter it is given, when [filter_documents] of the
    Azure store returns, it returns one document per document of the index,
    in the order of the index, with the id and the content stored; the
    metadata fields stored with a document are not returned: every document
    comes back with empty metadata, and without blob, dataframe, score and
    sparse embedding.  The call writes nothing. *)
Theorem azure_read_returns_bare_documents (filters : value) (w : AzWorld) ix docs w' :
  index_holds ix w ->
  AzureAISearch.filter_documents filters w = (Ok docs, w') ->
  Forall2 (fun x d =>
             (forall s, dict_get "id" x = Some (VStr s) -> id d = IdStr s)
             /\ (forall s, dict_get "content" x = Some (VStr s) -> content d = Some s)
             /\ meta d = [] /\ blob d = None /\ dataframe d = None
             /\ score d = None /\ sparse_embedding d = None)
          (si_docs ix) docs
  /\ az_frame (db w) (db w').
Proof.
  intros Hix Hrun. split.
  2: { pose proof (az_keeps_filter_documents filters w) as [Hf _].
       rewrite Hrun in Hf. exact Hf. }
  unfold AzureAISearch.filter_documents in Hrun.
  apply bind_inv in Hrun as [(c & w1 & H1 & Hrun) | (e & H1 & Hx)]; [|discriminate Hx].
  pose proof (index_holds_kept AzureAISearch.client ix w az_keeps_client Hix) as Hix1.
  pose proof (az_keeps_client w) as [_ Hn1].
  apply client_returns_index_name in H1 as Hc. rewrite H1 in Hix1, Hn1. simpl in Hix1, Hn1.
  apply bind_inv in Hrun as [(top & w2 & H2 & Hrun) | (e & H2 & Hx)]; [|discriminate Hx].
  pose proof (index_holds_kept AzureAISearch.count_documents ix w1
                az_keeps_count_documents Hix1) as Hix2.
  pose proof (az_keeps_count_documents w1) as [_ Hn2].
  rewrite H2 in Hix2, Hn2. simpl in Hix2, Hn2.
  assert (Htop : top = List.length (si_docs ix)).
  { unfold AzureAISearch.count_documents in H2.
    apply bind_inv in H2 as [(c2 & w1a & H2a & H2) | (e & H2a & Hx)]; [|discriminate Hx].
    pose proof (index_holds_kept AzureAISearch.client ix w1 az_keeps_client Hix1) as Hixa.
    pose proof (az_keeps_client w1) as [_ Hna].
    apply client_returns_index_name in H2a as Hc2. rewrite H2a in Hixa, Hna.
    simpl in Hixa, Hna.
    apply sdk_get_document_count_inv in H2 as (ix' & Hfind & ->).
    unfold index_holds in Hixa. rewrite Hna, <- Hc2, Hfind in Hixa. congruence. }
  apply bind_inv in Hrun as [(l & w3 & H3 & Hrun) | (e & H3 & Hx)]; [|discriminate Hx].
  apply sdk_search_all_inv in H3 as (ix' & Hfind & ->).
  unfold index_holds in Hix2. rewrite Hn2, Hn1, <- Hc, Hfind in Hix2.
  inversion Hix2; subst ix'. rewrite Htop, firstn_all in Hrun.
  eapply convert_search_result_inv. exact Hrun.
Qed.

Lemma azure_read_returns_bare_documents_witness :
  let stored := [("id", VStr "a"); ("content", VStr "text");
                 ("embedding", VList [VFloat 1%float; VFloat 2%float]);
                 ("year", VInt 2020)] in
  let ix := {| si_name := "default"; si_fields := ["id"; "content"; "embedding"; "year"];
               si_docs := [stored] |} in
  let w := Examples.az_world (Examples.az_store None (Some []))
             (Examples.az_backend ["id"; "content"; "embedding"; "year"] [stored] []) in
  let r := AzureAISearch.filter_documents (VDict [("field", VStr "meta.year")]) w in
  let docs := match fst r with Ok l => l | Raise _ => [] end in
  map id docs = [IdStr "a"] /\ map meta docs = [[]]
  /\ Forall2 (fun x d =>
                (forall s, dict_get "id" x = Some (VStr s) -> id d = IdStr s)
                /\ (forall s, dict_get "content" x = Some (VStr s) -> content d = Some s)
                /\ meta d = [] /\ blob d = None /\ dataframe d = None
                /\ score d = None /\ sparse_embedding d = None)
             (si_docs ix) docs.
Proof.
  intros stored ix w r docs.
  assert (Hr : r = (Ok docs, snd r)) by (vm_compute; reflexivity).
  split; [vm_compute; reflexivity|]. split; [vm_compute; reflexivity|].
  exact (proj1 (azure_read_returns_bare_documents (VDict [("field", VStr "meta.year")])
                  w ix docs (snd r) eq_refl Hr)).
Defined.

(** ** Reading and deleting by id in the Azure store *)

Section AzureGetDocuments.
Import AzureAISearch.
Local Open Scope py_scope.

(** [client] on a service that answers and has the index: as
    [client_no_fault], with the warnings. *)
Lemma client_run (ix : search_index) (w : AzWorld) :
  az_faults (db w) = [] ->
  _index_name (self w) <> "" ->
  index_holds ix w ->
  exists s1 b1,
    client w = (Ok (_index_name (self w)),
                {| self := s1; db := b1; warnings := warnings w |})
    /\ az_faults b1 = []
    /\ az_indexes b1 = az_indexes (db w)
    /\ az_changes b1 = az_changes (db w)
    /\ _index_name s1 = _index_name (self w).
Proof.
  intros Hno Hname Hix. unfold index_holds in Hix.
  apply find_index_listed in Hix.
  apply String.eqb_neq in Hname.
  destruct w as [s b ws]. simpl in *.
  unfold client, bind, get_self, set_self, index_exists, sdk, list_index_names, az_call,
    ret, bind, get_self. simpl.
  destruct (_index_client s) eqn:Hic; simpl;
    rewrite ?Hic, Hname; simpl; rewrite Hno; simpl; rewrite Hix; simpl;
    eexists _, _; (split; [reflexivity|]); simpl; auto.
Qed.

Lemma get_one_run (ix : search_index) (acc : list azure_doc) (i : string) (w : AzWorld) :
  az_faults (db w) = [] ->
  _index_name (self w) <> "" ->
  index_holds ix w ->
  exists w1,
    get_one acc i w
    = (Ok (acc ++ match find_doc i (si_docs ix) with Some d => [d] | None => [] end)%list,
       w1)
    /\ az_faults (db w1) = []
    /\ az_indexes (db w1) = az_indexes (db w)
    /\ az_changes (db w1) = az_changes (db w)
    /\ _index_name (self w1) = _index_name (self w)
    /\ warnings w1
       = (match find_doc i (si_docs ix) with
          | Some _ => []
          | None => [NOT_FOUND_WARNING i]
          end ++ warnings w)%list.
Proof.
  intros Hno Hname Hix.
  destruct (client_run ix w Hno Hname Hix) as (s1 & b1 & Hc & Hno1 & Hi1 & Hc1 & Hn1).
  unfold get_one. rewrite (bind_ok _ _ _ _ _ Hc).
  unfold sdk, get_document, az_call. cbn [db]. rewrite Hno1. cbn [fst snd az_indexes].
  unfold index_holds in Hix. rewrite Hi1, Hix.
  destruct (find_doc i (si_docs ix)) as [d|].
  - eexists. split; [reflexivity|]. cbn. repeat split; auto.
  - unfold bind, logger_warning, ret. cbn. rewrite app_nil_r.
    eexists. split; [reflexivity|]. cbn. repeat split; auto.
Qed.

Lemma get_loop_run (ix : search_index) (ids : list string) :
  forall (acc : list azure_doc) (w : AzWorld),
    az_faults (db w) = [] ->
    _index_name (self w) <> "" ->
    index_holds ix w ->
    exists w1,
      get_loop ids acc w = (Ok (acc ++ found (si_docs ix) ids)%list, w1)
      /\ az_faults (db w1) = []
      /\ az_indexes (db w1) = az_indexes (db w)
      /\ az_changes (db w1) = az_changes (db w)
      /\ _index_name (self w1) = _index_name (self w)
      /\ warnings w1
         = (rev (map NOT_FOUND_WARNING (missing (si_docs ix) ids)) ++ warnings w)%list.
Proof.
  induction ids as [|i ids IH]; intros acc w Hno Hname Hix.
  - exists w. simpl. rewrite app_nil_r. repeat split; auto.
  - destruct (get_one_run ix acc i w Hno Hname Hix)
      as (w1 & H1 & Hno1 & Hi1 & Hc1 & Hn1 & Hw1).
    destruct (IH (acc ++ match find_doc i (si_docs ix) with
                         | Some d => [d]
                         | None => []
                         end)%list w1) as (w2 & H2 & Hno2 & Hi2 & Hc2 & Hn2 & Hw2).
    + exact Hno1.
    + rewrite Hn1. exact Hname.
    + unfold index_holds in *. rewrite Hn1, Hi1. exact Hix.
    + exists w2. cbn [get_loop]. rewrite (bind_ok _ _ _ _ _ H1), H2.
      split; [unfold found; simpl; rewrite <- app_assoc; reflexivity|].
      split; [exact Hno2|]. split; [congruence|]. split; [congruence|].
      split; [congruence|]. rewrite Hw2, Hw1. unfold missing. simpl.
      destruct (find_doc i (si_docs ix)); simpl; [reflexivity|].
      rewrite <- app_assoc. reflexivity.
Qed.

Lemma found_missing_length (docs : list azure_doc) (ids : list string) :
  (List.length (found docs ids) + List.length (missing docs ids))%nat = List.length ids.
Proof.
  unfold found, missing. induction ids as [|i ids IH]; simpl; [reflexivity|].
  destruct (find_doc i docs); simpl; rewrite ?length_app; simpl; lia.
Qed.

End AzureGetDocuments.

(** X20: [get_documents] on a service that answers and holds the index of
    the store: the call returns the documents stored under the ids, in the
    order of the ids, and logs one warning for each id under which nothing
    is stored, raising nothing for it; the documents returned and the
    warnings logged are as many as the ids, and the index is as it was. *)
Theorem get_documents_returns_the_stored_ones (document_ids : list string) (w : AzWorld) ix :
  az_faults (db w) = [] ->
  AzureAISearch._index_name (self w) <> "" ->
  index_holds ix w ->
  exists w',
    AzureAISearch.get_documents document_ids w = (Ok (found (si_docs ix) document_ids), w')
    /\ warnings w'
       = (rev (map AzureAISearch.NOT_FOUND_WARNING (missing (si_docs ix) document_ids))
          ++ warnings w)%list
    /\ (List.length (found (si_docs ix) document_ids)
        + List.length (missing (si_docs ix) document_ids))%nat = List.length document_ids
    /\ az_indexes (db w') = az_indexes (db w)
    /\ az_changes (db w') = az_changes (db w).
Proof.
  intros Hno Hname Hix.
  destruct (get_loop_run ix document_ids [] w Hno Hname Hix)
    as (w1 & Hrun & _ & Hi & Hc & _ & Hw).
  exists w1. split; [exact Hrun|]. split; [exact Hw|].
  split; [apply found_missing_length | auto].
Qed.

Lemma get_documents_returns_the_stored_ones_witness :
  let a := [("id", VStr "a"); ("content", VStr "x"); ("embedding", VNone)] in
  let b := [("id", VStr "b"); ("content", VStr "y"); ("embedding", VNone)] in
  let w := Examples.az_world (Examples.az_store None None)
             (Examples.az_backend ["id"; "content"; "embedding"] [a; b] []) in
  exists w',
    AzureAISearch.get_documents ["b"; "n"; "a"] w = (Ok [b; a], w')
    /\ warnings w' = ["Document with ID n not found."].
Proof.
  intros a b w.
  destruct (get_documents_returns_the_stored_ones ["b"; "n"; "a"] w
              {| si_name := "default"; si_fields := ["id"; "content"; "embedding"];
                 si_docs := [a; b] |})
    as (w' & Hrun & Hw & _).
  - reflexivity.
  - discriminate.
  - reflexivity.
  - exists w'. split; [exact Hrun | exact Hw].
Defined.

(** X21: [delete_documents] of the Azure store, on a service that answers
    and holds the index of the store, whatever the deletion request does:
    the guard on [count_documents] never ends the call, which looks every id
    up; when nothing is stored under any of the ids, the call returns
    without sending a deletion request, and the index is as it was;
    otherwise it sends one request, for the documents stored under the ids. *)
Theorem delete_documents_asks_for_the_stored_ones
  (sdk_delete_documents : string -> list azure_doc -> AzureBackend
                          -> az_res unit * AzureBackend)
  (document_ids : list string) (w : AzWorld) ix :
  az_faults (db w) = [] ->
  AzureAISearch._index_name (self w) <> "" ->
  index_holds ix w ->
  exists w1,
    AzureAISearch.get_documents document_ids w = (Ok (found (si_docs ix) document_ids), w1)
    /\ az_indexes (db w1) = az_indexes (db w)
    /\ (found (si_docs ix) document_ids = [] ->
        AzureAISearch.delete_documents sdk_delete_documents document_ids w = (Ok tt, w1))
    /\ (found (si_docs ix) document_ids <> [] ->
        exists w2,
          AzureAISearch.client w1 = (Ok (AzureAISearch._index_name (self w)), w2)
          /\ az_indexes (db w2) = az_indexes (db w)
          /\ AzureAISearch.delete_documents sdk_delete_documents document_ids w
             = AzureAISearch.sdk
                 (sdk_delete_documents (AzureAISearch._index_name (self w))
                                       (found (si_docs ix) document_ids)) w2).
Proof.
  intros Hno Hname Hix.
  destruct (get_loop_run ix document_ids [] w Hno Hname Hix)
    as (w1 & Hrun & Hno1 & Hi & Hc & Hn & Hw).
  cbn [app] in Hrun.
  exists w1. split; [exact Hrun|]. split; [exact Hi|]. split.
  - intros Hnone. unfold AzureAISearch.delete_documents.
    unfold AzureAISearch.get_documents in *. rewrite (bind_ok _ _ _ _ _ Hrun), Hnone.
    reflexivity.
  - intros Hsome.
    assert (Hix1 : index_holds ix w1).
    { unfold index_holds in *. rewrite Hn, Hi. exact Hix. }
    assert (Hname1 : AzureAISearch._index_name (self w1) <> "") by (rewrite Hn; exact Hname).
    destruct (client_no_fault ix w1 Hno1 Hname1 Hix1) as (w2 & Hc2 & _ & Hi2 & _ & _).
    rewrite Hn in Hc2. exists w2. split; [exact Hc2|]. split; [congruence|].
    unfold AzureAISearch.delete_documents.
    unfold AzureAISearch.get_documents in *. rewrite (bind_ok _ _ _ _ _ Hrun).
    destruct (found (si_docs ix) document_ids) as [|x l]; [congruence|].
    rewrite (bind_ok _ _ _ _ _ Hc2). reflexivity.
Qed.

Lemma delete_documents_asks_for_the_stored_ones_witness :
  let w := Examples.az_world (Examples.az_store None None)
             (Examples.az_backend ["id"; "content"; "embedding"] [] []) in
  let refuse := fun (_ : string) (_ : list azure_doc) (b : AzureBackend) =>
                  (@AzErr unit HttpResponseError, b) in
  exists w1,
    AzureAISearch.delete_documents refuse ["n"; "m"] w = (Ok tt, w1)
    /\ az_indexes (db w1) = az_indexes (db w)
    /\ List.length (az_log (db w1)) = 4%nat.
Proof.
  intros w refuse.
  destruct (delete_documents_asks_for_the_stored_ones refuse ["n"; "m"] w
              {| si_name := "default"; si_fields := ["id"; "content"; "embedding"];
                 si_docs := [] |})
    as (w1 & Hget & Hi & Hnone & _).
  - reflexivity.
  - discriminate.
  - reflexivity.
  - exists w1. split; [apply Hnone; reflexivity|]. split; [exact Hi|].
    assert (Hw1 : w1 = snd (AzureAISearch.get_documents ["n"; "m"] w))
      by (rewrite Hget; reflexivity).
    rewrite Hw1. vm_compute. reflexivity.
Defined.

(** ** The same id twice in a batch written to the Azure store *)

Section AzureRepeats.
Import AzureAISearch.
Local Open Scope py_scope.



Lemma find_index_name (name : string) (l : list search_index) (ix : search_index) :
  find_index name l = Some ix -> si_name ix = name.
Proof.
  induction l as [|x l IH]; simpl; [discriminate|].
  destruct (String.eqb (si_name x) name) eqn:E; [|exact IH].
  intros Hx. inversion Hx; subst. apply String.eqb_eq. exact E.
Qed.

Lemma find_index_put (name : string) (l : list search_index) (ix new : search_index) :
  find_index name l = Some ix -> si_name new = name ->
  find_index name (put_index new l) = Some new.
Proof.
  intros Hl Hn. induction l as [|x l IH]; simpl in *; [discriminate|].
  rewrite Hn. destruct (String.eqb (si_name x) name) eqn:E; simpl.
  - rewrite Hn, String.eqb_refl. reflexivity.
  - rewrite E. apply IH. exact Hl.
Qed.





End AzureRepeats.

(** * Writes to the pgvector store at any stage of the instance *)

(** ** What the wrapper does before it runs the method *)

Section PgvectorStages.
Context `{Env}.
Import Pgvector.
Local Open Scope py_scope.

Lemma table_stays_refl (b : PgBackend) : table_stays b b.
Proof. intros t Ht. exact Ht. Qed.

Lemma table_stays_trans (a b c : PgBackend) :
  table_stays a b -> table_stays b c -> table_stays a c.
Proof. unfold table_stays. auto. Qed.

Lemma stays_calm_refl (b : PgBackend) : stays_calm b b.
Proof. intros Hb. exact Hb. Qed.

Lemma stays_calm_trans (a b c : PgBackend) :
  stays_calm a b -> stays_calm b c -> stays_calm a c.
Proof. unfold stays_calm. auto. Qed.

Lemma exec_table_stays (s : stmt) (b : PgBackend) :
  keeps_table s = true -> table_stays b (snd (exec s b)).
Proof.
  intros Hs t Ht. destruct s; simpl in *; try discriminate; rewrite ?Ht; simpl; auto;
    repeat match goal with
           | |- context [match ?x with _ => _ end] => destruct x eqn:?; simpl
           end; auto.
Qed.

Lemma execute_table_stays (text : string) (p : params) (s : stmt) (b : PgBackend) :
  keeps_table s = true -> table_stays b (snd (Postgres.execute text p s b)).
Proof.
  intros Hs t Ht. unfold Postgres.execute, round_trip.
  destruct (next_fault _) as [f b1] eqn:Hf.
  assert (Hb1 : pg_table_ b1 = Some t).
  { change b1 with (snd (f, b1)). rewrite <- Hf, next_fault_table. exact Ht. }
  destruct f; simpl; [exact Hb1|]. apply exec_table_stays; assumption.
Qed.

Lemma exec_faults (s : stmt) (b : PgBackend) : pg_faults (snd (exec s b)) = pg_faults b.
Proof.
  destruct s; simpl; try reflexivity;
    repeat match goal with
           | |- context [match ?x with _ => _ end] => destruct x eqn:?; simpl
           end; reflexivity.
Qed.

Lemma execute_stays_calm (text : string) (p : params) (s : stmt) (b : PgBackend) :
  stays_calm b (snd (Postgres.execute text p s b)).
Proof.
  intros Hno. unfold Postgres.execute, round_trip, next_fault.
  cbn [pg_faults with_log]. rewrite Hno. simpl. rewrite exec_faults. exact Hno.
Qed.

Ltac stage_step R_refl R_trans lem :=
  first
    [ apply keeps_ret
    | apply keeps_raise
    | apply keeps_get_self
    | apply keeps_warning
    | apply keeps_connection_with
    | apply keeps_Cursor_execute; intros; apply lem; reflexivity
    | apply keeps_bind; [ | | intros ?] ];
  try exact R_refl; try exact R_trans.

Ltac stage_auto R_refl R_trans lem :=
  repeat first
    [ stage_step R_refl R_trans lem
    | match goal with
      | |- keeps _ (let _ := _ in _) => cbv zeta
      | |- keeps _ (if ?c then _ else _) => destruct c
      | |- keeps _ (match ?x with _ => _ end) => destruct x
      end ].

Lemma execute_stays_calm' (text : string) (p : params) (s : stmt) (b : PgBackend) :
  true = true -> stays_calm b (snd (Postgres.execute text p s b)).
Proof. intros _. apply execute_stays_calm. Qed.

Lemma calm_kept_by_create_hnsw_index (init : Method unit) :
  keeps stays_calm (_create_hnsw_index_with (connection_with init)).
Proof.
  unfold _create_hnsw_index_with.
  stage_auto stays_calm_refl stays_calm_trans execute_stays_calm'.
Qed.

Lemma calm_kept_by_handle_hnsw (init : Method unit) :
  keeps stays_calm (_handle_hnsw_with (connection_with init)).
Proof.
  unfold _handle_hnsw_with.
  stage_auto stays_calm_refl stays_calm_trans execute_stays_calm';
    apply calm_kept_by_create_hnsw_index.
Qed.

Lemma calm_kept_by_delete_table (init : Method unit) :
  keeps stays_calm (delete_table_with (connection_with init)).
Proof.
  unfold delete_table_with.
  stage_auto stays_calm_refl stays_calm_trans execute_stays_calm'.
Qed.

Lemma calm_kept_by_init_schema_with (init : Method unit) :
  keeps stays_calm (_init_schema_with (connection_with init)).
Proof.
  unfold _init_schema_with.
  stage_auto stays_calm_refl stays_calm_trans execute_stays_calm';
    first [apply calm_kept_by_delete_table | apply calm_kept_by_handle_hnsw].
Qed.

Lemma table_kept_by_create_hnsw_index (init : Method unit) :
  keeps table_stays (_create_hnsw_index_with (connection_with init)).
Proof.
  unfold _create_hnsw_index_with.
  stage_auto table_stays_refl table_stays_trans execute_table_stays.
Qed.

Lemma table_kept_by_handle_hnsw (init : Method unit) :
  keeps table_stays (_handle_hnsw_with (connection_with init)).
Proof.
  unfold _handle_hnsw_with.
  stage_auto table_stays_refl table_stays_trans execute_table_stays;
    apply table_kept_by_create_hnsw_index.
Qed.

(** Without [recreate_table], the initialisation of the schema leaves a
    table that exists in its place, whether it succeeds or not. *)
Lemma init_schema_keeps_table (init : Method unit) (w : PgWorld) :
  stable w ->
  recreate_table (self w) = false ->
  table_stays (db w) (db (snd (_init_schema_with (connection_with init) w))).
Proof.
  intros Hw Hrec. unfold _init_schema_with.
  unfold bind at 1. unfold get_self at 1. cbn beta iota. rewrite Hrec.
  match goal with
  | |- table_stays _ (db (snd (?m w))) => enough (Hk : keeps table_stays m) by apply (Hk w Hw)
  end.
  stage_auto table_stays_refl table_stays_trans execute_table_stays;
    apply table_kept_by_handle_hnsw.
Qed.

Lemma create_connection_calm (w : PgWorld) r w1 :
  _create_connection w = (r, w1) -> stays_calm (db w) (db w1).
Proof.
  intros Hc Hno. destruct (create_connection_no_fault w Hno) as (c & b & Hc' & Hnb & _).
  rewrite Hc in Hc'. inversion Hc'; subst. exact Hnb.
Qed.

Lemma init_schema_unfold :
  _init_schema = _init_schema_with (connection_with (_init_schema_at 999)).
Proof. reflexivity. Qed.

(** A call through the wrapper, whatever the method: either the connection
    cannot be opened or the first initialisation of the schema fails, and
    the call raises without running the method; or the method runs in a
    stable world, over the table that [table_found] describes, and the
    former connection is put back afterwards. *)
Lemma connected_method_stages (w : PgWorld) :
  (exists e w1,
      (forall A (m : Method A), _connected_method m w = (Raise e, w1))
      /\ pg_changes (db w1) = pg_changes (db w)
      /\ (_schema_is_initialized (self w) = true \/ recreate_table (self w) = false ->
          table_stays (db w) (db w1))
      /\ (_schema_is_initialized (self w) = true -> pg_faults (db w) <> []))
  \/ (exists wm c,
        stable wm
        /\ self wm = set_connection (Some c) (set_schema_is_initialized true (self w))
        /\ pg_changes (db wm) = pg_changes (db w)
        /\ pg_table_ (db wm) = table_found w
        /\ stays_calm (db w) (db wm)
        /\ forall A (m : Method A),
             _connected_method m w
             = (fst (m wm), put_back (_connection (self w)) (snd (m wm)))).
Proof.
  destruct (create_connection_run w) as (rc & b & Hc & Ht & Hi & Hch).
  pose proof (create_connection_calm w _ _ Hc) as Hcalm. cbn [db with_db] in Hcalm.
  destruct rc as [c|e].
  2: { left. exists e, (with_db b w). split.
       - intros A m. unfold _connected_method, try_finally, bind, get_self, set_self.
         rewrite Hc. cbn [self db warnings with_db]. rewrite restore_connection_id.
         reflexivity.
       - cbn [db with_db]. split; [exact Hch|]. split.
         + intros _ t Ht0. congruence.
         + intros _ Hno. destruct (create_connection_no_fault w Hno) as (c' & b' & Hc' & _).
           congruence. }
  set (s1 := set_connection (Some c) (self w)).
  assert (Hflag : _schema_is_initialized s1 = _schema_is_initialized (self w))
    by (destruct (self w); reflexivity).
  assert (Hrec1 : recreate_table s1 = recreate_table (self w))
    by (destruct (self w); reflexivity).
  assert (Hdim1 : embedding_dimension s1 = embedding_dimension (self w))
    by (destruct (self w); reflexivity).
  destruct (_schema_is_initialized (self w)) eqn:Hf.
  - (* the schema flag is set *)
    right. exists {| self := s1; db := b; warnings := warnings w |}, c.
    split; [split; [exists c; destruct (self w); reflexivity | exact Hflag]|].
    split; [cbn [self]; unfold s1; rewrite (flag_already_set _ Hf); reflexivity|].
    split; [exact Hch|]. split; [unfold table_found; rewrite Hf; exact Ht|].
    split; [exact Hcalm|].
    intros A m. unfold _connected_method, try_finally, bind, get_self, set_self.
    rewrite Hc. cbn [self db warnings with_db]. fold s1. rewrite Hflag. cbn [negb ret].
    destruct (m _) as [[a|e] w3]; reflexivity.
  - (* first use *)
    set (w2 := {| self := set_schema_is_initialized true s1; db := b;
                  warnings := warnings w |}).
    assert (Hst : stable w2).
    { split; [exists c; destruct (self w); reflexivity | destruct (self w); reflexivity]. }
    assert (Hrun : forall A (m : Method A),
               _connected_method m w
               = match _init_schema w2 with
                 | (Ok _, w3) => (fst (m w3), put_back (_connection (self w)) (snd (m w3)))
                 | (Raise e, w3) => (Raise e, put_back (_connection (self w)) w3)
                 end).
    { intros A m. unfold _connected_method, try_finally, bind, get_self, set_self.
      rewrite Hc. cbn [self db warnings with_db]. fold s1. rewrite Hflag.
      cbn [negb self db warnings]. fold w2.
      destruct (_init_schema w2) as [[u|e] w3]; [|reflexivity].
      destruct (m w3) as [[a|e] w4]; reflexivity. }
    pose proof (keeps_init_schema w2 Hst) as [Hs3 Hc3].
    pose proof (calm_kept_by_init_schema_with (_init_schema_at 999) w2 Hst) as [_ Hcalm3].
    rewrite <- init_schema_unfold in Hcalm3.
    destruct (_init_schema w2) as [[[]|e] w3] eqn:Hinit; cbn [snd] in Hs3, Hc3, Hcalm3.
    + right. exists w3, c.
      split; [apply (stable_self w2); assumption|].
      split; [rewrite Hs3; reflexivity|].
      split; [unfold same_changes in Hc3; rewrite Hc3; exact Hch|].
      split.
      { rewrite init_schema_unfold in Hinit.
        apply init_schema_with_inv in Hinit as (_ & _ & Ht3 & _); [|exact Hst].
        rewrite Ht3. unfold table_found. rewrite Hf. cbn [self db w2].
        assert (Hr : recreate_table (set_schema_is_initialized true s1)
                     = recreate_table (self w)) by (destruct (self w); reflexivity).
        assert (Hd : embedding_dimension (set_schema_is_initialized true s1)
                     = embedding_dimension (self w)) by (destruct (self w); reflexivity).
        rewrite Hr, Hd, Ht. reflexivity. }
      split; [intros Hno; apply Hcalm3; cbn [db w2]; apply Hcalm; exact Hno|].
      exact Hrun.
    + left. exists e, (put_back (_connection (self w)) w3).
      split; [exact Hrun|]. cbn [db put_back].
      split; [unfold same_changes in Hc3; rewrite Hc3; exact Hch|].
      split; [|discriminate].
      intros [Hx | Hrec]; [discriminate Hx|].
      pose proof (init_schema_keeps_table (_init_schema_at 999) w2 Hst) as Hk.
      rewrite <- init_schema_unfold, Hinit in Hk. cbn [snd] in Hk.
      intros t Ht0. apply Hk.
      * cbn [self w2]. destruct (self w); exact Hrec.
      * cbn [db w2]. congruence.
Qed.

End PgvectorStages.

(** ** The write method at any stage *)

Section PgvectorAnyStage.
Context `{Env}.
Import Pgvector.
Local Open Scope py_scope.

Lemma insert_sql_self (s : PgvectorDocumentStore) (c : option nat) (policy : DuplicatePolicy) :
  insert_sql (set_connection c (set_schema_is_initialized true s)) policy
  = insert_sql s policy.
Proof. destruct s; reflexivity. Qed.

Lemma put_back_flag (s : PgvectorDocumentStore) (c : option nat) :
  set_connection (_connection s) (set_connection c (set_schema_is_initialized true s))
  = set_schema_is_initialized true s.
Proof. destruct s; reflexivity. Qed.

Lemma connected_write_batch (docs : list Document) (policy : DuplicatePolicy) (w : PgWorld) :
  stable w ->
  exists ws,
    _connected_write_documents (map ADocument docs) policy w
    = batch_outcome (batch_statement (self w) policy docs (db w)) (self w) ws.
Proof.
  intros Hw. destruct (from_haystack_map docs w) as (ws & Hfrom).
  exists ws. unfold _connected_write_documents, batch_outcome, batch_statement.
  assert (Hfirst : (match map ADocument docs with
                    | first :: _ =>
                        if negb (isinstance_Document first) then raise ValueError else ret tt
                    | [] => ret tt
                    end) w = (Ok tt, w)) by (destruct docs; reflexivity).
  rewrite (bind_ok _ _ _ _ _ Hfirst). rewrite (bind_ok _ _ _ _ _ Hfrom).
  set (w2 := {| self := self w; db := db w; warnings := ws |}).
  assert (Hw2 : stable w2) by (apply (stable_self w); [reflexivity | exact Hw]).
  unfold bind at 1. unfold get_self at 1. cbn beta iota.
  destruct (connection_stable w2 Hw2) as [c Hc].
  rewrite (bind_ok _ _ _ _ _ Hc). rewrite (bind_ok _ _ _ _ _ Hc).
  unfold bind at 1. cbn [self db w2].
  assert (Hst : forall b1, stable (with_db b1 w2))
    by (intros b1; apply (stable_self w2); [reflexivity | exact Hw2]).
  destruct (Postgres.executemany _ _ (map to_db_document docs) (db w)) as [[l|e] b].
  - destruct l; reflexivity.
  - destruct (connection_stable _ (Hst b)) as [c2 Hc2].
    destruct e; rewrite (bind_ok _ _ _ _ _ Hc2); reflexivity.
Qed.

(** A call of [write_documents], at any stage of the instance: the
    wrapper fails before the method runs; or an element of the batch is not
    a Document and the method raises without a statement; or the batch
    statement is sent, and decides the outcome. *)
Lemma write_documents_cases (documents : list pyobj) (policy : DuplicatePolicy)
  (w : PgWorld) :
  (exists e w1,
      (forall A (m : Method A), _connected_method m w = (Raise e, w1))
      /\ pg_changes (db w1) = pg_changes (db w)
      /\ (_schema_is_initialized (self w) = true \/ recreate_table (self w) = false ->
          table_stays (db w) (db w1))
      /\ (_schema_is_initialized (self w) = true -> pg_faults (db w) <> []))
  \/ (exists wm,
        stable wm
        /\ pg_changes (db wm) = pg_changes (db w)
        /\ pg_table_ (db wm) = table_found w
        /\ stays_calm (db w) (db wm)
        /\ (forall A (m : Method A),
              _connected_method m w
              = (fst (m wm), put_back (_connection (self w)) (snd (m wm))))
        /\ ((exists v e w',
                In (NotADocument v) documents
                /\ write_documents documents policy w = (Raise e, w')
                /\ pg_table_ (db w') = pg_table_ (db wm)
                /\ pg_changes (db w') = pg_changes (db wm))
            \/ (exists docs ws,
                  documents = map ADocument docs
                  /\ write_documents documents policy w
                     = batch_outcome (batch_statement (self w) policy docs (db wm))
                                     (set_schema_is_initialized true (self w)) ws))).
Proof.
  destruct (connected_method_stages w)
    as [Hfail | (wm & c & Hst & Hs & Hch & Ht & Hcalm & Hrun)]; [left; exact Hfail|].
  right. exists wm. do 5 (split; [assumption|]).
  unfold write_documents. rewrite Hrun.
  destruct (pyobjs_split documents) as [(docs & ->) | (v & Hv)].
  - right. destruct (connected_write_batch docs policy wm Hst) as (ws & Hb).
    exists docs, ws. split; [reflexivity|]. rewrite Hb, Hs.
    unfold batch_statement. rewrite insert_sql_self. fold (batch_statement (self w) policy docs (db wm)).
    unfold batch_outcome, put_back.
    destruct (batch_statement (self w) policy docs (db wm)) as [[l|e] b1].
    + destruct l; cbn [fst snd self db warnings]; rewrite put_back_flag; reflexivity.
    + destruct e; cbn [fst snd self db warnings]; rewrite put_back_flag; reflexivity.
  - left. destruct (connected_write_not_a_document documents policy wm v Hv)
      as (e & w' & Hp).
    exists v, e, (put_back (_connection (self w)) w'). split; [exact Hv|].
    rewrite Hp. split; [reflexivity|]. cbn [db put_back].
    apply connected_write_post in Hp as (_ & _ & Hc1 & Ht1); [auto | exact Hst].
Qed.

End PgvectorAnyStage.

(** ** The batch statement *)

Section PgvectorBatches.
Context `{Env}.
Import Pgvector.
Local Open Scope py_scope.

Lemma round_trip_insert_needs_table (c : conflict_clause) (d : db_document) (b : PgBackend) :
  pg_table_ b = None -> exists e b', round_trip (Insert c d) b = (PgErr e, b').
Proof.
  intros Ht. unfold round_trip. destruct (next_fault b) as [f b0] eqn:Hf.
  assert (Ht0 : pg_table_ b0 = None).
  { change b0 with (snd (f, b0)). rewrite <- Hf, next_fault_table. exact Ht. }
  destruct f; [eauto|]. simpl. rewrite Ht0. eauto.
Qed.

Lemma pipeline_needs_table (c : conflict_clause) (ds : list db_document) (b : PgBackend) :
  pg_table_ b = None -> ds <> [] -> exists e b', pipeline c ds b = (PgErr e, b').
Proof.
  intros Ht Hne. destruct ds as [|d ds]; [congruence|]. simpl.
  destruct (round_trip_insert_needs_table c d b Ht) as (e & b' & ->). eauto.
Qed.

Lemma clause_of_fail_policy (policy : DuplicatePolicy) :
  fail_policy policy ->
  conflict_clause_of (if policy_eqb policy NONE then FAIL else policy) = NoConflictClause.
Proof. intros [-> | ->]; reflexivity. Qed.

(** A write that returns, at any stage of the instance: the batch was a
    list of documents, and its statement ran on the table that the call
    found. *)
Lemma write_documents_returns (documents : list pyobj) (policy : DuplicatePolicy)
  (w : PgWorld) n w' :
  write_documents documents policy w = (Ok n, w') ->
  exists docs l b0 t,
    documents = map ADocument docs
    /\ table_found w = Some t
    /\ pg_table_ b0 = Some t
    /\ pg_changes b0 = pg_changes (db w)
    /\ pipeline (conflict_clause_of (if policy_eqb policy NONE then FAIL else policy))
         (map to_db_document docs) b0 = (PgOk l, db w')
    /\ n = count_rows l /\ l <> [].
Proof.
  intros Hrun.
  destruct (write_documents_cases documents policy w)
    as [(e & w1 & Hfail & _) | (wm & Hst & Hch & Ht & _ & _ & Hcase)].
  { unfold write_documents in Hrun. rewrite Hfail in Hrun. discriminate Hrun. }
  destruct Hcase as [(v & e & w1 & _ & Hr & _) | (docs & ws & -> & Hr)]; [congruence|].
  rewrite Hrun in Hr. unfold batch_outcome in Hr.
  destruct (batch_statement (self w) policy docs (db wm)) as [[l|pe] b1] eqn:Hb.
  2: { destruct pe; discriminate Hr. }
  destruct l as [|rs l]; [discriminate Hr|].
  unfold batch_statement in Hb.
  apply executemany_pipeline in Hb as (b0 & Hp & (Hb0t & _ & Hb0c)).
  assert (Hdb : db w' = b1) by (inversion Hr; reflexivity).
  assert (Hn : n = count_rows (rs :: l)) by (inversion Hr; reflexivity).
  destruct (pg_table_ b0) as [t|] eqn:Ht0.
  - exists docs, (rs :: l), b0, t. rewrite Hdb.
    repeat split; auto; try congruence.
  - exfalso. destruct docs as [|d docs]; [simpl in Hp; discriminate Hp|].
    destruct (pipeline_needs_table
                (conflict_clause_of (if policy_eqb policy NONE then FAIL else policy))
                (map to_db_document (d :: docs)) b0 Ht0) as (e & b' & Hx);
      [discriminate | congruence].
Qed.




Lemma inserted_app (a b : list row_change) :
  inserted (a ++ b) = (inserted a + inserted b)%nat.
Proof. unfold inserted. rewrite List.filter_app, length_app. reflexivity. Qed.

Lemma overwritten_app (a b : list row_change) :
  overwritten (a ++ b) = (overwritten a + overwritten b)%nat.
Proof. unfold overwritten. rewrite List.filter_app, length_app. reflexivity. Qed.

Lemma has_id_app_iff (i : string) (rows more : list pg_row) :
  has_id i (rows ++ more) = has_id i rows || has_id i more.
Proof. unfold has_id. apply existsb_app. Qed.

(** The rows and the record of changes after a batch that succeeds: the
    statements that returned a row are the insertions and the overwrites;
    an insertion adds a row under an id that was not there; an overwrite
    needs the clause DO UPDATE and an id that was there or was inserted
    earlier in the batch; without that clause the rows that were there are
    left as they are.  With DO NOTHING and every id in the table, nothing
    happens at all. *)
Lemma pipeline_tally (c : conflict_clause) (ds : list db_document) :
  forall b l b1 t,
    pipeline c ds b = (PgOk l, b1) -> pg_table_ b = Some t ->
    exists rows' new,
      pg_table_ b1 = Some {| tbl_dim := tbl_dim t; tbl_rows := rows' |}
      /\ pg_changes b1 = (new ++ pg_changes b)%list
      /\ count_rows l = (inserted new + overwritten new)%nat
      /\ List.length rows' = (List.length (tbl_rows t) + inserted new)%nat
      /\ (forall i, has_id i (tbl_rows t) = true -> has_id i rows' = true)
      /\ (forall i, In (Inserted i) new ->
            has_id i (tbl_rows t) = false /\ has_id i rows' = true)
      /\ (forall i, In (Overwritten i) new ->
            (exists set, c = OnConflictDoUpdate set)
            /\ (has_id i (tbl_rows t) = true \/ In (Inserted i) new))
      /\ ((forall set, c <> OnConflictDoUpdate set) ->
          exists rows, rows' = (tbl_rows t ++ rows)%list)
      /\ (c = OnConflictDoNothing ->
          (forall d i, In d ds -> to_varchar128 (db_id d) = PgOk i ->
                       has_id i (tbl_rows t) = true) ->
          new = [] /\ rows' = tbl_rows t /\ count_rows l = 0%nat).
Proof.
  induction ds as [|d ds IH]; simpl; intros b l b1 t Hp Ht.
  - inversion Hp; subst. exists (tbl_rows t), []. destruct t as [dim rows]. simpl.
    split; [exact Ht|]. split; [reflexivity|]. split; [reflexivity|].
    split; [unfold inserted; simpl; lia|]. split; [auto|].
    split; [intros i []|]. split; [intros i []|].
    split; [intros _; exists []; rewrite app_nil_r; reflexivity|]. auto.
  - destruct (round_trip (Insert c d) b) as [[rs|e] b0] eqn:Hr; [|discriminate].
    destruct (pipeline c ds b0) as [[l0|e] b2] eqn:Hp0; [|discriminate].
    inversion Hp; subst.
    destruct (round_trip_insert_inv _ _ _ _ _ _ Hr Ht) as (_ & r & Hrow & Hcase).
    apply to_row_id in Hrow as Hrid.
    destruct Hcase as [(Hh & Ht0 & Hc0 & Hrs) | [(Hh & Hc & Ht0 & Hc0 & Hrs)
                                               | (Hh & set & Hc & Ht0 & Hc0 & Hrs)]].
    + (* the row is inserted *)
      destruct (IH _ _ _ _ Hp0 Ht0)
        as (rows' & new & Ht1 & Hch & Hcnt & Hlen & Hkeep & Hins & Hov & Hrest & _).
      cbn [tbl_dim tbl_rows] in *.
      exists rows', (new ++ [Inserted (row_id r)])%list.
      split; [exact Ht1|].
      split; [rewrite Hch, Hc0, <- app_assoc; reflexivity|].
      split; [cbn [count_rows]; rewrite Hrs, Hcnt, inserted_app, overwritten_app;
              cbn; lia|].
      split; [rewrite Hlen, length_app, inserted_app; cbn; lia|].
      split; [intros i Hi; apply Hkeep; rewrite has_id_app_iff, Hi; reflexivity|].
      split.
      { intros i Hi. apply in_app_iff in Hi as [Hi | [Hi | []]].
        - destruct (Hins i Hi) as [Hf Ht']. split; [|exact Ht'].
          rewrite has_id_app_iff in Hf. apply orb_false_iff in Hf. tauto.
        - inversion Hi; subst i. split; [exact Hh|]. apply Hkeep.
          rewrite has_id_app_iff. apply orb_true_iff. right.
          unfold has_id. simpl. rewrite String.eqb_refl. reflexivity. }
      split.
      { intros i Hi. apply in_app_iff in Hi as [Hi | [Hi | []]]; [|discriminate Hi].
        destruct (Hov i Hi) as [Hset Hwas]. split; [exact Hset|].
        destruct Hwas as [Hwas | Hwas].
        - rewrite has_id_app_iff in Hwas. apply orb_true_iff in Hwas as [Hwas | Hwas];
            [left; exact Hwas|].
          right. apply in_app_iff. right. left.
          unfold has_id in Hwas. simpl in Hwas. rewrite orb_false_r in Hwas.
          apply String.eqb_eq in Hwas. congruence.
        - right. apply in_app_iff. left. exact Hwas. }
      split.
      { intros Hno. destruct (Hrest Hno) as [rows ->]. exists (r :: rows).
        rewrite <- app_assoc. reflexivity. }
      intros Hc Hall. exfalso.
      assert (Hx : has_id (row_id r) (tbl_rows t) = true)
        by (apply (Hall d); [left; reflexivity | exact Hrid]).
      congruence.
    + (* the conflict is passed over *)
      destruct (IH _ _ _ _ Hp0 Ht0)
        as (rows' & new & Ht1 & Hch & Hcnt & Hlen & Hkeep & Hins & Hov & Hrest & Hskip).
      exists rows', new.
      split; [exact Ht1|]. split; [rewrite Hch, Hc0; reflexivity|].
      split; [cbn [count_rows]; rewrite Hrs, Hcnt; reflexivity|].
      split; [exact Hlen|]. split; [exact Hkeep|]. split; [exact Hins|].
      split; [exact Hov|]. split; [exact Hrest|].
      intros Hc' Hall. destruct (Hskip Hc') as (Hn & Hr' & Hc'').
      { intros d' i Hd'. apply Hall. right. exact Hd'. }
      cbn [count_rows]. rewrite Hrs, Hc''. auto.
    + (* the row is overwritten *)
      destruct (IH _ _ _ _ Hp0 Ht0)
        as (rows' & new & Ht1 & Hch & Hcnt & Hlen & Hkeep & Hins & Hov & Hrest & _).
      cbn [tbl_dim tbl_rows] in *.
      exists rows', (new ++ [Overwritten (row_id r)])%list.
      split; [exact Ht1|].
      split; [rewrite Hch, Hc0, <- app_assoc; reflexivity|].
      split; [cbn [count_rows]; rewrite Hrs, Hcnt, inserted_app, overwritten_app;
              cbn; lia|].
      split; [rewrite Hlen, update_row_length, inserted_app; cbn; lia|].
      split; [intros i Hi; apply Hkeep; rewrite update_row_has_id; exact Hi|].
      split.
      { intros i Hi. apply in_app_iff in Hi as [Hi | [Hi | []]]; [|discriminate Hi].
        destruct (Hins i Hi) as [Hf Ht']. rewrite update_row_has_id in Hf. auto. }
      split.
      { intros i Hi. split; [eauto|].
        apply in_app_iff in Hi as [Hi | [Hi | []]].
        - destruct (Hov i Hi) as [_ [Hwas | Hwas]].
          + left. rewrite update_row_has_id in Hwas. exact Hwas.
          + right. apply in_app_iff. left. exact Hwas.
        - inversion Hi; subst i. left. exact Hh. }
      split; [intros Hno; exfalso; apply (Hno set); exact Hc|].
      intros Hc'. congruence.
Qed.

End PgvectorBatches.

(** * The claims about writes at any stage *)




(** X7: under FAIL, or with no policy given, a write that returns has
    stored the whole batch, at any stage of the instance: it returns the
    size of the batch, and the table is the table that the call found (on
    first use: after the schema initialisation, which creates a missing
    table and, under [recreate_table], drops the one that was there)
    followed by one row per document, in the order of the batch; each row
    is the row of its document, with the embedding in single precision;
    none of the ids was in the table and no two documents of the batch have
    the same id. *)
Theorem write_fail_stores_the_batch `{Env} (documents : list pyobj)
  (policy : DuplicatePolicy) (w : PgWorld) n w' :
  fail_policy policy ->
  Pgvector.write_documents documents policy w = (Ok n, w') ->
  exists t docs rows,
    table_found w = Some t
    /\ documents = map ADocument docs
    /\ n = List.length documents
    /\ Forall2 (fun d r => row_of (tbl_dim t) d = PgOk r) docs rows
    /\ pg_table_ (db w') = Some {| tbl_dim := tbl_dim t; tbl_rows := tbl_rows t ++ rows |}
    /\ (forall r, In r rows -> has_id (row_id r) (tbl_rows t) = false)
    /\ List.NoDup (map row_id rows).
Proof.
  intros Hpol Hrun.
  apply write_documents_returns in Hrun
    as (docs & l & b0 & t & -> & Hfound & Ht0 & _ & Hp & -> & _).
  rewrite (clause_of_fail_policy policy Hpol) in Hp.
  destruct (pipeline_plain _ _ _ _ _ Hp Ht0) as (rows & Hall & Ht1 & Hcnt & Hnew & Hnd).
  exists t, docs, rows. split; [exact Hfound|]. split; [reflexivity|].
  split; [rewrite Hcnt, !length_map; reflexivity|].
  split; [|auto].
  clear - Hall. revert rows Hall. induction docs as [|d docs IH]; intros rows Hall;
    inversion Hall; subst; constructor; auto.
Qed.

Lemma write_fail_stores_the_batch_witness :
  let w := Examples.pg_world
             (Examples.recreating
                (Examples.pg_store "exact_nearest_neighbor" "cosine_similarity"))
             (Examples.pg_backend [Examples.row "a" (Some "x") [] None] [] []) in
  let batch := [ADocument (Examples.doc (IdStr "a") (Some "y") [] None);
                ADocument (Examples.doc (IdStr "c") (Some "z") []
                             (Some [16777217%float; 0x1.999999999999ap-4%float]))] in
  let r := @Pgvector.write_documents Examples.example_env batch FAIL w in
  pg_table_ (db (snd r))
  = Some {| tbl_dim := 2;
            tbl_rows := [Examples.row "a" (Some "y") [] None;
                         Examples.row "c" (Some "z") []
                           (Some [16777216%float; 0x1.99999ap-4%float])] |}
  /\ exists t docs rows,
    table_found w = Some t
    /\ batch = map ADocument docs
    /\ 2%nat = List.length batch
    /\ Forall2 (fun d r => row_of (tbl_dim t) d = PgOk r) docs rows
    /\ pg_table_ (db (snd r))
       = Some {| tbl_dim := tbl_dim t; tbl_rows := tbl_rows t ++ rows |}
    /\ (forall r, In r rows -> has_id (row_id r) (tbl_rows t) = false)
    /\ List.NoDup (map row_id rows).
Proof.
  intros w batch r.
  assert (Hr : r = (Ok 2%nat, snd r)) by (vm_compute; reflexivity).
  split; [vm_compute; reflexivity|].
  exact (@write_fail_stores_the_batch Examples.example_env batch FAIL w 2%nat (snd r)
           (or_introl eq_refl) Hr).
Defined.

(** X8: under SKIP, a write that returns has left every row of the table
    that the call found as it was (on first use: the table after the schema
    initialisation) and has appended rows of documents of the batch whose
    ids were not in the table, as many as the number it returns; the rows
    hold the embeddings in single precision; afterwards every document of
    the batch finds a row under its id. *)
Theorem write_skip_keeps_stored_rows `{Env} (documents : list pyobj) (w : PgWorld)
  n w' :
  Pgvector.write_documents documents SKIP w = (Ok n, w') ->
  exists t docs rows,
    table_found w = Some t
    /\ documents = map ADocument docs
    /\ pg_table_ (db w') = Some {| tbl_dim := tbl_dim t; tbl_rows := tbl_rows t ++ rows |}
    /\ n = List.length rows
    /\ (forall r, In r rows ->
          has_id (row_id r) (tbl_rows t) = false
          /\ exists d, In d docs /\ row_of (tbl_dim t) d = PgOk r)
    /\ (forall d, In d docs ->
          exists r, row_of (tbl_dim t) d = PgOk r
                    /\ has_id (row_id r) (tbl_rows t ++ rows) = true)
    /\ List.NoDup (map row_id rows).
Proof.
  intros Hrun.
  apply write_documents_returns in Hrun
    as (docs & l & b0 & t & -> & Hfound & Ht0 & _ & Hp & -> & _).
  cbn [policy_eqb Pgvector.conflict_clause_of] in Hp.
  destruct (pipeline_skip _ _ _ _ _ Hp Ht0) as (rows & Ht1 & Hcnt & Hnew & Hall & Hnd).
  exists t, docs, rows. split; [exact Hfound|]. split; [reflexivity|].
  split; [exact Ht1|]. split; [exact Hcnt|].
  split; [|split; [|exact Hnd]].
  - intros r Hr. destruct (Hnew r Hr) as (Hh & d & Hd & Hrow). split; [exact Hh|].
    apply in_map_iff in Hd as (d0 & <- & Hd0). exists d0. auto.
  - intros d Hd. apply Hall. apply in_map. exact Hd.
Qed.

Lemma write_skip_keeps_stored_rows_witness :
  let w := Examples.pg_world
             (Examples.pg_store "exact_nearest_neighbor" "cosine_similarity")
             (Examples.pg_backend [Examples.row "a" (Some "x") [] None] [] []) in
  let batch := [ADocument (Examples.doc (IdStr "a") (Some "changed") [] None);
                ADocument (Examples.doc (IdStr "b") (Some "y") [] None)] in
  let r := @Pgvector.write_documents Examples.example_env batch SKIP w in
  fst r = Ok 1%nat
  /\ exists t docs rows,
       table_found w = Some t
       /\ batch = map ADocument docs
       /\ pg_table_ (db (snd r))
          = Some {| tbl_dim := tbl_dim t; tbl_rows := tbl_rows t ++ rows |}
       /\ 1%nat = List.length rows
       /\ (forall r, In r rows ->
             has_id (row_id r) (tbl_rows t) = false
             /\ exists d, In d docs /\ row_of (tbl_dim t) d = PgOk r)
       /\ (forall d, In d docs ->
             exists r, row_of (tbl_dim t) d = PgOk r
                       /\ has_id (row_id r) (tbl_rows t ++ rows) = true)
       /\ List.NoDup (map row_id rows).
Proof.
  intros w batch r.
  assert (Hr : r = (Ok 1%nat, snd r)) by (vm_compute; reflexivity).
  split; [vm_compute; reflexivity|].
  exact (@write_skip_keeps_stored_rows Examples.example_env batch w 1%nat (snd r) Hr).
Defined.





(** ** What a write to the Azure index stores *)

Section AzureTally.
Import AzureAISearch.
Local Open Scope py_scope.

Lemma succeeded_failed (results : list bool) :
  (succeeded results + failed results)%nat = List.length results.
Proof.
  unfold succeeded, failed. induction results as [|[|] results IH]; simpl in *; lia.
Qed.

Lemma merge_or_upload_one_length (k : string) (d : azure_doc) (docs : list azure_doc) :
  List.length (fst (merge_or_upload_one k d docs))
  = (List.length docs + (if snd (merge_or_upload_one k d docs) then 0 else 1))%nat.
Proof.
  induction docs as [|old docs IH]; simpl; [reflexivity|].
  destruct (key_of old) as [k'|].
  - destruct (String.eqb k' k); simpl; [lia|].
    destruct (merge_or_upload_one k d docs) as [r merged]. simpl in *. lia.
  - destruct (merge_or_upload_one k d docs) as [r merged]. simpl in *. lia.
Qed.

(** The documents and the record of changes after the actions of a
    batch: one change per action, and one more document per insertion. *)
Lemma apply_batch_tally (batch : list azure_doc) :
  forallb has_key batch = true ->
  forall docs changes,
    exists docs' new,
      apply_batch batch docs changes = (docs', (new ++ changes)%list)
      /\ List.length new = List.length batch
      /\ List.length docs' = (List.length docs + inserted new)%nat.
Proof.
  induction batch as [|d batch IH]; simpl; intros Hk docs changes.
  - exists docs, []. unfold inserted. simpl. split; [reflexivity|]. split; [reflexivity|lia].
  - apply andb_prop in Hk as [Hd Hk]. unfold has_key in Hd.
    destruct (key_of d) as [k|]; [|discriminate].
    pose proof (merge_or_upload_one_length k d docs) as Hlen.
    destruct (merge_or_upload_one k d docs) as [docs1 merged]. simpl in Hlen.
    destruct (IH Hk docs1 ((if merged then Overwritten k else Inserted k) :: changes))
      as (docs' & new & Hrun & Hl & Hd').
    exists docs', (new ++ [if merged then Overwritten k else Inserted k])%list.
    split; [rewrite Hrun, <- app_assoc; reflexivity|].
    split; [rewrite length_app; simpl; lia|].
    rewrite Hd', Hlen, inserted_app. destruct merged; unfold inserted; simpl; lia.
Qed.

(** An upload that the service accepts: one result per action; the index
    holds one more document per insertion, and the changes are as many as
    the actions reported as succeeded. *)
Lemma merge_or_upload_ok (index : string) (batch : list azure_doc) (b : AzureBackend)
  results b' :
  merge_or_upload_documents index batch b = (AzOk results, b') ->
  List.length results = List.length batch
  /\ exists ix docs' new,
       find_index index (az_indexes b) = Some ix
       /\ find_index index (az_indexes b')
          = Some {| si_name := si_name ix; si_fields := si_fields ix; si_docs := docs' |}
       /\ az_changes b' = (new ++ az_changes b)%list
       /\ List.length new = succeeded results
       /\ List.length docs' = (List.length (si_docs ix) + inserted new)%nat.
Proof.
  unfold merge_or_upload_documents. destruct (az_call _ b) as [f b1] eqn:Hc.
  pose proof (az_call_frame (AzMergeOrUpload index batch) b) as [Hi Hch].
  rewrite Hc in Hi, Hch. simpl in *.
  destruct f; [discriminate|].
  destruct (find_index index (az_indexes b1)) as [ix|] eqn:Hix; [|discriminate].
  destruct (acceptable ix batch) eqn:Ha; [|discriminate].
  pose proof (take_outcomes_length batch (az_faults b1)) as Hlen.
  destruct (take_outcomes batch (az_faults b1)) as [res faults]. simpl in Hlen.
  destruct (apply_batch_tally (succeeded_docs batch res)
              (succeeded_docs_has_key _ (acceptable_has_key _ _ Ha) res) (si_docs ix)
              (az_changes b1)) as (docs' & new & Hrun & Hl & Hd).
  rewrite Hrun. intros Hx. inversion Hx; subst results b'; clear Hx.
  split; [exact Hlen|]. exists ix, docs', new. cbn.
  split; [rewrite <- Hi; exact Hix|].
  split; [apply (find_index_put index _ ix); [exact Hix | apply (find_index_name _ _ _ Hix)]|].
  split; [rewrite Hch; reflexivity|].
  split; [rewrite Hl; apply succeeded_docs_length; exact Hlen | exact Hd].
Qed.

(** Under SKIP, a turn of the loop for a document that the index holds
    adds nothing to the documents to write. *)
Lemma write_one_skip_existing (acc : list azure_doc) (d : Document)
  (ix : search_index) x (w : AzWorld) acc' w' :
  index_holds ix w ->
  find_doc (key_text (id d)) (si_docs ix) = Some x ->
  write_one SKIP acc (ADocument d) w = (Ok acc', w') -> acc' = acc.
Proof.
  intros Hix Hx. unfold write_one, bind.
  pose proof (index_holds_kept client ix w az_keeps_client Hix) as Hix1.
  destruct (client w) as [[c|e] w1] eqn:Hc; [|discriminate].
  apply client_returns_index_name in Hc as Hname. simpl in Hix1.
  pose proof (az_keeps_client w) as [_ Hn]. rewrite Hc in Hn. simpl in Hn.
  unfold index_holds in Hix1. rewrite Hn, <- Hname in Hix1.
  unfold get_document.
  pose proof (az_call_frame (AzGetDocument c (key_text (id d))) (db w1)) as [Hi _].
  destruct (az_call _ (db w1)) as [f b1]. simpl in Hi.
  destruct f; [discriminate|].
  rewrite Hi, Hix1, Hx. unfold ret. intros Hr. inversion Hr. reflexivity.
Qed.

Lemma write_loop_skip_existing (ix : search_index) (documents : list pyobj) :
  forall acc (w : AzWorld) acc' w',
    index_holds ix w ->
    (forall d, In (ADocument d) documents ->
               exists x, find_doc (key_text (id d)) (si_docs ix) = Some x) ->
    write_loop SKIP documents acc w = (Ok acc', w') -> acc' = acc.
Proof.
  induction documents as [|o rest IH]; intros acc w acc' w' Hix Hall Hrun; simpl in Hrun.
  - inversion Hrun. reflexivity.
  - apply bind_inv in Hrun as [(a & w1 & H1 & Hrun) | (e & _ & Hx)]; [|discriminate Hx].
    pose proof (index_holds_kept (write_one SKIP acc o) ix w
                  (az_keeps_write_one SKIP acc o) Hix) as Hix1.
    rewrite H1 in Hix1. simpl in Hix1.
    assert (Ha : a = acc).
    { destruct o as [d|v].
      - destruct (Hall d (or_introl eq_refl)) as [x Hx].
        exact (write_one_skip_existing acc d ix x w a w1 Hix Hx H1).
      - destruct (write_one_not_a_document SKIP acc v w) as (e & w2 & Hr). congruence. }
    subst a. apply (IH acc w1 acc' w' Hix1); [|exact Hrun].
    intros d Hd. apply Hall. right. exact Hd.
Qed.

(** A write to the Azure store that returns: the number returned is the
    number of documents sent; the index has one more document per
    insertion; the changes are as many as the actions that the service
    reports as succeeded. *)
Lemma az_write_documents_ok (documents : list pyobj) (policy : DuplicatePolicy)
  (w : AzWorld) n w' :
  AzureAISearch.write_documents documents policy w = (Ok n, w') ->
  exists batch w2 results new,
    write_loop policy documents [] w = (Ok batch, w2)
    /\ n = List.length batch
    /\ List.length results = n
    /\ az_changes (db w') = (new ++ az_changes (db w))%list
    /\ List.length new = succeeded results
    /\ (forall ix, index_holds ix w ->
          exists docs',
            index_holds {| si_name := si_name ix; si_fields := si_fields ix;
                           si_docs := docs' |} w'
            /\ List.length docs' = (List.length (si_docs ix) + inserted new)%nat)
    /\ (batch = [] -> az_frame (db w) (db w')).
Proof.
  intros Hrun. unfold AzureAISearch.write_documents in Hrun.
  apply bind_inv in Hrun as [(u & w1 & H1 & Hrun) | (e & H1 & Hx)]; [|discriminate Hx].
  assert (w1 = w) by (destruct documents as [|[d|v] ?]; simpl in H1; inversion H1; auto).
  subst w1. clear H1.
  pose proof (az_keeps_write_loop policy documents [] w) as [Hloop Hname].
  apply bind_inv in Hrun as [(batch & w2 & H2 & Hrun) | (e & H2 & Hx)]; [|discriminate Hx].
  rewrite H2 in Hloop, Hname. simpl in Hloop, Hname.
  apply bind_inv in Hrun as [(u' & w3 & H3 & Hrun) | (e & H3 & Hx)]; [|discriminate Hx].
  inversion Hrun; subst n w'; clear Hrun.
  destruct batch as [|d batch].
  - inversion H3; subst. eexists _, _, [], []. simpl. destruct Hloop as (Hl1 & Hl2 & Hl3).
    split; [exact H2|]. split; [reflexivity|]. split; [reflexivity|].
    split; [exact Hl1|]. split; [reflexivity|]. split; [|intros _; repeat split; auto].
    intros ix Hix. exists (si_docs ix). unfold inserted. simpl.
    split; [|lia]. unfold index_holds in *. rewrite Hname.
    destruct ix. simpl. apply Hl3. exact Hix.
  - apply bind_inv in H3 as [(c & w4 & H4 & H3) | (e & H4 & Hx)]; [|discriminate Hx].
    pose proof (az_keeps_client w2) as [Hcl Hcn]. rewrite H4 in Hcl, Hcn.
    simpl in Hcl, Hcn.
    apply client_returns_index_name in H4 as Hc.
    apply bind_inv in H3 as [(results & w5 & H5 & H3) | (e & H5 & Hx)];
      [|discriminate Hx].
    inversion H3; subst u' w5; clear H3.
    unfold sdk in H5.
    destruct (merge_or_upload_documents c (d :: batch) (db w4)) as [[x|e] b] eqn:Hm;
      [|discriminate H5].
    inversion H5; subst; clear H5.
    apply merge_or_upload_ok in Hm
      as (Hlen & ix0 & docs' & new & Hix0 & Hix' & Hch & Hl & Hd).
    eexists _, _, results, new. cbn [db with_db self].
    destruct Hloop as (Hl1 & _ & Hl3). destruct Hcl as (Hc1 & _ & Hc3).
    split; [exact H2|]. split; [reflexivity|]. split; [exact Hlen|].
    split; [rewrite Hch, Hc1, Hl1; reflexivity|]. split; [exact Hl|].
    split; [|discriminate].
    intros ix Hix. exists docs'. unfold index_holds in *.
    assert (Hfind : find_index (_index_name (self w2)) (az_indexes (db w4)) = Some ix).
    { apply Hc3. rewrite Hname. apply Hl3. exact Hix. }
    rewrite Hfind in Hix0. inversion Hix0; subst ix0.
    split; [|exact Hd]. cbn [self db with_db]. rewrite Hcn. exact Hix'.
Qed.

End AzureTally.

(** A write to the Azure store during which the service accepts the
    upload and reports its one action as failed: the call returns 1, and
    the index holds what it held. *)
Lemma azure_write_counts_failed_action :
  let w := Examples.az_world (Examples.az_store None None)
             (Examples.az_backend ["id"; "content"; "embedding"]
                [[("id", VStr "a"); ("content", VStr "old"); ("embedding", VNone)]]
                [false; false; false; false; true]) in
  let batch := [ADocument (Examples.doc (IdStr "b") (Some "new") [] None)] in
  let r := AzureAISearch.write_documents batch FAIL w in
  fst r = Ok 1%nat
  /\ az_indexes (db (snd r)) = az_indexes (db w)
  /\ az_changes (db (snd r)) = [].
Proof. vm_compute. auto. Qed.

(** C4: on the pgvector store, under every policy and at any stage of the
    instance, the integer that a write returns is the number of rows it
    inserted plus the number it overwrote: the table that the call found
    has grown by the insertions, an insertion is under an id that was not
    there, an overwrite happens only under OVERWRITE and under an id that
    was there or came earlier in the batch; a batch of stored ids written
    under SKIP returns 0 and leaves the rows as they are.  On the Azure
    store the integer is the number of documents sent to the service, the
    skipped ones excluded (a batch of stored ids under SKIP returns 0): it
    is the number inserted plus the number overwritten plus the number of
    actions that the service reports as failed, which the method does not
    read. *)
Theorem written_count_is_inserted_plus_overwritten `{Env} :
  (forall documents policy (w : PgWorld) n w',
      Pgvector.write_documents documents policy w = (Ok n, w') ->
      exists t rows' new,
        table_found w = Some t
        /\ pg_table_ (db w') = Some {| tbl_dim := tbl_dim t; tbl_rows := rows' |}
        /\ pg_changes (db w') = (new ++ pg_changes (db w))%list
        /\ n = (inserted new + overwritten new)%nat
        /\ List.length rows' = (List.length (tbl_rows t) + inserted new)%nat
        /\ (forall i, In (Inserted i) new ->
              has_id i (tbl_rows t) = false /\ has_id i rows' = true)
        /\ (forall i, In (Overwritten i) new ->
              policy = OVERWRITE
              /\ (has_id i (tbl_rows t) = true \/ In (Inserted i) new))
        /\ (policy <> OVERWRITE -> exists rows, rows' = (tbl_rows t ++ rows)%list)
        /\ (policy = SKIP ->
            (forall d i, In (ADocument d) documents -> to_varchar128 (id d) = PgOk i ->
                         has_id i (tbl_rows t) = true) ->
            n = 0%nat /\ rows' = tbl_rows t /\ new = []))
  /\ (forall documents policy (w : AzWorld) n w',
         AzureAISearch.write_documents documents policy w = (Ok n, w') ->
         exists results new,
           List.length results = n
           /\ az_changes (db w') = (new ++ az_changes (db w))%list
           /\ n = (inserted new + overwritten new + failed results)%nat
           /\ (forall ix, index_holds ix w ->
                 exists docs',
                   index_holds {| si_name := si_name ix; si_fields := si_fields ix;
                                  si_docs := docs' |} w'
                   /\ List.length docs' = (List.length (si_docs ix) + inserted new)%nat)
           /\ (policy = SKIP ->
               forall ix, index_holds ix w ->
               (forall d, In (ADocument d) documents ->
                  exists x, find_doc (AzureAISearch.key_text (id d)) (si_docs ix) = Some x) ->
               n = 0%nat /\ az_frame (db w) (db w'))).
Proof.
  split; intros documents policy w n w' Hrun.
  - apply write_documents_returns in Hrun
      as (docs & l & b0 & t & -> & Hfound & Ht0 & Hc0 & Hp & -> & _).
    destruct (pipeline_tally _ _ _ _ _ _ Hp Ht0)
      as (rows' & new & Ht1 & Hch & Hcnt & Hlen & _ & Hins & Hov & Hrest & Hskip).
    exists t, rows', new. split; [exact Hfound|]. split; [exact Ht1|].
    split; [rewrite Hch, Hc0; reflexivity|]. split; [exact Hcnt|].
    split; [exact Hlen|]. split; [exact Hins|].
    split; [|split].
    + intros i Hi. destruct (Hov i Hi) as [[set Hset] Hwas]. split; [|exact Hwas].
      destruct policy; cbn in Hset; try discriminate Hset; reflexivity.
    + intros Hne. apply Hrest. intros set Hset.
      destruct policy; cbn in Hset; try discriminate Hset. apply Hne. reflexivity.
    + intros -> Hall. destruct Hskip as (Hn & Hr & Hc); [reflexivity| |auto].
      intros d i Hd Hi. apply in_map_iff in Hd as (d0 & <- & Hd0).
      apply (Hall d0); [apply in_map; exact Hd0 | exact Hi].
  - apply az_write_documents_ok in Hrun
      as (batch & w2 & results & new & Hloop & Hn & Hlen & Hch & Hl & Hix & Hempty).
    exists results, new. split; [exact Hlen|]. split; [exact Hch|].
    split; [rewrite inserted_plus_overwritten, Hl, succeeded_failed; congruence|].
    split; [exact Hix|].
    intros -> ix Hholds Hall.
    assert (Hb : batch = []) by (exact (write_loop_skip_existing ix documents [] w batch w2
                                          Hholds Hall Hloop)).
    subst batch. split; [exact Hn | apply Hempty; reflexivity].
Qed.

Lemma written_count_witness :
  let w := Examples.pg_world
             (Examples.pg_store "exact_nearest_neighbor" "cosine_similarity")
             (Examples.pg_backend [Examples.row "a" (Some "old") [] None] [] []) in
  let batch := [ADocument (Examples.doc (IdStr "a") (Some "changed") [] None)] in
  let w' := snd (@Pgvector.write_documents Examples.example_env batch SKIP w) in
  let wz := Examples.az_world (Examples.az_store None None)
              (Examples.az_backend ["id"; "content"; "embedding"]
                 [[("id", VStr "a"); ("content", VStr "old"); ("embedding", VNone)]]
                 [false; false; false; false; true]) in
  let sent := [ADocument (Examples.doc (IdStr "b") (Some "new") [] None)] in
  let wz' := snd (AzureAISearch.write_documents sent FAIL wz) in
  (@Pgvector.write_documents Examples.example_env batch SKIP w = (Ok 0%nat, w')
   /\ exists t rows' new,
        table_found w = Some t
        /\ pg_table_ (db w') = Some {| tbl_dim := tbl_dim t; tbl_rows := rows' |}
        /\ pg_changes (db w') = (new ++ pg_changes (db w))%list
        /\ 0%nat = (inserted new + overwritten new)%nat)
  /\ (AzureAISearch.write_documents sent FAIL wz = (Ok 1%nat, wz')
      /\ az_changes (db wz') = []
      /\ exists results new,
           List.length results = 1%nat
           /\ az_changes (db wz') = (new ++ az_changes (db wz))%list
           /\ 1%nat = (inserted new + overwritten new + failed results)%nat).
Proof.
  intros w batch w' wz sent wz'.
  assert (Hrun : @Pgvector.write_documents Examples.example_env batch SKIP w = (Ok 0%nat, w'))
    by (vm_compute; reflexivity).
  assert (Hz : AzureAISearch.write_documents sent FAIL wz = (Ok 1%nat, wz'))
    by (vm_compute; reflexivity).
  split.
  - split; [exact Hrun|].
    destruct (proj1 (@written_count_is_inserted_plus_overwritten Examples.example_env)
                batch SKIP w 0%nat w' Hrun)
      as (t & rows' & new & H1 & H2 & H3 & H4 & _).
    exists t, rows', new. auto.
  - split; [exact Hz|]. split; [vm_compute; reflexivity|].
    destruct (proj2 (@written_count_is_inserted_plus_overwritten Examples.example_env)
                sent FAIL wz 1%nat wz' Hz)
      as (results & new & H1 & H2 & H3 & _).
    exists results, new. auto.
Defined.

(** ** The order and the scores of a vector search *)

Section VectorSearchOrder.
Context `{Env}.

Lemma pg_leb_trans (a b c : option score_t) :
  pg_leb a b = true -> pg_leb b c = true -> pg_leb a c = true.
Proof.
  destruct a as [x|], b as [y|], c as [z|]; simpl; try discriminate; auto.
  rewrite !Qle_bool_iff. apply Qle_trans.
Qed.

Lemma rec_ge_trans (a b c : record) : rec_ge a b -> rec_ge b c -> rec_ge a c.
Proof. unfold rec_ge, pg_ge. intros Hab Hbc. exact (pg_leb_trans _ _ _ Hbc Hab). Qed.

Lemma In_firstn_of {A} (n : nat) (l : list A) (x : A) : In x (firstn n l) -> In x l.
Proof. intros Hx. rewrite <- (firstn_skipn n l). apply in_or_app. left. exact Hx. Qed.

Lemma In_order_by (o : sort_order) (l : list record) (x : record) :
  In x (order_by o l) <-> In x l.
Proof.
  destruct o; simpl; split; intros Hx.
  - eapply Permutation_in; [apply (merge_sort_Permutation rec_le l) | exact Hx].
  - eapply Permutation_in; [symmetry; apply (merge_sort_Permutation rec_le l) | exact Hx].
  - eapply Permutation_in; [apply (merge_sort_Permutation rec_ge l) | exact Hx].
  - eapply Permutation_in; [symmetry; apply (merge_sort_Permutation rec_ge l) | exact Hx].
Qed.

(** What the similarity query returns: the rows of the table that pass
    the filter, each with its score, in the order asked for, cut at the
    limit. *)
Lemma select_scored_inv (text : string) (p : params) (e : score_expr)
  (q : list float) (wc : option where_clause) (o : sort_order) (k : Z)
  (b : PgBackend) rs b' :
  Postgres.execute text p (SelectScored e q wc o k) b = (PgOk rs, b') ->
  exists t,
    pg_table_ b' = Some t /\ (0 <= k)%Z
    /\ rs = RsRecords (limit_to k (order_by o (map (scored_record e q)
                                                  (List.filter (holds wc) (tbl_rows t))))).
Proof.
  unfold Postgres.execute, round_trip. destruct (next_fault _) as [f b0].
  destruct f; [discriminate|]. simpl.
  destruct (pg_table_ b0) as [t|] eqn:Ht; [|discriminate].
  destruct (k <? 0)%Z eqn:Hk; [discriminate|].
  intros Hx. inversion Hx; subst. exists t. split; [exact Ht|].
  split; [apply Z.ltb_ge in Hk; exact Hk|]. reflexivity.
Qed.

(** Under ORDER BY score DESC, a record without a score among the rows
    selected puts a record without a score at the head of the result. *)
Lemma unscored_comes_first (l : list record) (n : nat) (x : record) :
  In x l -> score_of x = None -> (0 < n)%nat ->
  exists h rest, firstn n (order_by DESC l) = h :: rest /\ score_of h = None.
Proof.
  intros Hx Hs Hn.
  assert (Hin : In x (order_by DESC l)) by (apply In_order_by; exact Hx).
  pose proof (order_by_sorted DESC l) as Hsorted. cbv iota in Hsorted.
  destruct (order_by DESC l) as [|h tl]; [destruct Hin|].
  destruct n as [|n]; [lia|]. exists h, (firstn n tl). split; [reflexivity|].
  destruct Hin as [-> | Hin]; [exact Hs|].
  assert (Hall : List.Forall (rec_ge h) tl).
  { apply Sorted_extends; [|exact Hsorted]. intros a b c. apply rec_ge_trans. }
  rewrite List.Forall_forall in Hall. specialize (Hall x Hin).
  unfold rec_ge, pg_ge in Hall. rewrite Hs in Hall.
  destruct (score_of h); [discriminate Hall | reflexivity].
Qed.

End VectorSearchOrder.

(** C7 (defect of the code): the score of a returned document is the
    value of the metric in force for the embedding that the document
    carries (one minus the cosine distance, the operator of the negated
    inner product times -1, the L2 distance), and a document without an
    embedding has no score; the documents come in the order of ORDER BY
    score, ascending under [l2_distance] and descending under
    [cosine_similarity] and [inner_product], where a missing score counts
    as larger than every score.  So under [cosine_similarity] and
    [inner_product], as soon as one row that passes the filter has no
    embedding, the first document returned is one without embedding and
    without score: the documents that are similar to the query come after
    those that cannot be compared with it. *)
Theorem embedding_retrieval_puts_unscored_first `{Env} (query_embedding : list float)
  (filters : value) (top_k : Z) (vector_function : option string) (w : PgWorld)
  docs w' :
  Pgvector._embedding_retrieval query_embedding filters top_k vector_function w
  = (Ok docs, w') ->
  let f := effective_vector_function (self w) vector_function in
  Forall (fun d =>
            match embedding d with
            | None => score d = None
            | Some v =>
                (f = "cosine_similarity" ->
                 score d = Some (1 - cosine_distance v query_embedding)%Q)
                /\ (f = "inner_product" ->
                    score d = Some (neg_inner_product v query_embedding * (-1 # 1))%Q)
                /\ (f = "l2_distance" ->
                    score d = Some (l2_distance v query_embedding))
            end) docs
  /\ (f = "l2_distance" -> Sorted pg_le (map score docs))
  /\ (f = "cosine_similarity" \/ f = "inner_product" -> Sorted pg_ge (map score docs))
  /\ (f = "cosine_similarity" \/ f = "inner_product" ->
      (0 < top_k)%Z ->
      forall t r,
        pg_table_ (db w') = Some t -> In r (tbl_rows t) ->
        row_embedding r = None -> passes filters r ->
        exists d rest, docs = d :: rest /\ embedding d = None /\ score d = None).
Proof.
  intros Hrun f. unfold Pgvector._embedding_retrieval in Hrun.
  apply bind_inv in Hrun as [(s & w0 & H0 & Hrun) | (e & H0 & Hx)]; [|discriminate Hx].
  inversion H0; subst s w0; clear H0.
  destruct query_embedding as [|q0 qs]; [discriminate Hrun|].
  destruct (negb _); [discriminate Hrun|].
  fold (effective_vector_function (self w) vector_function) in Hrun. fold f in Hrun.
  destruct (negb (Pgvector.str_in f Pgvector.VALID_VECTOR_FUNCTIONS));
    [discriminate Hrun|].
  apply bind_inv in Hrun as [([[sql ps] wc] & w1 & H1 & Hrun) | (e & H1 & Hx)];
    [|discriminate Hx].
  apply bind_inv in Hrun as [(c & w2 & H2 & Hrun) | (e & H2 & Hx)]; [|discriminate Hx].
  apply bind_inv in Hrun as [(rs & w3 & H3 & Hrun) | (e & H3 & Hx)]; [|discriminate Hx].
  inversion Hrun; subst docs w'; clear Hrun.
  unfold Pgvector.Cursor_execute, Pgvector.set_db_result in H3.
  destruct (Postgres.execute _ _ _ (db w2)) as [[rs'|e] b] eqn:He; [|discriminate H3].
  inversion H3; subst rs' w3; clear H3.
  apply select_scored_sorted in He as Hsorted. destruct Hsorted as (l & Hl & Hsorted).
  apply select_scored_inv in He as (t & Ht & Hk & Hrs).
  set (q := q0 :: qs) in *.
  unfold Pgvector._from_pg_to_haystack_documents. rewrite Hrs. cbn [Pgvector.records_of].
  rewrite Hrs in Hl. inversion Hl as [Hl']. rewrite <- Hl' in Hsorted.
  set (recs := limit_to top_k _) in *.
  split; [|split; [|split]].
  - apply List.Forall_forall. intros d Hd. apply in_map_iff in Hd as (x & <- & Hx).
    apply In_firstn_of, In_order_by, in_map_iff in Hx as (r & <- & _).
    cbn [Pgvector.from_pg_record embedding score scored_record rec_row score_of rec_score].
    unfold eval_score. destruct (row_embedding r) as [v|]; [|reflexivity].
    split; [|split]; intros Hf; rewrite Hf; reflexivity.
  - intros Hf. rewrite Hf in Hsorted. simpl in Hsorted. rewrite map_map.
    apply (Sorted_map _ rec_le); [auto | exact Hsorted].
  - intros Hf.
    assert (Ho : Pgvector.sort_order_of f = DESC) by (destruct Hf as [-> | ->]; reflexivity).
    rewrite Ho in Hsorted. rewrite map_map.
    apply (Sorted_map _ rec_ge); [auto | exact Hsorted].
  - intros Hf Hpos t' r Ht' Hr Hnone Hpass.
    cbn [db with_db] in Ht'. rewrite Ht in Ht'. inversion Ht'; subst t'; clear Ht'.
    assert (Ho : Pgvector.sort_order_of f = DESC) by (destruct Hf as [-> | ->]; reflexivity).
    assert (Hholds : holds wc r = true).
    { destruct (truthy filters) eqn:Htr.
      - destruct Hpass as [Hx | (cl & Hcl & Hw)]; [congruence|].
        unfold lift, bind in H1. rewrite Hcl in H1. inversion H1; subst. exact Hw.
      - inversion H1; subst. reflexivity. }
    destruct (unscored_comes_first
                (map (scored_record (Pgvector.score_expr_of f) q)
                     (List.filter (holds wc) (tbl_rows t)))
                (Z.to_nat top_k) (scored_record (Pgvector.score_expr_of f) q r))
      as (h & rest & Hfirst & Hh).
    + apply in_map. apply List.filter_In. auto.
    + unfold scored_record, score_of, eval_score. simpl. rewrite Hnone. reflexivity.
    + lia.
    + subst recs. unfold limit_to. rewrite Ho, Hfirst. cbn [map].
      exists (Pgvector.from_pg_record h), (map Pgvector.from_pg_record rest).
      split; [reflexivity|]. split; [|exact Hh].
      assert (Hin : In h (firstn (Z.to_nat top_k)
                            (order_by DESC
                               (map (scored_record (Pgvector.score_expr_of f) q)
                                    (List.filter (holds wc) (tbl_rows t))))))
        by (rewrite Hfirst; left; reflexivity).
      apply In_firstn_of, In_order_by, in_map_iff in Hin as (r0 & <- & _).
      unfold scored_record, score_of, eval_score in Hh. simpl in Hh. simpl.
      destruct (row_embedding r0); [discriminate Hh | reflexivity].
Qed.

Lemma embedding_retrieval_puts_unscored_first_witness :
  let w := Examples.pg_world
             (Examples.pg_store "exact_nearest_neighbor" "cosine_similarity")
             (Examples.pg_backend
                [Examples.row "a" (Some "x") [] (Some [1%float; 0%float]);
                 Examples.row "n" (Some "no embedding") [] None] [] []) in
  let run := @Pgvector._embedding_retrieval Examples.example_env
               [1%float; 0%float] VNone 1 None w in
  let docs := match fst run with Ok l => l | Raise _ => [] end in
  map id docs = [IdStr "n"]
  /\ exists d rest, docs = d :: rest /\ embedding d = None /\ score d = None.
Proof.
  intros w run docs.
  assert (Hrun : run = (Ok docs, snd run)) by (vm_compute; reflexivity).
  split; [vm_compute; reflexivity|].
  apply (proj2 (proj2 (proj2
           (@embedding_retrieval_puts_unscored_first Examples.example_env
              [1%float; 0%float] VNone 1 None w docs (snd run) Hrun)))
           (or_introl eq_refl) eq_refl
           {| tbl_dim := 2;
              tbl_rows := [Examples.row "a" (Some "x") [] (Some [1%float; 0%float]);
                           Examples.row "n" (Some "no embedding") [] None] |}
           (Examples.row "n" (Some "no embedding") [] None)).
  - vm_compute. reflexivity.
  - right. left. reflexivity.
  - reflexivity.
  - left. reflexivity.
Defined.



